(** * MapVerse: the location / route / search coordination core

    A shallow embedding of the JavaScript modules [Storage], [MapModule],
    [Routing] and [Search], and the properties of the specification that
    are about them.

    - JavaScript numbers are IEEE-754 doubles: Rocq's primitive [float].
      [===] on numbers is [PrimFloat.eqb] (NaN differs from itself, the two
      zeros are equal).
    - [localStorage] holds JSON text.  It is modelled by what [JSON.parse]
      gives back for each key, so a number that [JSON.stringify] writes as
      [null] (NaN, the infinities) is read back as [null].
    - A handler runs to completion; an [async] function is cut at its
      [await]: the part before it issues the request, the part after it
      runs when the browser settles the request.                          *)

From Stdlib Require Import ZArith String Ascii List Bool Lia.
From Stdlib Require Import Floats DecimalString.
From stdpp Require Import base option list gmap.

Import ListNotations.
Local Open Scope string_scope.
Local Open Scope list_scope.
Local Open Scope Z_scope.

Set Warnings "-inexact-float".

(* ================================================================== *)
(** * JavaScript built-ins                                             *)
(* ================================================================== *)

Module JS.

Definition number := float.

(** [x === y] on two numbers. *)
Definition strict_eq (x y : number) : bool := PrimFloat.eqb x y.

(** A number as [JSON.parse (JSON.stringify x)] returns it: [None] is
    [null], which is what NaN and the infinities are written as; the
    negative zero is written as 0 and comes back as zero. *)
Definition JSON_number (x : number) : option number :=
  if PrimFloat.is_finite x
  then Some (if PrimFloat.eqb x 0 then 0%float else x)
  else None.

(** [v === y] where [v] was read from JSON (a number or [null]) and [y] is
    a number: [null] is strictly equal to no number. *)
Definition json_strict_eq (v : option number) (y : number) : bool :=
  match v with
  | Some x => strict_eq x y
  | None => false
  end.

(** [s || d] on a string that may be [undefined]: the empty string and
    [undefined] are falsy. *)
Definition or_default (s : option string) (d : string) : string :=
  match s with
  | Some EmptyString | None => d
  | Some s' => s'
  end.

(** ** Object literals

    [table[key]] on an object literal finds the members of the literal and,
    for any other key, those the literal inherits from [Object.prototype].
    The inherited members are functions (and, under [__proto__], the
    prototype itself), all of them truthy; each is given here by the text a
    template literal renders it with, in the form V8 and JavaScriptCore
    print a native function. *)
Definition Object_prototype (key : string) : option string :=
  if String.eqb key "constructor"
  then Some "function Object() { [native code] }"
  else if String.eqb key "__proto__"
  then Some "[object Object]"
  else if existsb (String.eqb key)
            ("__defineGetter__" :: "__defineSetter__" :: "hasOwnProperty"
             :: "__lookupGetter__" :: "__lookupSetter__" :: "isPrototypeOf"
             :: "propertyIsEnumerable" :: "toString" :: "valueOf"
             :: "toLocaleString" :: nil)
  then Some (String.append "function "
               (String.append key "() { [native code] }"))
  else None.

(** [l.slice(0, end)]: a negative [end] counts from the end of the array. *)
Definition slice0 {A} (l : list A) (stop : Z) : list A :=
  let len := Z.of_nat (length l) in
  let final := if stop <? 0 then Z.max (len + stop) 0 else Z.min stop len in
  firstn (Z.to_nat final) l.

(** ** Numbers as text, and rounding

    A finite double is [(-1)^s * m * 2^e] ([Prim2SF]); the functions below
    compute on that exact value, as ECMAScript specifies them. *)

(** The decimal digits of a natural number. *)
Definition digits (n : Z) : string :=
  NilZero.string_of_uint (N.to_uint (Z.to_N n)).

Fixpoint zeros (k : nat) : string :=
  match k with
  | O => ""
  | S k' => String "0" (zeros k')
  end.

(** The integer closest to [m * 2^e * 10^f]; of two equally close ones,
    the larger. *)
Definition scaled_nearest (m : positive) (e : Z) (f : nat) : Z :=
  let p := Zpos m * 10 ^ Z.of_nat f in
  if 0 <=? e then p * 2 ^ e
  else (2 * p + 2 ^ (- e)) / 2 ^ (- e + 1).

(** The digits [m] of an integer with a point before the last [f]. *)
Definition with_fraction (m : string) (f : nat) : string :=
  if (f =? 0)%nat then m
  else
    let k := String.length m in
    let m := if (k <=? f)%nat then (zeros (S f - k) ++ m)%string else m in
    let k := String.length m in
    (substring 0 (k - f) m ++ "." ++ substring (k - f) f m)%string.

(** [x.toFixed(f)] for [0 <= f <= 100].  [None]: [x] is at least 10^21 in
    magnitude, where the method answers in exponent notation, which is not
    rendered here. *)
Definition toFixed (x : number) (f : nat) : option string :=
  match Prim2SF x with
  | S754_nan => Some "NaN"
  | S754_infinity false => Some "Infinity"
  | S754_infinity true => Some "-Infinity"
  | S754_zero _ => Some (with_fraction "0" f)
  | S754_finite s m e =>
      if (1e21 <=? PrimFloat.abs x)%float then None
      else Some ((if s then "-" else "")
                 ++ with_fraction (digits (scaled_nearest m e f)) f)%string
  end.

(** The double of an integer below 2^53 in magnitude, with its sign (the
    sign of a zero matters to later divisions, not to printing). *)
Definition of_integer (negative : bool) (n : Z) : number :=
  match n with
  | Zpos p => SF2Prim (S754_finite negative p 0)
  | _ => if negative then PrimFloat.neg_zero else PrimFloat.zero
  end.

Definition Math_ceil (x : number) : number :=
  match Prim2SF x with
  | S754_finite s m e =>
      if 0 <=? e then x
      else
        let d := 2 ^ (- e) in
        let q := Zpos m / d in
        let r := Zpos m mod d in
        if s then of_integer true q
        else of_integer false (if r =? 0 then q else q + 1)
  | _ => x
  end.

Definition Math_floor (x : number) : number :=
  match Prim2SF x with
  | S754_finite s m e =>
      if 0 <=? e then x
      else
        let d := 2 ^ (- e) in
        let q := Zpos m / d in
        let r := Zpos m mod d in
        if s then of_integer true (if r =? 0 then q else q + 1)
        else of_integer false q
  | _ => x
  end.

(** [Math.round]: the closest integer, a tie going up. *)
Definition Math_round (x : number) : number :=
  match Prim2SF x with
  | S754_finite s m e =>
      if 0 <=? e then x
      else
        let d := 2 ^ (- e) in
        if s then of_integer true (- ((d - 2 * Zpos m) / (2 * d)))
        else of_integer false ((2 * Zpos m + d) / (2 * d))
  | _ => x
  end.

(** [x % y]: the remainder of the truncated division, exact, with the sign
    of [x]. *)
Definition remainder (x y : number) : number :=
  match Prim2SF x, Prim2SF y with
  | S754_nan, _ | _, S754_nan => PrimFloat.nan
  | S754_infinity _, _ => PrimFloat.nan
  | _, S754_zero _ => PrimFloat.nan
  | _, S754_infinity _ => x
  | S754_zero _, _ => x
  | S754_finite sx mx ex, S754_finite _ my ey =>
      let e := Z.min ex ey in
      let r := Z.rem (Zpos mx * 2 ^ (ex - e)) (Zpos my * 2 ^ (ey - e)) in
      match r with
      | Zpos p => SF2Prim (S754_finite sx p e)
      | _ => if sx then PrimFloat.neg_zero else PrimFloat.zero
      end
  end.

(** A number inside a template literal.  [None]: the number is not an
    integer below 2^53 in magnitude; its shortest decimal form is not
    rendered here. *)
Definition Number_toString (x : number) : option string :=
  match Prim2SF x with
  | S754_nan => Some "NaN"
  | S754_infinity false => Some "Infinity"
  | S754_infinity true => Some "-Infinity"
  | S754_zero _ => Some "0"
  | S754_finite s m e =>
      if (9007199254740992 <=? PrimFloat.abs x)%float then None
      else if 0 <=? e
           then Some ((if s then "-" else "") ++ digits (Zpos m * 2 ^ e))%string
      else if Zpos m mod 2 ^ (- e) =? 0
           then Some ((if s then "-" else "")
                      ++ digits (Zpos m / 2 ^ (- e)))%string
      else None
  end.

(** A missing field read as a number: [undefined] in arithmetic is NaN. *)
Definition to_number (v : option number) : number :=
  match v with
  | Some x => x
  | None => PrimFloat.nan
  end.

(** Text that may contain a number this development does not render. *)
Definition text := option string.

Definition text_app (a b : text) : text :=
  match a, b with
  | Some s, Some s' => Some (s ++ s')%string
  | _, _ => None
  end.

(** ** Strings

    A [string] is read as a sequence of UTF-16 code units below 256, so
    [String.length] is [.length]. *)

(** White space and line terminators among those code units. *)
Definition is_space (c : ascii) : bool :=
  let n := nat_of_ascii c in
  ((9 <=? n) && (n <=? 13) || (n =? 32) || (n =? 160))%nat.

Fixpoint trimStart (s : string) : string :=
  match s with
  | String c s' => if is_space c then trimStart s' else s
  | EmptyString => EmptyString
  end.

Fixpoint trimEnd (s : string) : string :=
  match s with
  | String c s' =>
      match trimEnd s' with
      | EmptyString => if is_space c then EmptyString else String c EmptyString
      | rest => String c rest
      end
  | EmptyString => EmptyString
  end.

Definition trim (s : string) : string := trimEnd (trimStart s).

End JS.

(* ================================================================== *)
(** * Storage: the preferences kept in [localStorage]                  *)
(* ================================================================== *)

(** A favorite as it is stored: [lat] and [lng] as JSON gives them back,
    [createdAt] as the instant its ISO text denotes. *)
Module Favorite.
Record t := mk
  { id : Z;
    name : string;
    lat : option JS.number;
    lng : option JS.number;
    address : string;
    createdAt : Z }.
End Favorite.

(** A recent search as it is stored. *)
Module Recent.
Record t := mk
  { id : Z;
    name : string;
    lat : option JS.number;
    lng : option JS.number;
    address : string;
    timestamp : Z }.
End Recent.

Module Storage.

(** The argument of [addFavorite] and [addRecentSearch]:
    [{name, lat, lng, address}], the address possibly missing. *)
Record location := mk_location
  { name : string;
    lat : JS.number;
    lng : JS.number;
    address : option string }.

(** What the browser answers during one call: the two clock readings
    ([Date.now()], then [new Date()], both in milliseconds; the ISO text of
    the second is kept as the instant it denotes) and whether
    [localStorage.setItem] accepts the write or throws (quota). *)
Record env := mk_env
  { Date_now : Z;
    new_Date : Z;
    setItem_ok : bool }.

(** The keys of [KEYS] this development reads or writes, each with the
    parsed value stored under it ([None]: the key is absent). *)
Record t := mk
  { mapverse_favorites : option (list Favorite.t);
    mapverse_recent_searches : option (list Recent.t);
    mapverse_travel_mode : option string }.

Definition empty : t := mk None None None.

(** [get(key, defaultValue)]. *)
Definition get {A} (item : option A) (defaultValue : A) : A :=
  match item with
  | Some v => v
  | None => defaultValue
  end.

(** [set(key, value)]: [true] and the store written, or [false] and the
    store as it was when [setItem] throws. *)
Definition set (e : env) (write : t -> t) (ls : t) : bool * t :=
  if setItem_ok e then (true, write ls) else (false, ls).

Definition write_favorites (v : list Favorite.t) (ls : t) : t :=
  mk (Some v) (mapverse_recent_searches ls) (mapverse_travel_mode ls).

Definition write_recent (v : list Recent.t) (ls : t) : t :=
  mk (mapverse_favorites ls) (Some v) (mapverse_travel_mode ls).

Definition write_travel_mode (v : string) (ls : t) : t :=
  mk (mapverse_favorites ls) (mapverse_recent_searches ls) (Some v).

Definition getFavorites (ls : t) : list Favorite.t :=
  get (mapverse_favorites ls) [].

(** The [favorite] object, as [JSON.stringify] then writes it. *)
Definition favorite (e : env) (location : location) : Favorite.t :=
  Favorite.mk (Date_now e) (name location)
    (JS.JSON_number (lat location)) (JS.JSON_number (lng location))
    (JS.or_default (address location) "") (new_Date e).

Definition addFavorite (e : env) (location : location) (ls : t) : bool * t :=
  let favorites := getFavorites ls in
  set e (write_favorites (favorite e location :: favorites)) ls.

Definition removeFavorite (e : env) (id : Z) (ls : t) : bool * t :=
  let favorites := getFavorites ls in
  let updated := List.filter (fun fav => negb (Favorite.id fav =? id)) favorites in
  set e (write_favorites updated) ls.

(** [getRecentSearches(limit = 10)]: [None] is the call without argument. *)
Definition getRecentSearches (limit : option Z) (ls : t) : list Recent.t :=
  let limit := match limit with Some n => n | None => 10 end in
  let recent := get (mapverse_recent_searches ls) [] in
  JS.slice0 recent limit.

(** [item.lat === search.lat && item.lng === search.lng]. *)
Definition same_place (search_lat search_lng : JS.number) (item : Recent.t) : bool :=
  JS.json_strict_eq (Recent.lat item) search_lat
  && JS.json_strict_eq (Recent.lng item) search_lng.

(** The [recentItem] object, as [JSON.stringify] then writes it. *)
Definition recentItem (e : env) (search : location) : Recent.t :=
  Recent.mk (Date_now e) (name search)
    (JS.JSON_number (lat search)) (JS.JSON_number (lng search))
    (JS.or_default (address search) "") (new_Date e).

Definition addRecentSearch (e : env) (search : location) (ls : t) : bool * t :=
  let recent := getRecentSearches (Some 50) ls in
  let recent :=
    List.filter (fun item => negb (same_place (lat search) (lng search) item)) recent in
  let recent := recentItem e search :: recent in
  set e (write_recent (JS.slice0 recent 50)) ls.

Definition clearRecentSearches (e : env) (ls : t) : bool * t :=
  set e (write_recent []) ls.

Definition getTravelMode (ls : t) : string :=
  get (mapverse_travel_mode ls) "driving".

Definition setTravelMode (e : env) (mode : string) (ls : t) : bool * t :=
  set e (write_travel_mode mode) ls.


(** A run of calls, each with the browser's answers for it. *)
Definition addRecentSearches (calls : list (env * location)) (ls : t) : t :=
  fold_left (fun ls c => snd (addRecentSearch (fst c) (snd c) ls)) calls ls.

Definition addFavorites (calls : list (env * location)) (ls : t) : t :=
  fold_left (fun ls c => snd (addFavorite (fst c) (snd c) ls)) calls ls.

(** The recent-searches list as stored (empty when the key is absent). *)
Definition stored_recent (ls : t) : list Recent.t :=
  get (mapverse_recent_searches ls) [].

(** The favorites list as stored. *)
Definition stored_favorites (ls : t) : list Favorite.t :=
  get (mapverse_favorites ls) [].

(** The entries that are not at the place of [search], in stored order. *)
Definition elsewhere (search : location) (l : list Recent.t) : list Recent.t :=
  List.filter (fun item => negb (same_place (lat search) (lng search) item)) l.


(** Every write of the run is accepted. *)
Definition all_accepted (calls : list (env * location)) : bool :=
  forallb (fun c => setItem_ok (fst c)) calls.

(** The readings of [Date.now()] over a run of calls, in call order. *)
Definition clock_readings (calls : list (env * location)) : list Z :=
  map (fun c => Date_now (fst c)) calls.

End Storage.

(** Inputs of the worked examples. *)
Module Examples.
Import Storage.

Definition e1 : env := mk_env 1700000000000 1700000000000 true.
Definition e2 : env := mk_env 1700000060000 1700000060001 true.

(** (lat = 40.0, lng = -74.0) *)
Definition nyc : location := mk_location "New York" 40%float (-74)%float None.
Definition home : location := mk_location "Home" 51.5%float (-0.25)%float (Some "1 Home Road").
Definition work : location := mk_location "Work" 48.5%float 2.25%float None.

(** 51 searches, one per second, at latitudes 0, 1, ..., 50. *)
Definition fifty_one : list (env * location) :=
  map (fun i : Z =>
         (mk_env (1700000000000 + 1000 * i) (1700000000000 + 1000 * i) true,
          mk_location "place" (PrimFloat.of_uint63 (Uint63.of_Z i)) 0%float None))
      (map Z.of_nat (seq 0 51)).

End Examples.

(* ================================================================== *)
(** * The page: what the modules, the DOM and the browser hold         *)
(* ================================================================== *)

(** [{lat, lng}] *)
Module LatLng.
Record t := mk { lat : JS.number; lng : JS.number }.
End LatLng.

(** ** The routing service's answer

    The JSON that [response.json()] yields, as far as the page reads it.
    Any field may be missing ([None]: reading it gives [undefined]). *)

Module Maneuver.
Record t := mk { type : option string; instruction : option string }.
End Maneuver.

Module Step.
Record t := mk { distance : option JS.number; maneuver : option Maneuver.t }.
End Step.

Module Leg.
Record t := mk { steps : option (list Step.t) }.
End Leg.

Module Route.
(** [coordinates] is [geometry.coordinates], pairs [[lng, lat]]; it is
    [None] when [geometry] or its [coordinates] are missing. *)
Record t := mk
  { coordinates : option (list (JS.number * JS.number));
    distance : option JS.number;
    duration : option JS.number;
    legs : option (list Leg.t) }.
End Route.

Module Reply.
(** [status] is a field the page never reads; the routing service does
    not send it, a test double may. *)
Record t := mk
  { code : option string;
    status : option string;
    routes : option (list Route.t) }.
End Reply.

(** How an awaited [fetch(url)] followed by [response.json()] ends:
    either of them rejects, or the body is there. *)
Inductive fetched (A : Type) : Type :=
  | Rejected
  | Body (data : A).
Arguments Rejected {A}.
Arguments Body {A} data.

(** The requests of the routing and of the search box, by the parts of
    the URL that vary: [RouteRequest] is what [Routing.getRoute] fetches,
    [SearchRequest] what [Search.performSearch] fetches.  (The
    nearby-places search and the reverse geocoding fetch URLs of their own;
    they are sent by no event below.) *)
Inductive request : Type :=
  | RouteRequest (profile : string) (startLng startLat endLng endLat : JS.number)
  | SearchRequest (q : string)
      (viewbox : option (JS.number * JS.number * JS.number * JS.number)).

Definition is_route_request (r : request) : bool :=
  match r with RouteRequest _ _ _ _ _ => true | SearchRequest _ _ => false end.

(** ** Module state *)

Module MapModule.
(** What the Leaflet map shows: the last [setView] or [fitBounds]. *)
Inductive view : Type :=
  | SetView (center : JS.number * JS.number) (zoom : Z)
  | FitBounds (path : list (JS.number * JS.number)).

(** [map] is [None] while [this.map] is [null] (Leaflet did not load).
    A marker is held by its position (and popup text), the route polyline
    by its path of [[lat, lng]] pairs. *)
Record t := mk
  { map : option view;
    userMarker : option LatLng.t;
    destinationMarker : option (LatLng.t * string);
    routeLayer : option (list (JS.number * JS.number));
    userLocation : option LatLng.t }.

Definition with_map (v : option view) (m : t) : t :=
  mk v (userMarker m) (destinationMarker m) (routeLayer m) (userLocation m).
Definition with_destinationMarker (d : option (LatLng.t * string)) (m : t) : t :=
  mk (map m) (userMarker m) d (routeLayer m) (userLocation m).
Definition with_routeLayer (r : option (list (JS.number * JS.number))) (m : t) : t :=
  mk (map m) (userMarker m) (destinationMarker m) r (userLocation m).
End MapModule.

Module Routing.
(** [currentRoute] is [{start, end}]. *)
Record endpoints := mk_endpoints { start : LatLng.t; end_ : LatLng.t }.
Record t := mk { currentRoute : option endpoints; travelMode : string }.
End Routing.

Module Search.
(** One place of the geocoder's answer. *)
Record result := mk_result { lat : string; lon : string; display_name : string }.
Record t := mk { searchTimeout : option positive; currentResults : list result }.
End Search.

(** ** The DOM

    The elements the handlers look up ([getElementById]) are taken to be
    in the page. *)
Module Page.
(** The pictographs of the tables [modeIcons] and [icons]; [icon_text]
    and [glyph_text] are any other text that ends up in their place. *)
Inductive mode_icon : Type :=
  | car_icon | walking_icon | cycling_icon | icon_text (s : string).

Inductive glyph : Type :=
  | turn_glyph | right_arrow | rocket | flag | shuffle | up_right
  | down_right | fork_glyph | tee | up_arrow | roundabout_glyph
  | glyph_text (s : string).

(** [#route-summary]: the icon, [.route-distance], [.route-duration]. *)
Record summary := mk_summary
  { icon : mode_icon; route_distance : JS.text; route_duration : JS.text }.

(** One [.turn-instruction] of [#turn-by-turn]. *)
Record instruction := mk_instruction
  { turn_icon : glyph; turn_text : string; turn_distance : JS.text }.

(** [search_results] is the list [#search-results] was last rendered
    from; [active_mode] the [data-mode] of the [.travel-mode-btn] that
    carries the class [active]. *)
Record t := mk
  { directions_panel_hidden : bool;
    travel_mode_container_hidden : bool;
    active_mode : option string;
    route_summary : option summary;
    turn_by_turn : list instruction;
    search_results : option (list Search.result);
    search_results_hidden : bool;
    recent_list : list Recent.t }.

Definition with_panels (directions travel_mode : bool) (p : t) : t :=
  mk directions travel_mode (active_mode p) (route_summary p) (turn_by_turn p)
     (search_results p) (search_results_hidden p) (recent_list p).
Definition with_active_mode (m : option string) (p : t) : t :=
  mk (directions_panel_hidden p) (travel_mode_container_hidden p) m
     (route_summary p) (turn_by_turn p)
     (search_results p) (search_results_hidden p) (recent_list p).
Definition with_route_summary (s : option summary) (p : t) : t :=
  mk (directions_panel_hidden p) (travel_mode_container_hidden p) (active_mode p)
     s (turn_by_turn p)
     (search_results p) (search_results_hidden p) (recent_list p).
Definition with_turn_by_turn (l : list instruction) (p : t) : t :=
  mk (directions_panel_hidden p) (travel_mode_container_hidden p) (active_mode p)
     (route_summary p) l
     (search_results p) (search_results_hidden p) (recent_list p).
Definition with_search_results (r : option (list Search.result)) (p : t) : t :=
  mk (directions_panel_hidden p) (travel_mode_container_hidden p) (active_mode p)
     (route_summary p) (turn_by_turn p)
     r (search_results_hidden p) (recent_list p).
Definition with_search_results_hidden (h : bool) (p : t) : t :=
  mk (directions_panel_hidden p) (travel_mode_container_hidden p) (active_mode p)
     (route_summary p) (turn_by_turn p)
     (search_results p) h (recent_list p).
Definition with_recent_list (l : list Recent.t) (p : t) : t :=
  mk (directions_panel_hidden p) (travel_mode_container_hidden p) (active_mode p)
     (route_summary p) (turn_by_turn p)
     (search_results p) (search_results_hidden p) l.
End Page.

(** ** The browser *)

Inductive toast_type : Type := info | success | error | warning.

(** What a timer of the search box runs when it fires. *)
Inductive task : Type :=
  | PerformSearch (query : string)
  | HideSearchResults.

Module Browser.
(** [now]: milliseconds on the timers' clock.  [timers]: the pending
    timers of the search box by their id (an integer greater than zero),
    each with the time it is due and its task; the timers that fade toasts
    out are left out, they share only the id counter with these.
    [network]: every request sent so far, oldest first; a request is known
    by its position.  [pending]: the requests not settled yet. *)
Record t := mk
  { now : nat;
    next_timer : positive;
    timers : gmap positive (nat * task);
    network : list request;
    pending : gset nat }.
End Browser.

Record world := mk_world
  { storage : Storage.t;
    map_module : MapModule.t;
    routing : Routing.t;
    search : Search.t;
    page : Page.t;
    toasts : list (string * toast_type);
    browser : Browser.t }.

Definition set_storage (f : Storage.t -> Storage.t) (w : world) : world :=
  mk_world (f (storage w)) (map_module w) (routing w) (search w) (page w)
           (toasts w) (browser w).
Definition set_map_module (f : MapModule.t -> MapModule.t) (w : world) : world :=
  mk_world (storage w) (f (map_module w)) (routing w) (search w) (page w)
           (toasts w) (browser w).
Definition set_routing (f : Routing.t -> Routing.t) (w : world) : world :=
  mk_world (storage w) (map_module w) (f (routing w)) (search w) (page w)
           (toasts w) (browser w).
Definition set_search (f : Search.t -> Search.t) (w : world) : world :=
  mk_world (storage w) (map_module w) (routing w) (f (search w)) (page w)
           (toasts w) (browser w).
Definition set_page (f : Page.t -> Page.t) (w : world) : world :=
  mk_world (storage w) (map_module w) (routing w) (search w) (f (page w))
           (toasts w) (browser w).
Definition set_toasts (f : list (string * toast_type) -> list (string * toast_type))
  (w : world) : world :=
  mk_world (storage w) (map_module w) (routing w) (search w) (page w)
           (f (toasts w)) (browser w).
Definition set_browser (f : Browser.t -> Browser.t) (w : world) : world :=
  mk_world (storage w) (map_module w) (routing w) (search w) (page w)
           (toasts w) (f (browser w)).

(** ** Statements

    A statement ends normally or throws; what it did to the page before
    throwing stays done. *)

Inductive completion : Type := Normal | Thrown.

Definition action : Type := world -> completion * world.

Definition skip : action := fun w => (Normal, w).
Definition throw : action := fun w => (Thrown, w).
Definition modify (f : world -> world) : action := fun w => (Normal, f w).

Definition seq (a b : action) : action :=
  fun w =>
    match a w with
    | (Normal, w') => b w'
    | (Thrown, w') => (Thrown, w')
    end.

(** [try { body } catch (error) { handler }] *)
Definition try_catch (body handler : action) : action :=
  fun w =>
    match body w with
    | (Normal, w') => (Normal, w')
    | (Thrown, w') => handler w'
    end.

Declare Scope action_scope.
Delimit Scope action_scope with action.
Bind Scope action_scope with action.
Notation "a ;; b" := (seq a b) (at level 100, b at level 200, right associativity)
  : action_scope.
Local Open Scope action_scope.

(** [fetch(url)]: the request leaves, and is awaited. *)
Definition fetch (r : request) : action :=
  modify (set_browser (fun b =>
    Browser.mk (Browser.now b) (Browser.next_timer b) (Browser.timers b)
      (Browser.network b ++ [r])
      ({[ length (Browser.network b) ]} ∪ Browser.pending b))).

(** [setTimeout(task, delay)], giving the timer's id. *)
Definition setTimeout (t : task) (delay : nat) (w : world) : positive * world :=
  let b := browser w in
  let id := Browser.next_timer b in
  (id, set_browser (fun b =>
         Browser.mk (Browser.now b) (Pos.succ (Browser.next_timer b))
           (<[ id := ((Browser.now b + delay)%nat, t) ]> (Browser.timers b))
           (Browser.network b) (Browser.pending b)) w).

(** [clearTimeout(id)] *)
Definition clearTimeout (id : positive) : action :=
  modify (set_browser (fun b =>
    Browser.mk (Browser.now b) (Browser.next_timer b)
      (delete id (Browser.timers b))
      (Browser.network b) (Browser.pending b))).

(** [UI.showToast(message, type)]: the toast put on the page.  The
    pictograph that opens each message is left out, and so is the timer
    that takes the toast off the page again: [toasts] is what was shown,
    oldest first. *)
Definition UI_showToast (message : string) (type : toast_type) : action :=
  modify (set_toasts (fun l => l ++ [(message, type)])).

(* ================================================================== *)
(** * MapModule                                                        *)
(* ================================================================== *)

(** A call on [this.map] throws while the map is [null]. *)
Definition on_map (a : action) : action :=
  fun w =>
    match MapModule.map (map_module w) with
    | None => (Thrown, w)
    | Some _ => a w
    end.

(** The bounds of a path can be fitted: the path has a point, and every
    coordinate of it is finite. *)
Definition fits (coordinates : list (JS.number * JS.number)) : bool :=
  match coordinates with
  | [] => false
  | _ => forallb (fun coord => PrimFloat.is_finite (fst coord)
                               && PrimFloat.is_finite (snd coord)) coordinates
  end.

(** [MapModule.drawRoute(coordinates)].  The coordinates are numbers as
    JSON has them, so none is NaN, and Leaflet makes a polyline of them.
    Its [fitBounds] throws, the polyline being assigned already, on
    bounds that are not valid, which are those of the empty path, and when
    the view cannot be moved to them, which is the case of bounds that are
    not finite. *)
Definition MapModule_drawRoute (coordinates : list (JS.number * JS.number)) : action :=
  (fun w =>
     match MapModule.routeLayer (map_module w) with
     | Some _ => on_map skip w
     | None => skip w
     end) ;;
  on_map (modify (set_map_module (MapModule.with_routeLayer (Some coordinates)))) ;;
  on_map
    (if fits coordinates
     then modify (set_map_module
                    (MapModule.with_map (Some (MapModule.FitBounds coordinates))))
     else throw).

(** [MapModule.clearRoute()] *)
Definition MapModule_clearRoute : action :=
  (fun w =>
     match MapModule.routeLayer (map_module w) with
     | Some _ =>
         on_map (modify (set_map_module (MapModule.with_routeLayer None))) w
     | None => skip w
     end) ;;
  (fun w =>
     match MapModule.destinationMarker (map_module w) with
     | Some _ =>
         on_map (modify (set_map_module (MapModule.with_destinationMarker None))) w
     | None => skip w
     end).

(** ** Distances

    ECMAScript fixes [Math.PI] (the double closest to pi) but leaves the
    values of [Math.sin], [Math.cos], [Math.atan2] and [Math.sqrt] to the
    implementation; they are what the distance is stated over. *)
Definition Math_PI : JS.number := 0x1.921fb54442d18p+1%float.

Section distance.
Variables (Math_sin Math_cos Math_sqrt : JS.number -> JS.number)
          (Math_atan2 : JS.number -> JS.number -> JS.number).

(** [MapModule.calculateDistance(lat1, lng1, lat2, lng2)] *)
Definition MapModule_calculateDistance (lat1 lng1 lat2 lng2 : JS.number) : JS.text :=
  let R := 6371%float in
  let dLat := ((lat2 - lat1) * Math_PI / 180)%float in
  let dLng := ((lng2 - lng1) * Math_PI / 180)%float in
  let a := (Math_sin (dLat / 2) * Math_sin (dLat / 2) +
            Math_cos (lat1 * Math_PI / 180) * Math_cos (lat2 * Math_PI / 180) *
            Math_sin (dLng / 2) * Math_sin (dLng / 2))%float in
  let c := (2 * Math_atan2 (Math_sqrt a) (Math_sqrt (1 - a)))%float in
  let distance := (R * c)%float in
  if (distance <? 1)%float
  then JS.text_app (JS.toFixed (distance * 1000)%float 0) (Some " m away")
  else JS.text_app (JS.toFixed distance 1) (Some " km away").

(** The haversine distance in the words of the specification: the angles
    in radians, [a = sin^2 (dlat / 2) + cos lat1 * cos lat2 * sin^2 (dlng / 2)],
    [c = 2 * atan2 (sqrt a, sqrt (1 - a))] and the distance [R * c] with
    [R] = 6371 km.  The operations are those of doubles, a square being
    the product it is computed as and a product running from the left. *)
Definition radians (degrees : JS.number) : JS.number :=
  (degrees * Math_PI / 180)%float.

Definition haversine (lat1 lng1 lat2 lng2 : JS.number) : JS.number :=
  let dlat := radians (lat2 - lat1)%float in
  let dlng := radians (lng2 - lng1)%float in
  let a := (Math_sin (dlat / 2) * Math_sin (dlat / 2)
            + Math_cos (radians lat1) * Math_cos (radians lat2)
              * Math_sin (dlng / 2) * Math_sin (dlng / 2))%float in
  let c := (2 * Math_atan2 (Math_sqrt a) (Math_sqrt (1 - a)))%float in
  (6371 * c)%float.

End distance.

(* ================================================================== *)
(** * Routing                                                          *)
(* ================================================================== *)

(** [profiles[mode]] for the table [profiles] of [getRoute]: its three
    members, or what the table inherits under that name. *)
Definition profiles (mode : string) : option string :=
  if String.eqb mode "driving" then Some "car"
  else if String.eqb mode "walking" then Some "foot"
  else if String.eqb mode "cycling" then Some "bike"
  else JS.Object_prototype mode.

(** [modeIcons[mode]] for the table [modeIcons] of [displayRouteSummary]. *)
Definition modeIcons (mode : string) : option Page.mode_icon :=
  if String.eqb mode "driving" then Some Page.car_icon
  else if String.eqb mode "walking" then Some Page.walking_icon
  else if String.eqb mode "cycling" then Some Page.cycling_icon
  else option_map Page.icon_text (JS.Object_prototype mode).

(** [Routing.getInstructionIcon(type)] *)
Definition Routing_getInstructionIcon (type : option string) : Page.glyph :=
  match type with
  | None => Page.right_arrow
  | Some t =>
      if String.eqb t "turn" then Page.turn_glyph
      else if String.eqb t "new name" then Page.right_arrow
      else if String.eqb t "depart" then Page.rocket
      else if String.eqb t "arrive" then Page.flag
      else if String.eqb t "merge" then Page.shuffle
      else if String.eqb t "on ramp" then Page.up_right
      else if String.eqb t "off ramp" then Page.down_right
      else if String.eqb t "fork" then Page.fork_glyph
      else if String.eqb t "end of road" then Page.tee
      else if String.eqb t "continue" then Page.up_arrow
      else if String.eqb t "roundabout" then Page.roundabout_glyph
      else if String.eqb t "rotary" then Page.roundabout_glyph
      else if String.eqb t "roundabout turn" then Page.roundabout_glyph
      else match JS.Object_prototype t with
           | Some inherited => Page.glyph_text inherited
           | None => Page.right_arrow
           end
  end.

(** [Routing.getRoute(startLat, startLng, endLat, endLng)] up to its
    [await fetch(url)]. *)
Definition Routing_getRoute (startLat startLng endLat endLng : JS.number) : action :=
  UI_showToast "Calculating route..." info ;;
  modify (set_routing (fun r =>
    Routing.mk
      (Some (Routing.mk_endpoints (LatLng.mk startLat startLng)
                                  (LatLng.mk endLat endLng)))
      (Routing.travelMode r))) ;;
  (fun w =>
     let profile :=
       match profiles (Routing.travelMode (routing w)) with
       | Some p => p
       | None => "car"
       end in
     fetch (RouteRequest profile startLng startLat endLng endLat) w).

(** [Routing.displayRouteSummary(distance, duration)] *)
Definition Routing_displayRouteSummary (distance : JS.text) (duration : JS.number) : action :=
  fun w =>
    let hours := JS.Math_floor (duration / 60)%float in
    let minutes := JS.remainder duration 60%float in
    let durationText :=
      if (0 <? hours)%float
      then JS.text_app (JS.Number_toString hours)
             (JS.text_app (Some "h ")
                (JS.text_app (JS.Number_toString minutes) (Some "min")))
      else JS.text_app (JS.Number_toString minutes) (Some " min") in
    let icon :=
      match modeIcons (Routing.travelMode (routing w)) with
      | Some i => i
      | None => Page.car_icon
      end in
    modify (set_page (Page.with_route_summary
      (Some (Page.mk_summary icon
               (JS.text_app distance (Some " km")) durationText)))) w.

(** One element of [steps.map(...)] in [displayTurnByTurn]; [None] when
    reading [step.maneuver.type] throws. *)
Definition turn_instruction (step : Step.t) : option Page.instruction :=
  let distance :=
    if (JS.to_number (Step.distance step) <? 1000)%float
    then JS.text_app
           (JS.Number_toString (JS.Math_round (JS.to_number (Step.distance step))))
           (Some " m")
    else JS.text_app
           (JS.toFixed (JS.to_number (Step.distance step) / 1000)%float 1)
           (Some " km") in
  match Step.maneuver step with
  | None => None
  | Some m =>
      Some (Page.mk_instruction
              (Routing_getInstructionIcon (Maneuver.type m))
              (JS.or_default (Maneuver.instruction m) "Continue")
              distance)
  end.

Fixpoint turn_instructions (steps : list Step.t) : option (list Page.instruction) :=
  match steps with
  | [] => Some []
  | step :: rest =>
      match turn_instruction step with
      | None => None
      | Some i =>
          match turn_instructions rest with
          | None => None
          | Some l => Some (i :: l)
          end
      end
  end.

(** [Routing.displayTurnByTurn(steps)] *)
Definition Routing_displayTurnByTurn (steps : option (list Step.t)) : action :=
  match steps with
  | None => throw
  | Some steps =>
      match turn_instructions steps with
      | None => throw
      | Some l => modify (set_page (Page.with_turn_by_turn l))
      end
  end.

(** [route.legs[0].steps], evaluated: [None] when it throws. *)
Definition first_leg_steps (route : Route.t) : option (option (list Step.t)) :=
  match Route.legs route with
  | Some (leg :: _) => Some (Leg.steps leg)
  | _ => None
  end.

(** [Routing.displayRoute(route)] *)
Definition Routing_displayRoute (route : Route.t) : action :=
  match Route.coordinates route with
  | None => throw
  | Some coords =>
      let coordinates := map (fun coord => (snd coord, fst coord)) coords in
      MapModule_drawRoute coordinates ;;
      let distance := JS.toFixed (JS.to_number (Route.distance route) / 1000)%float 1 in
      let duration := JS.Math_ceil (JS.to_number (Route.duration route) / 60)%float in
      Routing_displayRouteSummary distance duration ;;
      match first_leg_steps route with
      | None => throw
      | Some steps => Routing_displayTurnByTurn steps
      end ;;
      modify (set_page (fun p =>
        Page.with_panels false (Page.travel_mode_container_hidden p) p)) ;;
      UI_showToast "Route calculated" success
  end.

(** [data.code !== 'Ok' || !data.routes || data.routes.length === 0] *)
Definition no_route_found (data : Reply.t) : bool :=
  negb (match Reply.code data with
        | Some c => String.eqb c "Ok"
        | None => false
        end)
  || match Reply.routes data with
     | None => true
     | Some [] => true
     | Some (_ :: _) => false
     end.

(** [Routing.getRoute] from its [await] on: the rest of the [try] block
    and the [catch]. *)
Definition Routing_getRoute_settled (reply : fetched Reply.t) : action :=
  try_catch
    (match reply with
     | Rejected => throw
     | Body data =>
         if no_route_found data then throw
         else
           match Reply.routes data with
           | Some (route :: _) => Routing_displayRoute route
           | _ => throw
           end
     end)
    (UI_showToast "Failed to calculate route" error).

(** The click listener that [setupTravelModeButtons] gives the button whose
    [data-mode] is [mode]: the specification's [changeTravelMode(mode)]. *)
Definition Routing_changeTravelMode (e : Storage.env) (mode : string) : action :=
  modify (set_page (Page.with_active_mode (Some mode))) ;;
  modify (set_routing (fun r => Routing.mk (Routing.currentRoute r) mode)) ;;
  (fun w =>
     modify (set_storage (fun ls =>
       snd (Storage.setTravelMode e (Routing.travelMode (routing w)) ls))) w) ;;
  (fun w =>
     match Routing.currentRoute (routing w) with
     | Some r =>
         Routing_getRoute
           (LatLng.lat (Routing.start r)) (LatLng.lng (Routing.start r))
           (LatLng.lat (Routing.end_ r)) (LatLng.lng (Routing.end_ r)) w
     | None => skip w
     end).

(** [Routing.clearRoute()] *)
Definition Routing_clearRoute : action :=
  modify (set_routing (fun r => Routing.mk None (Routing.travelMode r))) ;;
  MapModule_clearRoute ;;
  modify (set_page (Page.with_panels true true)).

(** [MapModule.setDestination(lat, lng, name = 'Destination')].  Leaflet's
    [L.marker] throws on a coordinate that is NaN ("Invalid LatLng
    object"), before the marker is assigned. *)
Definition MapModule_setDestination (lat lng : JS.number) (name : option string) : action :=
  let name := match name with Some n => n | None => "Destination" end in
  on_map
    (if PrimFloat.is_nan lat || PrimFloat.is_nan lng
     then throw
     else modify (set_map_module
                    (MapModule.with_destinationMarker (Some (LatLng.mk lat lng, name))))) ;;
  (fun w =>
     match MapModule.userLocation (map_module w) with
     | Some u => Routing_getRoute (LatLng.lat u) (LatLng.lng u) lat lng w
     | None => skip w
     end) ;;
  UI_showToast "Destination set" success.

(* ================================================================== *)
(** * Search                                                           *)
(* ================================================================== *)

Definition Search_showSearchResults : action :=
  modify (set_page (Page.with_search_results_hidden false)).

Definition Search_hideSearchResults : action :=
  modify (set_page (Page.with_search_results_hidden true)).

(** [Search.displaySearchResults(results)] *)
Definition Search_displaySearchResults (results : list Search.result) : action :=
  modify (set_page (Page.with_search_results (Some results))) ;;
  Search_showSearchResults.

(** [Search.performSearch(query)] up to its [await fetch(url)]. *)
Definition Search_performSearch (query : string) : action :=
  fun w =>
    let viewbox :=
      match MapModule.userLocation (map_module w) with
      | Some userLoc =>
          Some (LatLng.lng userLoc - 0.5, LatLng.lat userLoc - 0.5,
                LatLng.lng userLoc + 0.5, LatLng.lat userLoc + 0.5)%float
      | None => None
      end in
    fetch (SearchRequest query viewbox) w.

(** [Search.performSearch] from its [await] on. *)
Definition Search_performSearch_settled (reply : fetched (list Search.result)) : action :=
  try_catch
    (match reply with
     | Rejected => throw
     | Body data =>
         modify (set_search (fun s => Search.mk (Search.searchTimeout s) data)) ;;
         Search_displaySearchResults data
     end)
    Search_hideSearchResults.

(** The [input] listener of [#search-input]; [value] is [e.target.value]. *)
Definition Search_onInput (value : string) : action :=
  let query := JS.trim value in
  (fun w =>
     match Search.searchTimeout (search w) with
     | Some id => clearTimeout id w
     | None => skip w
     end) ;;
  if (String.length query <? 3)%nat
  then Search_hideSearchResults
  else
    fun w =>
      let (id, w') := setTimeout (PerformSearch query) 300 w in
      modify (set_search (fun s => Search.mk (Some id) (Search.currentResults s))) w'.

(** The [blur] listener. *)
Definition Search_onBlur : action :=
  fun w => (Normal, snd (setTimeout HideSearchResults 200 w)).

(** The [focus] listener. *)
Definition Search_onFocus : action :=
  fun w =>
    match Search.currentResults (search w) with
    | [] => skip w
    | _ :: _ => Search_showSearchResults w
    end.

(** [Search.updateRecentList()], as far as [UI.updateRecentList(recent)]. *)
Definition Search_updateRecentList : action :=
  fun w =>
    let recent := Storage.getRecentSearches None (storage w) in
    modify (set_page (Page.with_recent_list recent)) w.

(* ================================================================== *)
(** * The event loop                                                   *)
(* ================================================================== *)

(** What the browser can deliver to the search box, the routing and the
    travel-mode buttons.  [Input] is every [input] event of the box, typed
    or dispatched (the voice search dispatches one); [SetDestination] is
    every call of [MapModule.setDestination], whatever was tapped.  The
    geolocation, the nearby-places search and the other panels of the page
    are not among the events. *)
Inductive event : Type :=
  | Elapse (ms : nat)
  | Input (value : string)
  | Blur
  | Focus
  | Timeout (id : positive)
  | SearchSettled (id : nat) (reply : fetched (list Search.result))
  | RouteSettled (id : nat) (reply : fetched Reply.t)
  | TravelModeClick (e : Storage.env) (mode : string)
  | SetDestination (lat lng : JS.number) (name : option string)
  | ClearRoute.

Definition run_task (t : task) : action :=
  match t with
  | PerformSearch query => Search_performSearch query
  | HideSearchResults => Search_hideSearchResults
  end.

(** The request [id] stops being awaited. *)
Definition settle (id : nat) (w : world) : world :=
  set_browser (fun b =>
    Browser.mk (Browser.now b) (Browser.next_timer b) (Browser.timers b)
      (Browser.network b) (Browser.pending b ∖ {[ id ]})) w.

Definition awaited (id : nat) (w : world) : option request :=
  if decide (id ∈ Browser.pending (browser w))
  then Browser.network (browser w) !! id
  else None.

(** One turn of the event loop.  [None]: the browser cannot deliver the
    event in this state (a timer that is not due, a request that is not
    awaited).  An exception that leaves a listener ends the turn. *)
Definition step (ev : event) (w : world) : option world :=
  match ev with
  | Elapse ms =>
      Some (set_browser (fun b =>
        Browser.mk (Browser.now b + ms)%nat (Browser.next_timer b)
          (Browser.timers b) (Browser.network b) (Browser.pending b)) w)
  | Input value => Some (snd (Search_onInput value w))
  | Blur => Some (snd (Search_onBlur w))
  | Focus => Some (snd (Search_onFocus w))
  | Timeout id =>
      match Browser.timers (browser w) !! id with
      | Some (due, t) =>
          if (due <=? Browser.now (browser w))%nat
          then Some (snd ((clearTimeout id ;; run_task t) w))
          else None
      | None => None
      end
  | SearchSettled id reply =>
      match awaited id w with
      | Some (SearchRequest _ _) =>
          Some (snd (Search_performSearch_settled reply (settle id w)))
      | _ => None
      end
  | RouteSettled id reply =>
      match awaited id w with
      | Some (RouteRequest _ _ _ _ _) =>
          Some (snd (Routing_getRoute_settled reply (settle id w)))
      | _ => None
      end
  | TravelModeClick e mode => Some (snd (Routing_changeTravelMode e mode w))
  | SetDestination lat lng name => Some (snd (MapModule_setDestination lat lng name w))
  | ClearRoute => Some (snd (Routing_clearRoute w))
  end.

Fixpoint run (evs : list event) (w : world) : option world :=
  match evs with
  | [] => Some w
  | ev :: rest =>
      match step ev w with
      | Some w' => run rest w'
      | None => None
      end
  end.

(** The page once the modules are set up: nothing searched, no route
    stored, the stored travel mode in force, no timer, nothing sent.  What
    the map holds ([m]) and how the page looks ([p]) are left open. *)
Definition init (ls : Storage.t) (m : MapModule.t) (p : Page.t) : world :=
  mk_world ls m
    (Routing.mk None (Storage.getTravelMode ls))
    (Search.mk None [])
    p
    []
    (Browser.mk 0 1%positive ∅ [] ∅).

(* ================================================================== *)
(** * Vocabulary of the properties                                     *)
(* ================================================================== *)

(** The upstream result of a route computation is a failure: the network
    call errors, the answer's code is not "Ok", or it carries no route. *)
Definition upstream_failure (reply : fetched Reply.t) : Prop :=
  match reply with
  | Rejected => True
  | Body data =>
      Reply.code data <> Some "Ok"
      \/ Reply.routes data = None
      \/ Reply.routes data = Some []
  end.

(** No route and no destination are active. *)
Definition nothing_to_clear (w : world) : Prop :=
  Routing.currentRoute (routing w) = None
  /\ MapModule.routeLayer (map_module w) = None
  /\ MapModule.destinationMarker (map_module w) = None.

(** A layer is held only while there is a map to hold it. *)
Definition layers_on_map (w : world) : Prop :=
  MapModule.map (map_module w) = None ->
  MapModule.routeLayer (map_module w) = None
  /\ MapModule.destinationMarker (map_module w) = None.

(** What the search box rests on is the same in [w'] as in [w], up to
    route requests sent in between, and the map is not lost: the relation
    between the page before and after a statement of the map and routing
    modules. *)
Record search_side_kept (w w' : world) : Prop := mk_search_side_kept
  { kept_search : search w' = search w;
    kept_now : Browser.now (browser w') = Browser.now (browser w);
    kept_next_timer : Browser.next_timer (browser w') = Browser.next_timer (browser w);
    kept_timers : Browser.timers (browser w') = Browser.timers (browser w);
    kept_network :
      exists sent,
        Browser.network (browser w') = Browser.network (browser w) ++ sent
        /\ forallb is_route_request sent = true;
    kept_results :
      Page.search_results (page w') = Page.search_results (page w);
    kept_results_hidden :
      Page.search_results_hidden (page w') = Page.search_results_hidden (page w);
    kept_no_map :
      MapModule.map (map_module w) = None -> map_module w' = map_module w;
    kept_map :
      MapModule.map (map_module w') = None -> MapModule.map (map_module w) = None }.

Definition route_side (a : action) : Prop :=
  forall w, search_side_kept w (snd (a w)).

(** The timer table holds a search of [q] due at [due] under [id]. *)
Definition search_timer (w : world) (id : positive) (due : nat) (q : string) : Prop :=
  Browser.timers (browser w) !! id = Some (due, PerformSearch q).

(** Every pending search timer is the one [searchTimeout] names. *)
Definition search_timer_tracked (w : world) : Prop :=
  forall id due q,
    search_timer w id due q -> Search.searchTimeout (search w) = Some id.

(** The results list, stored and rendered. *)
Definition results (w : world) : list Search.result * option (list Search.result) :=
  (Search.currentResults (search w), Page.search_results (page w)).

(** The search requests among [l], by their query. *)
Definition search_queries (l : list request) : list string :=
  omap (fun r => match r with
                 | SearchRequest q _ => Some q
                 | RouteRequest _ _ _ _ _ => None
                 end) l.

(** What one event other than typing can do to the search box. *)
Inductive search_effect (w w' : world) (ev : event) : Prop :=
  | nothing_sent
      (Hqueries : search_queries (Browser.network (browser w'))
                  = search_queries (Browser.network (browser w)))
      (Hresults :
         results w' = results w
         \/ exists id q vb data,
              ev = SearchSettled id (Body data)
              /\ Browser.network (browser w) !! id = Some (SearchRequest q vb)
              /\ results w' = (data, Some data))
  | search_sent (id : positive) (due : nat) (q : string) vb
      (Htimer : search_timer w id due q)
      (Hdue : (due <= Browser.now (browser w))%nat)
      (Hnetwork : Browser.network (browser w')
                  = Browser.network (browser w) ++ [SearchRequest q vb])
      (Hnone : forall id' due' q', ~ search_timer w' id' due' q')
      (Hresults : results w' = results w).

(** The state of the box once [q] is the only search that may still
    leave: it has not left, or it has and no search is pending. *)
Definition one_query (q : string) (w : world) : Prop :=
  search_timer_tracked w
  /\ (forall id due q', search_timer w id due q' -> q' = q)
  /\ (search_queries (Browser.network (browser w)) = []
      \/ search_queries (Browser.network (browser w)) = [q]
         /\ forall id due q', ~ search_timer w id due q').

(** The states the page reaches from its start, over any run of events. *)
Definition reachable (w : world) : Prop :=
  exists ls m p es,
    (MapModule.map m = None ->
     MapModule.routeLayer m = None /\ MapModule.destinationMarker m = None)
    /\ run es (init ls m p) = Some w.

Definition is_input (ev : event) : bool :=
  match ev with Input _ => true | _ => false end.

(** The time that passes over a run of events. *)
Definition elapsed (evs : list event) : nat :=
  fold_right (fun ev t => match ev with Elapse ms => (ms + t)%nat | _ => t end) 0%nat evs.

Module Scenario.

(** A page with Leaflet loaded, the user at (51.5007, -0.1246), the
    default travel mode, no destination yet. *)
Definition located : world :=
  init Storage.empty
    (MapModule.mk (Some (MapModule.SetView (51.5007, -0.1246)%float 15))
       (Some (LatLng.mk 51.5007 (-0.1246))%float) None None
       (Some (LatLng.mk 51.5007 (-0.1246))%float))
    (Page.mk true false (Some "driving") None [] None true []).

Definition a_step : Step.t :=
  Step.mk (Some 1000%float)
    (Some (Maneuver.mk (Some "depart") (Some "Head north"))).


(** The same route as the routing service words it:
    [{code:"Ok", routes:[{geometry:{coordinates}, distance:1000,
      duration:120, legs:[{steps}]}]}] *)
Definition osrm_reply (coordinates : list (JS.number * JS.number))
  (steps : list Step.t) : Reply.t :=
  Reply.mk (Some "Ok") None
    (Some [Route.mk (Some coordinates) (Some 1000%float) (Some 120%float)
             (Some [Leg.mk (Some steps)])]).

Definition a_path : list (JS.number * JS.number) :=
  [(-0.1246, 51.5007); (-0.1260, 51.5040); (-0.1278, 51.5074)]%float.

(** The destination is set and the route arrives. *)
Definition routed : option world :=
  run [SetDestination 51.5074 (-0.1278) (Some "London");
       RouteSettled 0 (Body (osrm_reply a_path [a_step]))]%float located.

(** A route from A to B is stored and drawn. *)
Definition with_route : world :=
  set_routing (fun r =>
      Routing.mk (Some (Routing.mk_endpoints (LatLng.mk 51.5007 (-0.1246))
                                             (LatLng.mk 51.5074 (-0.1278)))%float)
                 (Routing.travelMode r))
    (set_map_module (fun m =>
       MapModule.with_routeLayer (Some [(51.5007, -0.1246); (51.5074, -0.1278)]%float)
         (MapModule.with_destinationMarker
            (Some (LatLng.mk 51.5074%float (-0.1278)%float, "London")) m))
       located).

(** The page with nothing on the map yet, and what the geocoder may
    answer. *)
Definition fresh : world :=
  init Storage.empty
    (MapModule.mk (Some (MapModule.SetView (40.7128, -74.0060)%float 13))
       None None None None)
    (Page.mk true true (Some "driving") None [] None true []).

Definition central_results : list Search.result :=
  [Search.mk_result "51.5142" "-0.1494" "Central London, London, England"].

Definition park_results : list Search.result :=
  [Search.mk_result "40.7829" "-73.9654" "Central Park, New York, USA"].

(** "Central" is searched; 100 ms after that request has left, the box
    reads "Central Park", which is searched in turn; the second answer
    comes first, the first one last. *)
Definition late_answer : list event :=
  [Input "Central"; Elapse 300; Timeout 1%positive;
   Elapse 100; Input "Central Park"; Elapse 300; Timeout 2%positive;
   SearchSettled 1 (Body park_results);
   SearchSettled 0 (Body central_results)].

(** "Central" is searched and answered; the box is then emptied down to
    "Ce", left and entered again. *)
Definition short_then_focus : list event :=
  [Input "Central"; Elapse 300; Timeout 1%positive;
   SearchSettled 0 (Body central_results);
   Input "Ce"; Focus].

End Scenario.

(* ================================================================== *)
(** * Further operations and vocabulary                                *)
(* ================================================================== *)

(** No older entry is at the place of [newer] (an entry whose stored
    coordinate is [null] is at no place). *)
Definition newer_elsewhere (newer older : Recent.t) : Prop :=
  match Recent.lat newer, Recent.lng newer with
  | Some x, Some y => Storage.same_place x y older = false
  | _, _ => True
  end.

(** No two entries of the list are at the same place. *)
Definition places_distinct (l : list Recent.t) : Prop :=
  ForallOrdPairs newer_elsewhere l.

(** The calls of a run whose write is accepted. *)
Definition accepted_calls (calls : list (Storage.env * Storage.location))
  : list (Storage.env * Storage.location) :=
  List.filter (fun c => Storage.setItem_ok (fst c)) calls.

(** The turn list [displayRoute] renders for a route: [None] when
    reading [route.legs[0].steps] throws, the steps are missing, or one of
    them has no maneuver. *)
Definition usable_steps (route : Route.t) : option (list Page.instruction) :=
  match first_leg_steps route with
  | Some (Some steps) => turn_instructions steps
  | _ => None
  end.

(** The path drawn for the coordinates of a route: each [[lng, lat]] pair
    turned into [[lat, lng]]. *)
Definition drawn_path (coords : list (JS.number * JS.number))
  : list (JS.number * JS.number) :=
  map (fun coord => (snd coord, fst coord)) coords.

(** A statement that only draws and describes: between [w] and [w'] the
    storage, the routing state, the search state, the browser (clock,
    timers, requests), the user's location and marker and the destination
    marker are the same. *)
Record display_only (w w' : world) : Prop := mk_display_only
  { shown_storage : storage w' = storage w;
    shown_routing : routing w' = routing w;
    shown_search : search w' = search w;
    shown_browser : browser w' = browser w;
    shown_userLocation :
      MapModule.userLocation (map_module w') = MapModule.userLocation (map_module w);
    shown_userMarker :
      MapModule.userMarker (map_module w') = MapModule.userMarker (map_module w);
    shown_destinationMarker :
      MapModule.destinationMarker (map_module w')
      = MapModule.destinationMarker (map_module w) }.

Definition displays (a : action) : Prop :=
  forall w, display_only w (snd (a w)).

(** The mode is no name that an object literal inherits from
    [Object.prototype]. *)
Definition plain_mode (mode : string) : bool :=
  match JS.Object_prototype mode with
  | Some _ => false
  | None => true
  end.

(** Every travel mode clicked over the run is a plain one. *)
Definition plain_modes (es : list event) : bool :=
  forallb (fun ev => match ev with
                     | TravelModeClick _ mode => plain_mode mode
                     | _ => true
                     end) es.

(** The profiles the routing service is asked for. *)
Definition known_profile (r : request) : bool :=
  match r with
  | RouteRequest profile _ _ _ _ =>
      String.eqb profile "car" || String.eqb profile "foot" || String.eqb profile "bike"
  | SearchRequest _ _ => true
  end.

(** The query [q] was typed: some [input] event of the run read [q] once
    trimmed, and [q] has three characters or more. *)
Definition typed (es : list event) (q : string) : Prop :=
  exists value,
    In (Input value) es /\ q = JS.trim value /\ (3 <= String.length q)%nat.

(** The ids of the timers that are set were all given out before the next
    one. *)
Definition timers_fresh (w : world) : Prop :=
  forall id entry,
    Browser.timers (browser w) !! id = Some entry ->
    (id < Browser.next_timer (browser w))%positive.

(** The [viewbox] that [performSearch] asks for: half a degree around the
    user's location, when it is known. *)
Definition viewbox_around (u : option LatLng.t)
  : option (JS.number * JS.number * JS.number * JS.number) :=
  option_map (fun userLoc =>
      (LatLng.lng userLoc - 0.5, LatLng.lat userLoc - 0.5,
       LatLng.lng userLoc + 0.5, LatLng.lat userLoc + 0.5)%float) u.

(** [s.split(',')[0]]: the text before the first comma. *)
Fixpoint split_comma_first (s : string) : string :=
  match s with
  | EmptyString => EmptyString
  | String c rest =>
      if Ascii.eqb c "," then EmptyString else String c (split_comma_first rest)
  end.

Fixpoint has_comma (s : string) : bool :=
  match s with
  | EmptyString => false
  | String c rest => Ascii.eqb c "," || has_comma rest
  end.

(** [Search.reverseGeocode(lat, lng)] from its [await fetch(url)] on: the
    address it returns.  The body is given by its [display_name] ([None]:
    the field is missing). *)
Definition Search_reverseGeocode_settled (reply : fetched (option string)) : string :=
  match reply with
  | Rejected => "Unknown location"
  | Body display_name => JS.or_default display_name "Unknown location"
  end.

(** [Search.addCurrentLocationAsFavorite()] from its
    [await this.reverseGeocode(lat, lng)] on; [lat] and [lng] are those of
    the centre of the map, read before.  The favorites list it renders
    next is no part of the page as described here. *)
Definition Search_addCurrentLocationAsFavorite_settled (e : Storage.env)
  (lat lng : JS.number) (address : string) : action :=
  let name := JS.or_default (Some (split_comma_first address)) "Saved Location" in
  modify (set_storage (fun ls =>
    snd (Storage.addFavorite e (Storage.mk_location name lat lng (Some address)) ls))) ;;
  UI_showToast "Added to favorites" success.

(** [Search.clearRecentSearches()] *)
Definition Search_clearRecentSearches (e : Storage.env) : action :=
  modify (set_storage (fun ls => snd (Storage.clearRecentSearches e ls))) ;;
  Search_updateRecentList ;;
  UI_showToast "Recent searches cleared" success.

(** The answer [data] carries a route to draw: its code is "Ok" and its
    first route has the path [c :: cs] (pairs [[lng, lat]]). *)
Definition route_to_draw (data : Reply.t) (c : JS.number * JS.number)
  (cs : list (JS.number * JS.number)) : Prop :=
  exists route rest,
    Reply.code data = Some "Ok"
    /\ Reply.routes data = Some (route :: rest)
    /\ Route.coordinates route = Some (c :: cs).

(* ================================================================== *)
(** * Facts                                                            *)
(* ================================================================== *)

Section slice_facts.
Context {A : Type}.
Implicit Types (l : list A).

Lemma slice0_of_nat l (n : nat) : JS.slice0 l (Z.of_nat n) = firstn n l.
Proof.
  unfold JS.slice0.
  destruct (Z.ltb_spec (Z.of_nat n) 0) as [Hneg|_]; [lia|].
  destruct (Nat.le_gt_cases n (length l)) as [Hle|Hgt].
  - rewrite Z.min_l by lia. now rewrite Nat2Z.id.
  - rewrite Z.min_r by lia. rewrite Nat2Z.id.
    rewrite !firstn_all2; [reflexivity | lia | lia].
Qed.

End slice_facts.

(* ------------------------------------------------------------------ *)
(** ** Recent searches                                                 *)
(* ------------------------------------------------------------------ *)

Section recent_facts.
Import Storage.
Implicit Types (ls : Storage.t) (e : env) (search : location).
Implicit Types (l rest : list Recent.t).


Lemma filter_keeps_all {A} (p : A -> bool) (l : list A) :
  Forall (fun x => p x = true) l -> List.filter p l = l.
Proof.
  induction 1 as [|x l Hx _ IH]; simpl; [reflexivity|].
  now rewrite Hx, IH.
Qed.

Lemma filter_sublist {A} (p : A -> bool) (l : list A) :
  sublist (List.filter p l) l.
Proof.
  induction l as [|x l IH]; simpl; [constructor|].
  destruct (p x); now constructor.
Qed.

Lemma elsewhere_Forall search l :
  Forall (fun item => same_place (lat search) (lng search) item = false)
         (elsewhere search l).
Proof.
  apply List.Forall_forall. intros item Hin.
  apply filter_In in Hin as [_ Hp].
  now apply negb_true_iff in Hp.
Qed.

(** The two zeros are one number to [===]. *)
Lemma eqb_zero_Prim2SF (x : JS.number) :
  PrimFloat.eqb x 0 = true -> exists s, Prim2SF x = S754_zero s.
Proof.
  rewrite FloatAxioms.eqb_spec.
  change (Prim2SF 0) with (S754_zero false).
  destruct (Prim2SF x) as [s|s| |s m e]; [eauto|..]; intros Hzero; exfalso.
  - destruct s; discriminate Hzero.
  - discriminate Hzero.
  - destruct s; discriminate Hzero.
Qed.

Lemma eqb_to_zero (o x : JS.number) :
  PrimFloat.eqb x 0 = true -> PrimFloat.eqb o 0 = PrimFloat.eqb o x.
Proof.
  intros Hzero. apply eqb_zero_Prim2SF in Hzero as [s Hzero].
  rewrite !FloatAxioms.eqb_spec, Hzero.
  change (Prim2SF 0) with (S754_zero false).
  destruct (Prim2SF o) as [s'|s'| |s' m e]; reflexivity.
Qed.


(** Comparing with a coordinate and with what is stored of it is the
    same. *)
Lemma json_strict_eq_stored (v : option JS.number) (x : JS.number) :
  JS.json_strict_eq v (if PrimFloat.eqb x 0 then 0%float else x)
  = JS.json_strict_eq v x.
Proof.
  destruct (PrimFloat.eqb x 0) eqn:Hzero; [|reflexivity].
  destruct v as [o|]; [|reflexivity].
  apply (eqb_to_zero o x Hzero).
Qed.


(** What one accepted insertion stores. *)
Lemma addRecentSearch_stored e search ls :
  setItem_ok e = true ->
  stored_recent (snd (addRecentSearch e search ls))
  = recentItem e search :: take 49 (elsewhere search (take 50 (stored_recent ls))).
Proof.
  intros Hok. unfold addRecentSearch, set. rewrite Hok. simpl.
  unfold stored_recent, getRecentSearches.
  change 50 with (Z.of_nat 50). rewrite !slice0_of_nat.
  reflexivity.
Qed.

Lemma addRecentSearch_refused e search ls :
  setItem_ok e = false ->
  addRecentSearch e search ls = (false, ls).
Proof. intros Hno. unfold addRecentSearch, set. now rewrite Hno. Qed.






End recent_facts.

Section recent_examples.
Import Storage Examples.


End recent_examples.

(* ------------------------------------------------------------------ *)
(** ** Favorites                                                       *)
(* ------------------------------------------------------------------ *)

Section favorite_facts.
Import Storage.
Implicit Types (ls : Storage.t) (e : env) (fav : Favorite.t).

Lemma addFavorite_stored e location ls :
  setItem_ok e = true ->
  stored_favorites (snd (addFavorite e location ls))
  = favorite e location :: stored_favorites ls.
Proof. intros Hok. unfold addFavorite, set. now rewrite Hok. Qed.

Lemma removeFavorite_stored e id ls :
  setItem_ok e = true ->
  stored_favorites (snd (removeFavorite e id ls))
  = List.filter (fun fav => negb (Favorite.id fav =? id)) (stored_favorites ls).
Proof. intros Hok. unfold removeFavorite, set. now rewrite Hok. Qed.

(** The stored ids after a run of accepted additions: the clock readings,
    latest first, in front of the ids that were there. *)
Lemma addFavorites_ids (calls : list (env * location)) :
  forall ls,
    all_accepted calls = true ->
    map Favorite.id (stored_favorites (addFavorites calls ls))
    = rev (clock_readings calls) ++ map Favorite.id (stored_favorites ls).
Proof.
  induction calls as [|[e location] cs IH]; intros ls Hok; [reflexivity|].
  simpl in Hok. apply andb_true_iff in Hok as [He Hok]. simpl in He.
  unfold addFavorites in *. simpl.
  rewrite IH by assumption.
  rewrite addFavorite_stored by assumption.
  simpl. now rewrite <- app_assoc.
Qed.

(** Filtering on a key that occurs once removes that one element. *)
Lemma filter_unique_key (l : list Favorite.t) :
  forall fav,
    NoDup (map Favorite.id l) ->
    In fav l ->
    exists before after,
      l = before ++ fav :: after
      /\ List.filter (fun f => negb (Favorite.id f =? Favorite.id fav)) l
         = before ++ after.
Proof.
  induction l as [|x l IH]; intros fav Hnd Hin; [destruct Hin|].
  simpl in Hnd. apply NoDup_cons in Hnd as [Hx Hnd].
  destruct Hin as [->|Hin].
  - exists [], l. split; [reflexivity|].
    simpl. rewrite Z.eqb_refl. simpl.
    apply filter_keeps_all, List.Forall_forall. intros f Hf.
    apply negb_true_iff, Z.eqb_neq. intros Heq.
    apply Hx. rewrite <- Heq. apply list_elem_of_In, in_map, Hf.
  - destruct (IH fav Hnd Hin) as (before & after & Hl & Hfilter).
    exists (x :: before), after. split; [now rewrite Hl|].
    simpl. destruct (Z.eqb_spec (Favorite.id x) (Favorite.id fav)) as [Heq|_].
    + exfalso. apply Hx. rewrite Heq. apply list_elem_of_In, in_map, Hin.
    + simpl. now rewrite Hfilter.
Qed.

(** C5, as the code has it.  Ids are the readings of [Date.now()]: over a
    run of accepted [addFavorite] calls whose readings are pairwise
    different and different from the ids already stored, the stored ids are
    pairwise unique; [addFavorite] and [removeFavorite] leave every other
    entry as it was; [removeFavorite (id)] deletes every entry with that
    id and no other, keeping the order of those it leaves; and when the
    stored ids are unique, it deletes exactly the entry with that id. *)
Theorem favorite_ids_unique_when_clock_differs :
  (forall calls ls,
      all_accepted calls = true ->
      NoDup (rev (clock_readings calls)
             ++ map Favorite.id (stored_favorites ls)) ->
      NoDup (map Favorite.id (stored_favorites (addFavorites calls ls))))
  /\ (forall e location ls,
      setItem_ok e = true ->
      stored_favorites (snd (addFavorite e location ls))
      = favorite e location :: stored_favorites ls)
  /\ (forall e id ls,
      setItem_ok e = true ->
      sublist (stored_favorites (snd (removeFavorite e id ls)))
              (stored_favorites ls)
      /\ (forall fav, In fav (stored_favorites ls) -> Favorite.id fav <> id ->
           In fav (stored_favorites (snd (removeFavorite e id ls))))
      /\ (forall fav, In fav (stored_favorites (snd (removeFavorite e id ls))) ->
           Favorite.id fav <> id)
      /\ mapverse_favorites (snd (removeFavorite e id ls))
         = Some (List.filter (fun fav => negb (Favorite.id fav =? id))
                   (default [] (mapverse_favorites ls))))
  /\ (forall e fav ls,
      setItem_ok e = true ->
      NoDup (map Favorite.id (stored_favorites ls)) ->
      In fav (stored_favorites ls) ->
      exists before after,
        stored_favorites ls = before ++ fav :: after
        /\ stored_favorites (snd (removeFavorite e (Favorite.id fav) ls))
           = before ++ after).
Proof.
  split; [|split; [|split]].
  - intros calls ls Hok Hnd. now rewrite addFavorites_ids.
  - intros e location ls Hok. now apply addFavorite_stored.
  - intros e id ls Hok. rewrite removeFavorite_stored by assumption.
    split; [|split; [|split]].
    + apply filter_sublist.
    + intros fav Hin Hid. apply filter_In. split; [assumption|].
      now apply negb_true_iff, Z.eqb_neq.
    + intros fav Hin. apply filter_In in Hin as [_ Hid].
      now apply negb_true_iff, Z.eqb_neq in Hid.
    + unfold removeFavorite, set, getFavorites, get. rewrite Hok.
      destruct (mapverse_favorites ls); reflexivity.
  - intros e fav ls Hok Hnd Hin.
    rewrite removeFavorite_stored by assumption.
    now apply filter_unique_key.
Qed.

End favorite_facts.

Section favorite_examples.
Import Storage Examples.

Lemma favorite_ids_witness :
  NoDup (map Favorite.id
           (stored_favorites (addFavorites [(e1, home); (e2, work)] Storage.empty)))
  /\ exists before after,
       stored_favorites (addFavorites [(e1, home); (e2, work)] Storage.empty)
       = before ++ favorite e1 home :: after
       /\ stored_favorites
            (snd (removeFavorite e2 (Favorite.id (favorite e1 home))
                    (addFavorites [(e1, home); (e2, work)] Storage.empty)))
          = before ++ after.
Proof.
  destruct favorite_ids_unique_when_clock_differs as (Hids & _ & _ & Hremove).
  split.
  - apply Hids; [reflexivity|].
    apply (bool_decide_unpack _). vm_compute. exact I.
  - apply Hremove.
    + reflexivity.
    + apply (bool_decide_unpack _). vm_compute. exact I.
    + simpl. auto.
Defined.

(** C5 as stated fails: two favorites added within the same millisecond
    get the same id, and [removeFavorite] on that id deletes both. *)
Lemma favorite_ids_collide :
  map Favorite.id
    (stored_favorites (addFavorites [(e1, home); (e1, work)] Storage.empty))
  = [Date_now e1; Date_now e1]
  /\ ~ NoDup (map Favorite.id
           (stored_favorites (addFavorites [(e1, home); (e1, work)] Storage.empty)))
  /\ stored_favorites
       (snd (removeFavorite e1 (Favorite.id (favorite e1 home))
               (addFavorites [(e1, home); (e1, work)] Storage.empty)))
     = [].
Proof.
  split; [reflexivity|]. split; [|reflexivity].
  intros Hnd. simpl in Hnd.
  apply NoDup_cons in Hnd as [Hnotin _].
  apply Hnotin. constructor.
Qed.

End favorite_examples.

(* ------------------------------------------------------------------ *)
(** ** Route computation                                               *)
(* ------------------------------------------------------------------ *)

Section routing_facts.
Implicit Types (w : world) (reply : fetched Reply.t).

Lemma upstream_failure_no_route (data : Reply.t) :
  upstream_failure (Body data) <-> no_route_found data = true.
Proof.
  unfold upstream_failure, no_route_found.
  destruct data as [code status routes]; simpl.
  split.
  - intros [Hcode|[Hnone|Hempty]].
    + destruct code as [c|]; [|reflexivity].
      destruct (String.eqb_spec c "Ok") as [->|_]; [congruence|reflexivity].
    + subst routes. apply orb_true_r.
    + subst routes. apply orb_true_r.
  - intros H. apply orb_true_iff in H as [Hcode|Hroutes].
    + left. destruct code as [c|]; [|discriminate].
      destruct (String.eqb_spec c "Ok") as [->|Hne]; [discriminate|congruence].
    + right. destruct routes as [[|route rest]|]; auto; discriminate.
Qed.

(** On an upstream failure the rest of [getRoute] only shows the error. *)
Lemma getRoute_settled_failure w reply :
  upstream_failure reply ->
  Routing_getRoute_settled reply w
  = (Normal, set_toasts (fun l => l ++ [("Failed to calculate route", error)]) w).
Proof.
  intros Hfail. unfold Routing_getRoute_settled, try_catch.
  destruct reply as [|data]; [reflexivity|].
  apply upstream_failure_no_route in Hfail. now rewrite Hfail.
Qed.

(** What [getRoute] does before it waits. *)
Lemma getRoute_request w (startLat startLng endLat endLng : JS.number) :
  Routing_getRoute startLat startLng endLat endLng w
  = (Normal,
     mk_world (storage w) (map_module w)
       (Routing.mk
          (Some (Routing.mk_endpoints (LatLng.mk startLat startLng)
                                      (LatLng.mk endLat endLng)))
          (Routing.travelMode (routing w)))
       (search w) (page w)
       (toasts w ++ [("Calculating route...", info)])
       (Browser.mk (Browser.now (browser w)) (Browser.next_timer (browser w))
          (Browser.timers (browser w))
          (Browser.network (browser w)
           ++ [RouteRequest
                 (default "car" (profiles (Routing.travelMode (routing w))))
                 startLng startLat endLng endLat])
          ({[ length (Browser.network (browser w)) ]}
           ∪ Browser.pending (browser w)))).
Proof.
  unfold Routing_getRoute, seq, UI_showToast, modify, fetch; simpl.
  destruct (profiles (Routing.travelMode (routing w))); reflexivity.
Qed.

(** C1, as the code has it.  On an upstream failure (the network call
    errors, the code of the answer is not "Ok", or it carries no route)
    [getRoute] reports the failure, sends one request and does not retry,
    and leaves the displayed route, the markers and the directions as they
    were; the stored endpoints are those of the request, stored before it
    is sent. *)
Theorem getRoute_failure_keeps_displayed_route
  w (startLat startLng endLat endLng : JS.number) reply :
  upstream_failure reply ->
  let w1 := snd (Routing_getRoute startLat startLng endLat endLng w) in
  let w2 := snd (Routing_getRoute_settled reply w1) in
  toasts w2
  = toasts w ++ [("Calculating route...", info);
                 ("Failed to calculate route", error)]
  /\ map_module w2 = map_module w
  /\ page w2 = page w
  /\ storage w2 = storage w
  /\ Routing.travelMode (routing w2) = Routing.travelMode (routing w)
  /\ Routing.currentRoute (routing w2)
     = Some (Routing.mk_endpoints (LatLng.mk startLat startLng)
                                  (LatLng.mk endLat endLng))
  /\ Browser.network (browser w2)
     = Browser.network (browser w)
       ++ [RouteRequest
             (default "car" (profiles (Routing.travelMode (routing w))))
             startLng startLat endLng endLat].
Proof.
  intros Hfail w1 w2. subst w2 w1.
  rewrite getRoute_request.
  rewrite getRoute_settled_failure by assumption.
  simpl. rewrite <- app_assoc. repeat split; reflexivity.
Qed.

End routing_facts.

Section routing_examples.
Import Scenario.

Lemma getRoute_failure_witness :
  let w2 :=
    snd (Routing_getRoute_settled (Body (Reply.mk (Some "NoRoute") None None))
           (snd (Routing_getRoute 51.5007 (-0.1246) 51.5074 (-0.1278) with_route)))%float in
  toasts w2
  = [("Calculating route...", info); ("Failed to calculate route", error)]
  /\ MapModule.routeLayer (map_module w2)
     = MapModule.routeLayer (map_module with_route).
Proof.
  destruct (getRoute_failure_keeps_displayed_route with_route
              51.5007 (-0.1246) 51.5074 (-0.1278)
              (Body (Reply.mk (Some "NoRoute") None None)))%float
    as (Htoasts & Hmap & _).
  - left. discriminate.
  - split; [exact Htoasts | now rewrite Hmap].
Defined.

(** C1 as stated fails: while a route from the user to London is stored
    and drawn, a request for a route in Paris that the network drops leaves
    the Paris endpoints stored. *)
Lemma getRoute_failure_overwrites_endpoints :
  Routing.currentRoute
    (routing (snd (Routing_getRoute_settled Rejected
                     (snd (Routing_getRoute 48.8566 2.3522 48.8584 2.2945
                             with_route)))))%float
  = Some (Routing.mk_endpoints (LatLng.mk 48.8566 2.3522)
                               (LatLng.mk 48.8584 2.2945))%float
  /\ Routing.currentRoute (routing with_route)
     = Some (Routing.mk_endpoints (LatLng.mk 51.5007 (-0.1246))
                                  (LatLng.mk 51.5074 (-0.1278)))%float
  /\ Routing.currentRoute
       (routing (snd (Routing_getRoute_settled Rejected
                        (snd (Routing_getRoute 48.8566 2.3522 48.8584 2.2945
                                with_route)))))%float
     <> Routing.currentRoute (routing with_route).
Proof.
  split; [reflexivity|]. split; [reflexivity|].
  intros Heq.
  apply (f_equal (fun r => match r with
                           | Some e => PrimFloat.ltb (LatLng.lat (Routing.start e)) 50
                           | None => false
                           end)) in Heq.
  vm_compute in Heq. discriminate Heq.
Qed.

End routing_examples.

(* ------------------------------------------------------------------ *)
(** ** Setting a destination                                           *)
(* ------------------------------------------------------------------ *)

Section destination_facts.
Implicit Types (w : world).

Lemma awaited_intro (id : nat) w (r : request) :
  id ∈ Browser.pending (browser w) ->
  Browser.network (browser w) !! id = Some r ->
  awaited id w = Some r.
Proof.
  intros Hin Hr. unfold awaited.
  destruct (decide (id ∈ Browser.pending (browser w))); [exact Hr|contradiction].
Qed.

(** With a map and a known user location, [setDestination] places the
    marker, asks for one route from the user to the destination, and says
    so. *)
Lemma setDestination_located w (lat lng : JS.number) (name : option string)
  (v : MapModule.view) (u : LatLng.t) :
  MapModule.map (map_module w) = Some v ->
  MapModule.userLocation (map_module w) = Some u ->
  PrimFloat.is_nan lat = false ->
  PrimFloat.is_nan lng = false ->
  MapModule_setDestination lat lng name w
  = (Normal,
     mk_world (storage w)
       (MapModule.with_destinationMarker
          (Some (LatLng.mk lat lng, default "Destination" name)) (map_module w))
       (Routing.mk
          (Some (Routing.mk_endpoints u (LatLng.mk lat lng)))
          (Routing.travelMode (routing w)))
       (search w) (page w)
       (toasts w ++ [("Calculating route...", info); ("Destination set", success)])
       (Browser.mk (Browser.now (browser w)) (Browser.next_timer (browser w))
          (Browser.timers (browser w))
          (Browser.network (browser w)
           ++ [RouteRequest
                 (default "car" (profiles (Routing.travelMode (routing w))))
                 (LatLng.lng u) (LatLng.lat u) lng lat])
          ({[ length (Browser.network (browser w)) ]}
           ∪ Browser.pending (browser w)))).
Proof.
  intros Hmap Hu Hlat Hlng.
  unfold MapModule_setDestination, seq, on_map. rewrite Hmap, Hlat, Hlng.
  unfold modify at 1. cbv beta iota delta [orb].
  replace (MapModule.userLocation
             (map_module
                (set_map_module
                   (MapModule.with_destinationMarker
                      (Some (LatLng.mk lat lng,
                             match name with Some n => n | None => "Destination" end)))
                   w)))
    with (Some u) by (now rewrite <- Hu).
  rewrite getRoute_request. unfold UI_showToast, modify, set_toasts. simpl.
  rewrite <- app_assoc. destruct u, name; reflexivity.
Qed.


(** A path fits whichever way round its pairs are written. *)
Lemma fits_swapped (l : list (JS.number * JS.number)) :
  fits (map (fun coord => (snd coord, fst coord)) l) = fits l.
Proof.
  assert (Hall : forall l' : list (JS.number * JS.number),
             forallb (fun coord => PrimFloat.is_finite (fst coord)
                                   && PrimFloat.is_finite (snd coord))
               (map (fun coord => (snd coord, fst coord)) l')
             = forallb (fun coord => PrimFloat.is_finite (fst coord)
                                     && PrimFloat.is_finite (snd coord)) l').
  { induction l' as [|c cs IH]; [reflexivity|].
    cbn [map forallb fst snd]. rewrite IH. f_equal. apply andb_comm. }
  destruct l as [|c cs]; [reflexivity|].
  unfold fits. cbn [map]. apply (Hall (c :: cs)).
Qed.

(** What [drawRoute] does on a map: the path is drawn and, when it can be
    fitted, the view moved to it. *)
Lemma drawRoute_fits w (v : MapModule.view) (path : list (JS.number * JS.number)) :
  MapModule.map (map_module w) = Some v ->
  fits path = true ->
  MapModule_drawRoute path w
  = (Normal,
     set_map_module (fun m =>
       MapModule.mk (Some (MapModule.FitBounds path))
         (MapModule.userMarker m) (MapModule.destinationMarker m)
         (Some path) (MapModule.userLocation m)) w).
Proof.
  intros Hmap Hfits.
  unfold MapModule_drawRoute. rewrite Hfits.
  unfold seq, on_map, skip, modify, set_map_module.
  destruct w as [ls [mp um dm rl ul] rt sr pg ts br]; simpl in Hmap |- *.
  subst mp. destruct rl; reflexivity.
Qed.

Lemma drawRoute_unfit w (v : MapModule.view) (path : list (JS.number * JS.number)) :
  MapModule.map (map_module w) = Some v ->
  fits path = false ->
  MapModule_drawRoute path w
  = (Thrown, set_map_module (MapModule.with_routeLayer (Some path)) w).
Proof.
  intros Hmap Hfits.
  unfold MapModule_drawRoute. rewrite Hfits.
  unfold seq, on_map, skip, modify, throw, set_map_module.
  destruct w as [ls [mp um dm rl ul] rt sr pg ts br]; simpl in Hmap |- *.
  subst mp. destruct rl; reflexivity.
Qed.




End destination_facts.

Section destination_examples.
Import Scenario.



End destination_examples.

(* ------------------------------------------------------------------ *)
(** ** What the map and routing statements leave alone                 *)
(* ------------------------------------------------------------------ *)

Section route_side_facts.
Implicit Types (w : world) (a b : action).

Lemma search_side_kept_refl w : search_side_kept w w.
Proof.
  constructor; try reflexivity; try (intros; assumption).
  exists []. split; [now rewrite app_nil_r | reflexivity].
Qed.

Lemma search_side_kept_trans w1 w2 w3 :
  search_side_kept w1 w2 -> search_side_kept w2 w3 -> search_side_kept w1 w3.
Proof.
  intros [Hs Hn Ht Htm (sent & Hnet & Hsent) Hr Hh Hno Hmap]
         [Hs' Hn' Ht' Htm' (sent' & Hnet' & Hsent') Hr' Hh' Hno' Hmap'].
  constructor; try congruence.
  - exists (sent ++ sent'). split.
    + rewrite Hnet', Hnet. now rewrite app_assoc.
    + rewrite forallb_app, Hsent, Hsent'. reflexivity.
  - intros Hnone. rewrite Hno'; [now apply Hno|].
    rewrite (Hno Hnone). exact Hnone.
  - intros Hnone. auto.
Qed.

Lemma route_side_skip : route_side skip.
Proof. intros w. apply search_side_kept_refl. Qed.

Lemma route_side_throw : route_side throw.
Proof. intros w. apply search_side_kept_refl. Qed.

Lemma route_side_seq a b : route_side a -> route_side b -> route_side (a ;; b).
Proof.
  intros Ha Hb w. unfold seq.
  specialize (Ha w). destruct (a w) as [[|] w']; simpl in *; [|exact Ha].
  eapply search_side_kept_trans; [exact Ha | apply Hb].
Qed.

Lemma route_side_try_catch a b :
  route_side a -> route_side b -> route_side (try_catch a b).
Proof.
  intros Ha Hb w. unfold try_catch.
  specialize (Ha w). destruct (a w) as [[|] w']; simpl in *; [exact Ha|].
  eapply search_side_kept_trans; [exact Ha | apply Hb].
Qed.

Lemma route_side_on_map a : route_side a -> route_side (on_map a).
Proof.
  intros Ha w. unfold on_map.
  destruct (MapModule.map (map_module w)); [apply Ha | apply search_side_kept_refl].
Qed.

Lemma route_side_showToast message type : route_side (UI_showToast message type).
Proof.
  intros w. unfold UI_showToast, modify, set_toasts; simpl.
  constructor; simpl; try reflexivity; try (intros; assumption).
  exists []. split; [now rewrite app_nil_r | reflexivity].
Qed.

Lemma route_side_set_routing f : route_side (modify (set_routing f)).
Proof.
  intros w. unfold modify, set_routing; simpl.
  constructor; simpl; try reflexivity; try (intros; assumption).
  exists []. split; [now rewrite app_nil_r | reflexivity].
Qed.

Lemma route_side_set_storage f : route_side (modify (set_storage f)).
Proof.
  intros w. unfold modify, set_storage; simpl.
  constructor; simpl; try reflexivity; try (intros; assumption).
  exists []. split; [now rewrite app_nil_r | reflexivity].
Qed.

(** A change of the page that leaves the results list alone. *)
Lemma route_side_set_page f :
  (forall p, Page.search_results (f p) = Page.search_results p) ->
  (forall p, Page.search_results_hidden (f p) = Page.search_results_hidden p) ->
  route_side (modify (set_page f)).
Proof.
  intros Hr Hh w. unfold modify, set_page; simpl.
  constructor; simpl; try reflexivity; try (intros; assumption); auto.
  exists []. split; [now rewrite app_nil_r | reflexivity].
Qed.

(** A change of the map module made while the map is there and that
    keeps it there. *)
Lemma route_side_on_map_set f :
  (forall m, MapModule.map m <> None -> MapModule.map (f m) <> None) ->
  route_side (on_map (modify (set_map_module f))).
Proof.
  intros Hf w. unfold on_map.
  destruct (MapModule.map (map_module w)) as [v|] eqn:Hmap;
    [|apply search_side_kept_refl].
  unfold modify, set_map_module; simpl.
  constructor; simpl; try reflexivity.
  - exists []. split; [now rewrite app_nil_r | reflexivity].
  - intros Hnone. congruence.
  - intros Hnone. exfalso. eapply Hf; [|exact Hnone]. congruence.
Qed.

Lemma route_side_fetch_route profile (a b c d : JS.number) :
  route_side (fetch (RouteRequest profile a b c d)).
Proof.
  intros w. unfold fetch, modify, set_browser; simpl.
  constructor; simpl; try reflexivity; try (intros; assumption).
  eexists. split; reflexivity.
Qed.

Lemma route_side_getRoute (a b c d : JS.number) :
  route_side (Routing_getRoute a b c d).
Proof.
  unfold Routing_getRoute.
  apply route_side_seq; [apply route_side_showToast|].
  apply route_side_seq; [apply route_side_set_routing|].
  intros w. apply route_side_fetch_route.
Qed.

Lemma route_side_drawRoute coordinates : route_side (MapModule_drawRoute coordinates).
Proof.
  unfold MapModule_drawRoute.
  apply route_side_seq.
  { intros w. destruct (MapModule.routeLayer (map_module w));
      [apply route_side_on_map, route_side_skip | apply route_side_skip]. }
  apply route_side_seq.
  { apply route_side_on_map_set. intros m Hm. exact Hm. }
  destruct (fits coordinates);
    [|apply route_side_on_map, route_side_throw].
  apply route_side_on_map_set. intros m _. discriminate.
Qed.

Lemma route_side_clearRoute : route_side MapModule_clearRoute.
Proof.
  unfold MapModule_clearRoute.
  apply route_side_seq; intros w.
  - destruct (MapModule.routeLayer (map_module w)); [|apply route_side_skip].
    apply route_side_on_map_set. intros m Hm. exact Hm.
  - destruct (MapModule.destinationMarker (map_module w)); [|apply route_side_skip].
    apply route_side_on_map_set. intros m Hm. exact Hm.
Qed.

Lemma route_side_displayRouteSummary distance duration :
  route_side (Routing_displayRouteSummary distance duration).
Proof.
  intros w. unfold Routing_displayRouteSummary.
  apply route_side_set_page; reflexivity.
Qed.

Lemma route_side_displayTurnByTurn steps :
  route_side (Routing_displayTurnByTurn steps).
Proof.
  unfold Routing_displayTurnByTurn.
  destruct steps as [steps|]; [|apply route_side_throw].
  destruct (turn_instructions steps); [|apply route_side_throw].
  apply route_side_set_page; reflexivity.
Qed.

Lemma route_side_displayRoute route : route_side (Routing_displayRoute route).
Proof.
  unfold Routing_displayRoute.
  destruct (Route.coordinates route); [|apply route_side_throw].
  apply route_side_seq; [apply route_side_drawRoute|].
  apply route_side_seq; [apply route_side_displayRouteSummary|].
  apply route_side_seq.
  { destruct (first_leg_steps route);
      [apply route_side_displayTurnByTurn | apply route_side_throw]. }
  apply route_side_seq; [apply route_side_set_page; reflexivity|].
  apply route_side_showToast.
Qed.

Lemma route_side_getRoute_settled reply : route_side (Routing_getRoute_settled reply).
Proof.
  unfold Routing_getRoute_settled.
  apply route_side_try_catch; [|apply route_side_showToast].
  destruct reply as [|data]; [apply route_side_throw|].
  destruct (no_route_found data); [apply route_side_throw|].
  destruct (Reply.routes data) as [[|route rest]|];
    try apply route_side_throw.
  apply route_side_displayRoute.
Qed.

Lemma route_side_changeTravelMode e mode : route_side (Routing_changeTravelMode e mode).
Proof.
  unfold Routing_changeTravelMode.
  apply route_side_seq; [apply route_side_set_page; reflexivity|].
  apply route_side_seq; [apply route_side_set_routing|].
  apply route_side_seq; [intros w; apply route_side_set_storage|].
  intros w. destruct (Routing.currentRoute (routing w));
    [apply route_side_getRoute | apply route_side_skip].
Qed.

Lemma route_side_Routing_clearRoute : route_side Routing_clearRoute.
Proof.
  unfold Routing_clearRoute.
  apply route_side_seq; [apply route_side_set_routing|].
  apply route_side_seq; [apply route_side_clearRoute|].
  apply route_side_set_page; reflexivity.
Qed.

Lemma route_side_setDestination lat lng name :
  route_side (MapModule_setDestination lat lng name).
Proof.
  unfold MapModule_setDestination.
  apply route_side_seq.
  { destruct (PrimFloat.is_nan lat || PrimFloat.is_nan lng);
      [apply route_side_on_map, route_side_throw|].
    apply route_side_on_map_set. intros m Hm. exact Hm. }
  apply route_side_seq; [|apply route_side_showToast].
  intros w. destruct (MapModule.userLocation (map_module w));
    [apply route_side_getRoute | apply route_side_skip].
Qed.

End route_side_facts.

(* ------------------------------------------------------------------ *)
(** ** The search box, one event at a time                             *)
(* ------------------------------------------------------------------ *)

Section search_step_facts.
Implicit Types (w : world) (ev : event).

Lemma awaited_network (id : nat) w (r : request) :
  awaited id w = Some r -> Browser.network (browser w) !! id = Some r.
Proof.
  unfold awaited.
  destruct (decide (id ∈ Browser.pending (browser w))); [auto|discriminate].
Qed.

Lemma search_queries_app (l l' : list request) :
  search_queries (l ++ l') = search_queries l ++ search_queries l'.
Proof. unfold search_queries. apply omap_app. Qed.

Lemma search_queries_route_requests (sent : list request) :
  forallb is_route_request sent = true -> search_queries sent = [].
Proof.
  induction sent as [|r sent IH]; [reflexivity|].
  simpl. intros H. apply andb_true_iff in H as [Hr Hsent].
  destruct r; [|discriminate]. simpl. now apply IH.
Qed.

Lemma search_queries_lookup (l : list request) (id : nat) (q : string) vb :
  l !! id = Some (SearchRequest q vb) -> In q (search_queries l).
Proof.
  intros Hl. apply list_elem_of_In. unfold search_queries.
  apply list_elem_of_omap. exists (SearchRequest q vb).
  split; [|reflexivity]. eapply list_elem_of_lookup_2. exact Hl.
Qed.

Lemma search_side_kept_effect w0 w w' ev :
  search_queries (Browser.network (browser w0))
  = search_queries (Browser.network (browser w)) ->
  results w0 = results w ->
  search_side_kept w0 w' ->
  search_effect w w' ev.
Proof.
  intros Hq Hr [Hs _ _ _ (sent & Hnet & Hsent) Hres _ _ _].
  apply nothing_sent.
  - rewrite Hnet, search_queries_app.
    rewrite (search_queries_route_requests sent) by assumption.
    now rewrite app_nil_r.
  - left. rewrite <- Hr. unfold results. now rewrite Hs, Hres.
Qed.

Lemma step_not_input ev w w' :
  is_input ev = false ->
  step ev w = Some w' ->
  search_timer_tracked w ->
  search_timer_tracked w'
  /\ Search.searchTimeout (search w') = Search.searchTimeout (search w)
  /\ (forall id due q, search_timer w' id due q -> search_timer w id due q)
  /\ (exists sent, Browser.network (browser w')
                   = Browser.network (browser w) ++ sent)
  /\ Browser.now (browser w') = (Browser.now (browser w) + elapsed [ev])%nat
  /\ search_effect w w' ev.
Proof.
  intros Hev Hstep Htracked.
  assert (Hframe : forall w0,
            Search.searchTimeout (search w0) = Search.searchTimeout (search w) ->
            Browser.timers (browser w0) = Browser.timers (browser w) ->
            Browser.network (browser w0) = Browser.network (browser w) ->
            Browser.now (browser w0) = Browser.now (browser w) ->
            results w0 = results w ->
            search_side_kept w0 w' ->
            search_timer_tracked w'
            /\ Search.searchTimeout (search w') = Search.searchTimeout (search w)
            /\ (forall id due q, search_timer w' id due q -> search_timer w id due q)
            /\ (exists sent, Browser.network (browser w')
                             = Browser.network (browser w) ++ sent)
            /\ (is_input ev = false ->
                match ev with Elapse _ => False | _ => True end ->
                Browser.now (browser w')
                = (Browser.now (browser w) + elapsed [ev])%nat)
            /\ search_effect w w' ev).
  { intros w0 Hto Htm Hnw Hnow Hres Hkept.
    pose proof Hkept as [Hs Hn _ Ht (sent & Hnet & Hsent) _ _ _ _].
    assert (Hsame : forall id due q, search_timer w' id due q -> search_timer w id due q).
    { unfold search_timer. intros id due q. now rewrite Ht, Htm. }
    split; [|split; [|split; [|split; [|split]]]].
    - intros id due q Hid. rewrite Hs, Hto. eapply Htracked, Hsame, Hid.
    - now rewrite Hs.
    - exact Hsame.
    - exists sent. now rewrite Hnet, Hnw.
    - intros _ Hnot. rewrite Hn, Hnow.
      destruct ev; simpl; try lia; contradiction.
    - apply (search_side_kept_effect w0);
        [now rewrite Hnw | exact Hres | exact Hkept]. }
  destruct ev as [ms|value| | |id|id reply|id reply|e mode|lat lng name|];
    simpl in Hstep; try discriminate Hev.
  - (* Elapse *)
    injection Hstep as <-. unfold search_timer_tracked, search_timer, results; simpl.
    split; [exact Htracked|]. split; [reflexivity|]. split; [auto|].
    split; [exists []; now rewrite app_nil_r|]. split; [simpl; lia|].
    apply nothing_sent; [reflexivity | left; reflexivity].
  - (* Blur *)
    injection Hstep as <-.
    unfold Search_onBlur, setTimeout, search_timer_tracked, search_timer, results; simpl.
    assert (Hold : forall id due q,
              <[Browser.next_timer (browser w) :=
                  ((Browser.now (browser w) + 200)%nat, HideSearchResults)]>
                (Browser.timers (browser w)) !! id = Some (due, PerformSearch q) ->
              Browser.timers (browser w) !! id = Some (due, PerformSearch q)).
    { intros id due q. rewrite lookup_insert.
      destruct (decide (Browser.next_timer (browser w) = id)); [discriminate|auto]. }
    split; [intros id due q Hid; eapply Htracked, Hold, Hid|].
    split; [reflexivity|]. split; [exact Hold|].
    split; [exists []; now rewrite app_nil_r|]. split; [simpl; lia|].
    apply nothing_sent; [reflexivity | left; reflexivity].
  - (* Focus *)
    injection Hstep as <-.
    unfold Search_onFocus, Search_showSearchResults, modify, skip.
    destruct (Search.currentResults (search w));
      unfold search_timer_tracked, search_timer, results; simpl;
      (split; [exact Htracked|]; split; [reflexivity|]; split; [auto|];
       split; [exists []; now rewrite app_nil_r|]; split; [simpl; lia|];
       apply nothing_sent; [reflexivity | left; reflexivity]).
  - (* Timeout *)
    destruct (Browser.timers (browser w) !! id) as [[due t]|] eqn:Htimer;
      [|discriminate].
    destruct (Nat.leb_spec due (Browser.now (browser w))) as [Hdue|_];
      [|discriminate].
    injection Hstep as <-.
    assert (Hold : forall id' due' q',
              delete id (Browser.timers (browser w)) !! id'
              = Some (due', PerformSearch q') ->
              id' <> id
              /\ Browser.timers (browser w) !! id' = Some (due', PerformSearch q')).
    { intros id' due' q'. rewrite lookup_delete.
      destruct (decide (id = id')); [discriminate|auto]. }
    destruct t as [query|].
    + (* a search leaves *)
      unfold seq, clearTimeout, run_task, Search_performSearch, fetch, modify;
        unfold search_timer_tracked, search_timer, results; simpl.
      assert (Hnone : forall id' due' q',
                delete id (Browser.timers (browser w)) !! id'
                <> Some (due', PerformSearch q')).
      { intros id' due' q' Hid'. apply Hold in Hid' as [Hne Hid'].
        apply Htracked in Hid'. apply Htracked in Htimer. congruence. }
      split; [intros id' due' q' Hid'; now apply Hnone in Hid'|].
      split; [reflexivity|].
      split; [intros id' due' q' Hid'; now apply Hold in Hid'|].
      split; [eexists; reflexivity|]. split; [simpl; lia|].
      eapply search_sent; [exact Htimer | exact Hdue | reflexivity | exact Hnone
                          | reflexivity].
    + (* the results are hidden *)
      unfold seq, clearTimeout, run_task, Search_hideSearchResults, modify;
        unfold search_timer_tracked, search_timer, results; simpl.
      split; [intros id' due' q' Hid'; apply Hold in Hid' as [_ Hid'];
              eapply Htracked, Hid'|].
      split; [reflexivity|].
      split; [intros id' due' q' Hid'; now apply Hold in Hid'|].
      split; [exists []; now rewrite app_nil_r|]. split; [simpl; lia|].
      apply nothing_sent; [reflexivity | left; reflexivity].
  - (* SearchSettled *)
    destruct (awaited id w) as [[|q vb]|] eqn:Hawaited; try discriminate.
    apply awaited_network in Hawaited.
    injection Hstep as <-.
    unfold Search_performSearch_settled, try_catch, seq, Search_displaySearchResults,
      Search_showSearchResults, Search_hideSearchResults, modify, throw, settle.
    destruct reply as [|data];
      unfold search_timer_tracked, search_timer, results; simpl;
      (split; [exact Htracked|]; split; [reflexivity|]; split; [auto|];
       split; [exists []; now rewrite app_nil_r|]; split; [simpl; lia|];
       apply nothing_sent; [reflexivity|]).
    + left; reflexivity.
    + right. exists id, q, vb, data. auto.
  - (* RouteSettled *)
    destruct (awaited id w) as [[profile a b c d|]|] eqn:Hawaited; try discriminate.
    injection Hstep as <-.
    destruct (Hframe (settle id w)) as (H1 & H2 & H3 & H4 & H5 & H6);
      try reflexivity; [apply route_side_getRoute_settled|].
    repeat (split; [assumption|]). split; [now apply H5 | exact H6].
  - (* TravelModeClick *)
    injection Hstep as <-.
    destruct (Hframe w) as (H1 & H2 & H3 & H4 & H5 & H6);
      try reflexivity; [apply route_side_changeTravelMode|].
    repeat (split; [assumption|]). split; [now apply H5 | exact H6].
  - (* SetDestination *)
    injection Hstep as <-.
    destruct (Hframe w) as (H1 & H2 & H3 & H4 & H5 & H6);
      try reflexivity; [apply route_side_setDestination|].
    repeat (split; [assumption|]). split; [now apply H5 | exact H6].
  - (* ClearRoute *)
    injection Hstep as <-.
    destruct (Hframe w) as (H1 & H2 & H3 & H4 & H5 & H6);
      try reflexivity; [apply route_side_Routing_clearRoute|].
    repeat (split; [assumption|]). split; [now apply H5 | exact H6].
Qed.

End search_step_facts.

(* ------------------------------------------------------------------ *)
(** ** The search box over a run of events                             *)
(* ------------------------------------------------------------------ *)

Section search_run_facts.
Implicit Types (w : world) (ev : event) (es : list event).

(** Typing into the box: the pending search is dropped, nothing is sent,
    and at most the search of what is typed now is scheduled, 300 ms
    ahead. *)
Lemma step_input (value : string) w :
  search_timer_tracked w ->
  exists w',
    step (Input value) w = Some w'
    /\ search_timer_tracked w'
    /\ Browser.network (browser w') = Browser.network (browser w)
    /\ Browser.pending (browser w') = Browser.pending (browser w)
    /\ Browser.now (browser w') = Browser.now (browser w)
    /\ results w' = results w
    /\ (forall id due q,
          search_timer w' id due q ->
          due = (Browser.now (browser w) + 300)%nat
          /\ q = JS.trim value
          /\ (3 <= String.length q)%nat)
    /\ ((String.length (JS.trim value) < 3)%nat ->
        Page.search_results_hidden (page w') = true).
Proof.
  intros Htracked. eexists. split; [reflexivity|].
  unfold Search_onInput, seq.
  set (cleared := match Search.searchTimeout (search w) with
                  | Some id => clearTimeout id w
                  | None => skip w
                  end).
  assert (Hcleared :
    fst cleared = Normal
    /\ search (snd cleared) = search w
    /\ page (snd cleared) = page w
    /\ Browser.network (browser (snd cleared)) = Browser.network (browser w)
    /\ Browser.pending (browser (snd cleared)) = Browser.pending (browser w)
    /\ Browser.now (browser (snd cleared)) = Browser.now (browser w)
    /\ forall id due q, ~ search_timer (snd cleared) id due q).
  { subst cleared. unfold search_timer.
    destruct (Search.searchTimeout (search w)) as [old|] eqn:Hold;
      unfold clearTimeout, modify, skip; simpl.
    - repeat (split; [reflexivity|]).
      intros id due q. rewrite lookup_delete.
      destruct (decide (old = id)) as [->|Hne]; [discriminate|].
      intros Hid. apply Htracked in Hid. congruence.
    - repeat (split; [reflexivity|]).
      intros id due q Hid. apply Htracked in Hid. congruence. }
  destruct cleared as [c w0]. simpl in Hcleared.
  destruct Hcleared as (-> & Hsearch & Hpage & Hnet & Hpending & Hnow & Hnone).
  destruct (Nat.ltb_spec (String.length (JS.trim value)) 3) as [Hshort|Hlong].
  - unfold Search_hideSearchResults, modify, search_timer_tracked, search_timer,
      results; simpl.
    split; [intros id due q Hid; now apply Hnone in Hid|].
    repeat (split; [assumption|]).
    split; [now rewrite Hsearch, Hpage|].
    split; [intros id due q Hid; now apply Hnone in Hid | reflexivity].
  - unfold setTimeout, modify, search_timer_tracked, search_timer, results; simpl.
    assert (Hnew : forall id due q,
              <[Browser.next_timer (browser w0) :=
                  ((Browser.now (browser w0) + 300)%nat,
                   PerformSearch (JS.trim value))]>
                (Browser.timers (browser w0)) !! id = Some (due, PerformSearch q) ->
              id = Browser.next_timer (browser w0)
              /\ due = (Browser.now (browser w0) + 300)%nat
              /\ q = JS.trim value).
    { intros id due q. rewrite lookup_insert.
      destruct (decide (Browser.next_timer (browser w0) = id)) as [<-|Hne].
      - intros [= <- <-]. auto.
      - intros Hid. now apply Hnone in Hid. }
    split; [intros id due q Hid; apply Hnew in Hid as (-> & _); reflexivity|].
    repeat (split; [assumption|]).
    split; [now rewrite Hsearch, Hpage|].
    split; [|lia].
    intros id due q Hid. apply Hnew in Hid as (_ & -> & ->).
    rewrite Hnow. auto.
Qed.

Lemma run_cons ev es w :
  run (ev :: es) w
  = match step ev w with
    | Some w1 => run es w1
    | None => None
    end.
Proof. reflexivity. Qed.

Lemma run_app es es' w :
  run (es ++ es') w
  = match run es w with
    | Some w1 => run es' w1
    | None => None
    end.
Proof.
  revert w. induction es as [|ev es IH]; intros w; [reflexivity|].
  simpl. destruct (step ev w); [apply IH | reflexivity].
Qed.

(** While no search is due and none has been sent, events other than
    typing send no search and leave the results as they are. *)
Lemma run_nothing_due es :
  forall w w',
    forallb (fun ev => negb (is_input ev)) es = true ->
    run es w = Some w' ->
    search_timer_tracked w ->
    search_queries (Browser.network (browser w)) = [] ->
    (forall id due q,
        search_timer w id due q ->
        (Browser.now (browser w) + elapsed es < due)%nat) ->
    search_timer_tracked w'
    /\ search_queries (Browser.network (browser w')) = []
    /\ results w' = results w
    /\ (forall id due q, search_timer w' id due q -> search_timer w id due q).
Proof.
  induction es as [|ev es IH]; intros w w' Hno Hrun Htracked Hq Hdue.
  - injection Hrun as <-. auto.
  - simpl in Hno, Hrun. apply andb_true_iff in Hno as [Hev Hno].
    apply negb_true_iff in Hev.
    destruct (step ev w) as [w1|] eqn:Hstep; [|discriminate].
    destruct (step_not_input ev w w1 Hev Hstep Htracked)
      as (Htracked1 & _ & Htimers1 & _ & Hnow1 & Heffect).
    assert (Hquiet : search_queries (Browser.network (browser w1)) = []
                     /\ results w1 = results w).
    { destruct Heffect as [Hqueries Hresults | id due q vb Htimer Hfired _ _ _].
      - split; [congruence|].
        destruct Hresults as [Hsame | (id & q & vb & data & _ & Hsent & _)];
          [exact Hsame|].
        apply search_queries_lookup in Hsent. rewrite Hq in Hsent. destruct Hsent.
      - apply Hdue in Htimer. lia. }
    destruct Hquiet as [Hq1 Hr1].
    destruct (IH w1 w' Hno Hrun Htracked1 Hq1) as (Ht' & Hq' & Hr' & Htimers').
    + intros id due q Hid. apply Htimers1, Hdue in Hid.
      rewrite Hnow1. simpl in *.
      destruct ev; simpl in *; lia.
    + split; [exact Ht'|]. split; [exact Hq'|]. split; [congruence|].
      intros id due q Hid. now apply Htimers1, Htimers'.
Qed.

Lemma run_one_query (q : string) es :
  forall w w',
    forallb (fun ev => negb (is_input ev)) es = true ->
    run es w = Some w' ->
    one_query q w ->
    one_query q w'
    /\ (exists sent, Browser.network (browser w')
                     = Browser.network (browser w) ++ sent)
    /\ (results w' = results w
        \/ exists id vb data,
             In (SearchSettled id (Body data)) es
             /\ Browser.network (browser w') !! id = Some (SearchRequest q vb)
             /\ results w' = (data, Some data)).
Proof.
  induction es as [|ev es IH]; intros w w' Hno Hrun Hone.
  - injection Hrun as <-. split; [exact Hone|].
    split; [exists []; now rewrite app_nil_r | left; reflexivity].
  - simpl in Hno, Hrun. apply andb_true_iff in Hno as [Hev Hno].
    apply negb_true_iff in Hev.
    destruct (step ev w) as [w1|] eqn:Hstep; [|discriminate].
    destruct Hone as (Htracked & Honly & Hsent).
    destruct (step_not_input ev w w1 Hev Hstep Htracked)
      as (Htracked1 & _ & Htimers1 & (sent1 & Hnet1) & _ & Heffect).
    assert (Hone1 : one_query q w1).
    { split; [exact Htracked1|]. split.
      - intros id due q' Hid. eapply Honly, Htimers1, Hid.
      - destruct Heffect as [Hqueries _ | id due q0 vb Htimer _ Hnetwork Hnone _].
        + rewrite Hqueries. destruct Hsent as [Hempty | [Hq Hnone]];
            [left; exact Hempty | right].
          split; [exact Hq|]. intros id due q' Hid. eapply Hnone, Htimers1, Hid.
        + right. split; [|exact Hnone].
          destruct Hsent as [Hempty | [_ Hnone']];
            [|now apply Hnone' in Htimer].
          rewrite Hnetwork, search_queries_app, Hempty. simpl.
          now rewrite (Honly _ _ _ Htimer). }
    destruct (IH w1 w' Hno Hrun Hone1) as (Hone' & (sent & Hnet) & Hresults).
    split; [exact Hone'|]. split.
    { exists (sent1 ++ sent). now rewrite Hnet, Hnet1, app_assoc. }
    destruct Hresults as [Hsame | (id & vb & data & Hin & Hreq & Hdata)].
    + destruct Heffect as [_ [Hr|(id & q0 & vb & data & -> & Hreq & Hdata)]
                          | id due q0 vb _ _ _ _ Hr].
      * left. congruence.
      * right. exists id, vb, data. split; [now left|].
        assert (q0 = q) as ->.
        { apply search_queries_lookup in Hreq.
          destruct Hsent as [Hempty | [Hq _]].
          - rewrite Hempty in Hreq. destruct Hreq.
          - rewrite Hq in Hreq. destruct Hreq as [<-|[]]. reflexivity. }
        split; [|congruence].
        rewrite Hnet, Hnet1, <- app_assoc. now apply lookup_app_l_Some.
      * left. congruence.
    + right. exists id, vb, data. split; [now right|]. auto.
Qed.

End search_run_facts.

(* ------------------------------------------------------------------ *)
(** ** What every reachable state satisfies                            *)
(* ------------------------------------------------------------------ *)

Section reachable_facts.
Implicit Types (w : world) (ev : event) (es : list event).

Lemma layers_on_map_kept w0 w w' :
  map_module w0 = map_module w ->
  search_side_kept w0 w' ->
  layers_on_map w -> layers_on_map w'.
Proof.
  intros Hsame Hkept Hinv Hnone. unfold layers_on_map in Hinv.
  pose proof (kept_map _ _ Hkept Hnone) as Hnone0.
  rewrite (kept_no_map _ _ Hkept Hnone0), Hsame.
  apply Hinv. now rewrite <- Hsame.
Qed.

Lemma step_layers_on_map ev w w' :
  step ev w = Some w' -> layers_on_map w -> layers_on_map w'.
Proof.
  intros Hstep Hinv.
  assert (Hsame : map_module w' = map_module w -> layers_on_map w').
  { intros Heq. unfold layers_on_map. now rewrite Heq. }
  destruct ev as [ms|value| | |id|id reply|id reply|e mode|lat lng name|];
    simpl in Hstep.
  - injection Hstep as <-. now apply Hsame.
  - injection Hstep as <-. apply Hsame.
    unfold Search_onInput, seq, clearTimeout, skip, Search_hideSearchResults,
      setTimeout, modify.
    destruct (Search.searchTimeout (search w));
      destruct (String.length (JS.trim value) <? 3)%nat; reflexivity.
  - injection Hstep as <-. now apply Hsame.
  - injection Hstep as <-. apply Hsame.
    unfold Search_onFocus, Search_showSearchResults, modify, skip.
    destruct (Search.currentResults (search w)); reflexivity.
  - destruct (Browser.timers (browser w) !! id) as [[due t]|]; [|discriminate].
    destruct (due <=? Browser.now (browser w))%nat; [|discriminate].
    injection Hstep as <-. apply Hsame. destruct t; reflexivity.
  - destruct (awaited id w) as [[|q vb]|]; try discriminate.
    injection Hstep as <-. apply Hsame. destruct reply; reflexivity.
  - destruct (awaited id w) as [[profile a b c d|]|]; try discriminate.
    injection Hstep as <-.
    eapply (layers_on_map_kept (settle id w));
      [reflexivity | apply route_side_getRoute_settled | exact Hinv].
  - injection Hstep as <-.
    eapply (layers_on_map_kept w);
      [reflexivity | apply route_side_changeTravelMode | exact Hinv].
  - injection Hstep as <-.
    eapply (layers_on_map_kept w);
      [reflexivity | apply route_side_setDestination | exact Hinv].
  - injection Hstep as <-.
    eapply (layers_on_map_kept w);
      [reflexivity | apply route_side_Routing_clearRoute | exact Hinv].
Qed.

Lemma step_tracked ev w w' :
  step ev w = Some w' -> search_timer_tracked w -> search_timer_tracked w'.
Proof.
  intros Hstep Htracked.
  destruct (is_input ev) eqn:Hev.
  - destruct ev; try discriminate Hev.
    destruct (step_input value w Htracked) as (w1 & Hstep1 & Htracked1 & _).
    rewrite Hstep in Hstep1. injection Hstep1 as <-. exact Htracked1.
  - now destruct (step_not_input ev w w' Hev Hstep Htracked).
Qed.

(** Every state the page reaches holds its layers on a map and names its
    pending search in [searchTimeout]. *)
Lemma reachable_invariants w :
  reachable w -> layers_on_map w /\ search_timer_tracked w.
Proof.
  intros (ls & m & p & es & Hm & Hrun).
  assert (Hinit : layers_on_map (init ls m p) /\ search_timer_tracked (init ls m p)).
  { split; [exact Hm|].
    intros id due q Hid. unfold search_timer in Hid. simpl in Hid. discriminate Hid. }
  revert Hrun Hinit. generalize (init ls m p). clear Hm.
  induction es as [|ev es IH]; intros w0 Hrun [Hlayers Htracked].
  - injection Hrun as <-. auto.
  - simpl in Hrun. destruct (step ev w0) as [w1|] eqn:Hstep; [|discriminate].
    apply (IH w1 Hrun). split.
    + eapply step_layers_on_map; eassumption.
    + eapply step_tracked; eassumption.
Qed.

End reachable_facts.

(* ------------------------------------------------------------------ *)
(** ** Clearing the route, changing the travel mode                    *)
(* ------------------------------------------------------------------ *)

Section clear_and_mode_facts.
Implicit Types (w : world).

(** [MapModule.clearRoute] by cases. *)
Lemma MapModule_clearRoute_on_map w :
  layers_on_map w ->
  MapModule_clearRoute w
  = (Normal,
     set_map_module (fun m =>
       MapModule.with_destinationMarker None (MapModule.with_routeLayer None m)) w).
Proof.
  intros Hinv. unfold layers_on_map in Hinv.
  unfold MapModule_clearRoute, seq, on_map, modify, skip, set_map_module.
  destruct w as [ls [mp um dm rl ul] rt sr pg ts br]; simpl in *.
  destruct mp as [v|].
  - destruct rl, dm; reflexivity.
  - destruct Hinv as [-> ->]; reflexivity.
Qed.

Lemma Routing_clearRoute_on_map w :
  layers_on_map w ->
  Routing_clearRoute w
  = (Normal,
     mk_world (storage w)
       (MapModule.mk (MapModule.map (map_module w))
          (MapModule.userMarker (map_module w)) None None
          (MapModule.userLocation (map_module w)))
       (Routing.mk None (Routing.travelMode (routing w)))
       (search w)
       (Page.with_panels true true (page w))
       (toasts w) (browser w)).
Proof.
  intros Hinv. unfold Routing_clearRoute, seq.
  unfold modify at 1.
  rewrite MapModule_clearRoute_on_map by exact Hinv.
  reflexivity.
Qed.

(** The user's position and marker survive [clearRoute], thrown or not. *)
Lemma Routing_clearRoute_user w :
  MapModule.userLocation (map_module (snd (Routing_clearRoute w)))
  = MapModule.userLocation (map_module w)
  /\ MapModule.userMarker (map_module (snd (Routing_clearRoute w)))
     = MapModule.userMarker (map_module w).
Proof.
  unfold Routing_clearRoute, MapModule_clearRoute, seq, on_map, modify, skip,
    set_map_module, set_routing, set_page.
  destruct w as [ls [mp um dm rl ul] rt sr pg ts br]; simpl.
  destruct rl, dm, mp; simpl; split; reflexivity.
Qed.

(** C7.  In every state [clearRoute] leaves the user's location and marker
    as they were.  In every state the page reaches (a layer is then held
    only while there is a map) it ends normally with the stored route, the
    drawn route and the destination marker all cleared.  When no route and
    no destination are active it ends normally and changes nothing, except
    that it hides the directions panel and the travel-mode selector if
    they were shown. *)
Theorem clearRoute_clears_route_and_destination_only w :
  (MapModule.userLocation (map_module (snd (Routing_clearRoute w)))
   = MapModule.userLocation (map_module w)
   /\ MapModule.userMarker (map_module (snd (Routing_clearRoute w)))
      = MapModule.userMarker (map_module w))
  /\ (reachable w -> layers_on_map w)
  /\ (layers_on_map w ->
      fst (Routing_clearRoute w) = Normal
      /\ Routing.currentRoute (routing (snd (Routing_clearRoute w))) = None
      /\ MapModule.routeLayer (map_module (snd (Routing_clearRoute w))) = None
      /\ MapModule.destinationMarker (map_module (snd (Routing_clearRoute w))) = None)
  /\ (nothing_to_clear w ->
      Routing_clearRoute w
      = (Normal, set_page (Page.with_panels true true) w))
  /\ (nothing_to_clear w ->
      Page.directions_panel_hidden (page w) = true ->
      Page.travel_mode_container_hidden (page w) = true ->
      Routing_clearRoute w = (Normal, w)).
Proof.
  assert (Hnoop : nothing_to_clear w ->
                  Routing_clearRoute w
                  = (Normal, set_page (Page.with_panels true true) w)).
  { intros (Hroute & Hlayer & Hmarker).
    rewrite Routing_clearRoute_on_map by (intros _; split; assumption).
    destruct w as [ls [mp um dm rl ul] [cr tm] sr pg ts br]; simpl in *.
    subst cr rl dm. reflexivity. }
  split; [apply Routing_clearRoute_user|].
  split; [intros Hreach; now apply reachable_invariants|].
  split; [|split; [exact Hnoop|]].
  - intros Hinv. rewrite Routing_clearRoute_on_map by exact Hinv.
    repeat split; reflexivity.
  - intros Hnothing Hdirections Hmode. rewrite (Hnoop Hnothing).
    destruct w as [ls mm rt sr [dp tp am rs tt srs sh rl] ts br]; simpl in *.
    subst dp tp. reflexivity.
Qed.

(** What the click on a travel-mode button does. *)
Lemma changeTravelMode_without_route w (e : Storage.env) (mode : string) :
  Routing.currentRoute (routing w) = None ->
  Routing_changeTravelMode e mode w
  = (Normal,
     mk_world (snd (Storage.setTravelMode e mode (storage w)))
       (map_module w) (Routing.mk None mode) (search w)
       (Page.with_active_mode (Some mode) (page w))
       (toasts w) (browser w)).
Proof.
  intros Hnone.
  unfold Routing_changeTravelMode, seq, modify, skip; simpl.
  rewrite Hnone. unfold set_storage, set_routing, set_page; simpl.
  now rewrite Hnone.
Qed.

Lemma changeTravelMode_with_route w (e : Storage.env) (mode : string)
  (r : Routing.endpoints) :
  Routing.currentRoute (routing w) = Some r ->
  Routing_changeTravelMode e mode w
  = (Normal,
     mk_world (snd (Storage.setTravelMode e mode (storage w)))
       (map_module w) (Routing.mk (Some r) mode) (search w)
       (Page.with_active_mode (Some mode) (page w))
       (toasts w ++ [("Calculating route...", info)])
       (Browser.mk (Browser.now (browser w)) (Browser.next_timer (browser w))
          (Browser.timers (browser w))
          (Browser.network (browser w)
           ++ [RouteRequest (default "car" (profiles mode))
                 (LatLng.lng (Routing.start r)) (LatLng.lat (Routing.start r))
                 (LatLng.lng (Routing.end_ r)) (LatLng.lat (Routing.end_ r))])
          ({[ length (Browser.network (browser w)) ]}
           ∪ Browser.pending (browser w)))).
Proof.
  intros Hsome.
  unfold Routing_changeTravelMode, seq. unfold modify at 1 2 3.
  cbv beta iota. simpl. rewrite Hsome.
  rewrite getRoute_request. simpl.
  destruct r as [[slat slng] [elat elng]]; reflexivity.
Qed.

(** C8.  With no route stored, a travel-mode change sends nothing, the
    second time as the first, and repeating it changes nothing once the
    mode is written; with a route stored, it sends one request between the
    stored endpoints, which stay stored, with the profile of the new
    mode. *)
Theorem changeTravelMode_recomputes_stored_route_only :
  (forall w e1 e2 mode,
      Routing.currentRoute (routing w) = None ->
      let w1 := snd (Routing_changeTravelMode e1 mode w) in
      let w2 := snd (Routing_changeTravelMode e2 mode w1) in
      Browser.network (browser w1) = Browser.network (browser w)
      /\ Browser.network (browser w2) = Browser.network (browser w1)
      /\ Browser.pending (browser w2) = Browser.pending (browser w)
      /\ Routing.currentRoute (routing w2) = None
      /\ (Storage.setItem_ok e1 = true -> w2 = w1))
  /\ (forall w e mode r,
      Routing.currentRoute (routing w) = Some r ->
      let w1 := snd (Routing_changeTravelMode e mode w) in
      Browser.network (browser w1)
      = Browser.network (browser w)
        ++ [RouteRequest (default "car" (profiles mode))
              (LatLng.lng (Routing.start r)) (LatLng.lat (Routing.start r))
              (LatLng.lng (Routing.end_ r)) (LatLng.lat (Routing.end_ r))]
      /\ Routing.currentRoute (routing w1) = Some r
      /\ Routing.travelMode (routing w1) = mode
      /\ (Storage.setItem_ok e = true ->
          Storage.getTravelMode (storage w1) = mode)).
Proof.
  split.
  - intros w e1 e2 mode Hnone w1 w2. subst w2 w1.
    rewrite (changeTravelMode_without_route w) by exact Hnone.
    rewrite changeTravelMode_without_route by reflexivity.
    simpl. repeat split; try reflexivity.
    intros Hok. unfold Storage.setTravelMode, Storage.set. rewrite Hok.
    destruct (Storage.setItem_ok e2); reflexivity.
  - intros w e mode r Hsome w1. subst w1.
    rewrite (changeTravelMode_with_route w e mode r) by exact Hsome.
    simpl. repeat split; try reflexivity.
    intros Hok. unfold Storage.setTravelMode, Storage.set. now rewrite Hok.
Qed.

End clear_and_mode_facts.

Section clear_and_mode_examples.
Import Scenario.

Lemma clearRoute_witness :
  exists w,
    routed = Some w
    /\ layers_on_map w
    /\ fst (Routing_clearRoute w) = Normal
    /\ Routing.currentRoute (routing (snd (Routing_clearRoute w))) = None
    /\ MapModule.routeLayer (map_module (snd (Routing_clearRoute w))) = None
    /\ MapModule.destinationMarker (map_module (snd (Routing_clearRoute w))) = None
    /\ Routing_clearRoute located
       = (Normal, set_page (Page.with_panels true true) located).
Proof.
  destruct routed as [w|] eqn:Hrouted; [|vm_compute in Hrouted; discriminate Hrouted].
  exists w. split; [reflexivity|].
  destruct (clearRoute_clears_route_and_destination_only w)
    as (_ & Hreach & Hclears & _).
  destruct (clearRoute_clears_route_and_destination_only located)
    as (_ & _ & _ & Hnoop & _).
  assert (Hlayers : layers_on_map w).
  { apply Hreach. eexists _, _, _, _. split; [|exact Hrouted].
    intros Hnone. discriminate Hnone. }
  split; [exact Hlayers|].
  destruct (Hclears Hlayers) as (H1 & H2 & H3 & H4).
  split; [exact H1|]. split; [exact H2|]. split; [exact H3|]. split; [exact H4|].
  apply Hnoop. unfold nothing_to_clear. auto.
Defined.

Lemma changeTravelMode_witness :
  Browser.network
    (browser (snd (Routing_changeTravelMode Examples.e2 "walking"
                     (snd (Routing_changeTravelMode Examples.e1 "walking" located)))))
  = []
  /\ Browser.network
       (browser (snd (Routing_changeTravelMode Examples.e1 "cycling" with_route)))
     = [RouteRequest "bike" (-0.1246) 51.5007 (-0.1278) 51.5074]%float.
Proof.
  destruct changeTravelMode_recomputes_stored_route_only as (Hnone & Hsome).
  split.
  - destruct (Hnone located Examples.e1 Examples.e2 "walking" eq_refl)
      as (H1 & H2 & _).
    cbv zeta in H2. rewrite H2, H1. reflexivity.
  - destruct (Hsome with_route Examples.e1 "cycling" _ eq_refl) as (H1 & _).
    exact H1.
Defined.

End clear_and_mode_examples.

(* ------------------------------------------------------------------ *)
(** ** Debounce and late answers                                       *)
(* ------------------------------------------------------------------ *)

Section debounce_facts.
Implicit Types (w : world) (es : list event).

Lemma init_tracked ls m p : search_timer_tracked (init ls m p).
Proof. intros id due q Hid. unfold search_timer in Hid. simpl in Hid. discriminate Hid. Qed.

Lemma forallb_app_true {A} (f : A -> bool) (l l' : list A) :
  forallb f (l ++ l') = true -> forallb f l = true /\ forallb f l' = true.
Proof. rewrite forallb_app. apply andb_true_iff. Qed.

(** An answer to a request that is awaited is applied when it comes. *)
Lemma settled_applied w (id : nat) (q : string) vb (data : list Search.result) :
  awaited id w = Some (SearchRequest q vb) ->
  exists w',
    step (SearchSettled id (Body data)) w = Some w'
    /\ results w' = (data, Some data)
    /\ Page.search_results_hidden (page w') = false.
Proof.
  intros Hawaited. simpl. rewrite Hawaited.
  eexists. split; [reflexivity|]. split; reflexivity.
Qed.

(** C2, as the code has it.  From the start of the page, when a second
    input follows a first one by less than 300 ms, whatever else happens
    around them, the search of the first is never sent: the only search
    request is for the second query, and the results stored and rendered
    are those of the start or the body of an answer to that request.  There
    is no check beyond that: the answer to any request that was sent is
    stored and rendered when it comes. *)
Theorem second_input_within_300ms_supersedes_first :
  (forall ls m p (q1 q2 : string) es0 es1 es2 w',
      forallb (fun ev => negb (is_input ev)) (es0 ++ es1 ++ es2) = true ->
      (elapsed es1 < 300)%nat ->
      run (es0 ++ Input q1 :: es1 ++ Input q2 :: es2) (init ls m p) = Some w' ->
      (search_queries (Browser.network (browser w')) = []
       \/ search_queries (Browser.network (browser w')) = [JS.trim q2])
      /\ (results w' = ([], Page.search_results p)
          \/ exists id vb data,
               In (SearchSettled id (Body data)) es2
               /\ Browser.network (browser w') !! id
                  = Some (SearchRequest (JS.trim q2) vb)
               /\ results w' = (data, Some data)))
  /\ (forall w id q vb data,
      awaited id w = Some (SearchRequest q vb) ->
      exists w',
        step (SearchSettled id (Body data)) w = Some w'
        /\ results w' = (data, Some data)
        /\ Page.search_results_hidden (page w') = false).
Proof.
  split; [|intros; eapply settled_applied; eassumption].
  intros ls m p q1 q2 es0 es1 es2 w' Hno Hgap Hrun.
  apply forallb_app_true in Hno as [Hno0 Hno].
  apply forallb_app_true in Hno as [Hno1 Hno2].
  (* before the first input *)
  rewrite run_app in Hrun.
  destruct (run es0 (init ls m p)) as [wa|] eqn:Hrun0; [|discriminate].
  destruct (run_nothing_due es0 _ _ Hno0 Hrun0 (init_tracked ls m p) eq_refl)
    as (Htracked_a & Hq_a & Hr_a & Htimers_a).
  { intros id due q Hid. unfold search_timer in Hid. simpl in Hid. discriminate Hid. }
  (* the first input *)
  destruct (step_input q1 wa Htracked_a)
    as (wb & Hstep_b & Htracked_b & Hnet_b & _ & Hnow_b & Hr_b & Htimers_b & _).
  rewrite run_cons, Hstep_b in Hrun.
  (* between the two inputs *)
  rewrite run_app in Hrun.
  destruct (run es1 wb) as [wc|] eqn:Hrun1; [|discriminate].
  destruct (run_nothing_due es1 _ _ Hno1 Hrun1 Htracked_b)
    as (Htracked_c & Hq_c & Hr_c & _).
  { now rewrite Hnet_b. }
  { intros id due q Hid. apply Htimers_b in Hid as (-> & _). lia. }
  (* the second input *)
  destruct (step_input q2 wc Htracked_c)
    as (wd & Hstep_d & Htracked_d & Hnet_d & _ & _ & Hr_d & Htimers_d & _).
  rewrite run_cons, Hstep_d in Hrun.
  (* after it *)
  destruct (run_one_query (JS.trim q2) es2 wd w' Hno2 Hrun)
    as ((_ & _ & Hsent) & _ & Hresults).
  { split; [exact Htracked_d|]. split.
    - intros id due q Hid. now apply Htimers_d in Hid as (_ & -> & _).
    - left. now rewrite Hnet_d. }
  split.
  - destruct Hsent as [Hempty | [Hone _]]; auto.
  - destruct Hresults as [Hsame | Hsettled]; [left | right; exact Hsettled].
    rewrite Hsame, Hr_d, Hr_c, Hr_b, Hr_a. reflexivity.
Qed.

(** C9, as the code has it.  An input that trims to fewer than three
    characters hides the results list and sends nothing; the results stay
    stored and rendered as they were; and in every state the page reaches
    the pending search is dropped, so that none is pending afterwards. *)
Theorem short_query_hides_results_without_request w (value : string) :
  (String.length (JS.trim value) < 3)%nat ->
  exists w',
    step (Input value) w = Some w'
    /\ Page.search_results_hidden (page w') = true
    /\ Browser.network (browser w') = Browser.network (browser w)
    /\ Browser.pending (browser w') = Browser.pending (browser w)
    /\ results w' = results w
    /\ (reachable w -> forall id due q, ~ search_timer w' id due q).
Proof.
  intros Hshort. eexists. split; [reflexivity|].
  unfold Search_onInput, seq.
  destruct (Nat.ltb_spec (String.length (JS.trim value)) 3) as [_|Hlong]; [|lia].
  destruct (Search.searchTimeout (search w)) as [old|] eqn:Hold;
    unfold clearTimeout, skip, Search_hideSearchResults, modify, results,
      search_timer; simpl;
    repeat (split; [reflexivity|]).
  - intros Hreach id due q. apply reachable_invariants in Hreach as [_ Htracked].
    rewrite lookup_delete.
    destruct (decide (old = id)) as [->|Hne]; [discriminate|].
    intros Hid. apply Htracked in Hid. congruence.
  - intros Hreach id due q Hid. apply reachable_invariants in Hreach as [_ Htracked].
    apply Htracked in Hid. congruence.
Qed.

End debounce_facts.

Section debounce_examples.
Import Scenario.

Lemma second_input_witness :
  exists w',
    run ([] ++ Input "Central" :: [Elapse 120]
            ++ Input "Central Park"
            :: [Elapse 300; Timeout 2%positive; SearchSettled 0 (Body park_results)])
        fresh = Some w'
    /\ (search_queries (Browser.network (browser w')) = []
        \/ search_queries (Browser.network (browser w')) = [JS.trim "Central Park"]).
Proof.
  destruct second_input_within_300ms_supersedes_first as (Hfirst & _).
  destruct (run ([] ++ Input "Central" :: [Elapse 120]
                    ++ Input "Central Park"
                    :: [Elapse 300; Timeout 2%positive; SearchSettled 0 (Body park_results)])
                fresh) as [w'|] eqn:Hrun; [|vm_compute in Hrun; discriminate Hrun].
  exists w'. split; [reflexivity|].
  refine (proj1 (Hfirst Storage.empty _ _ "Central" "Central Park"
                   [] [Elapse 120]
                   [Elapse 300; Timeout 2%positive; SearchSettled 0 (Body park_results)]
                   w' eq_refl _ Hrun)).
  simpl. lia.
Defined.

(** C2 as stated fails in its general part: the answer to "Central",
    coming after the answer to "Central Park", replaces it. *)
Lemma late_answer_overwrites :
  option_map
    (fun w => (search_queries (Browser.network (browser w)),
               results w,
               Page.search_results_hidden (page w)))
    (run late_answer fresh)
  = Some (["Central"; "Central Park"],
          (central_results, Some central_results),
          false)
  /\ central_results <> park_results.
Proof. split; [vm_compute; reflexivity | discriminate]. Qed.

Lemma short_query_witness :
  exists w',
    step (Input " a ") fresh = Some w'
    /\ Page.search_results_hidden (page w') = true
    /\ Browser.network (browser w') = Browser.network (browser fresh)
    /\ Browser.pending (browser w') = Browser.pending (browser fresh)
    /\ results w' = results fresh
    /\ (reachable fresh -> forall id due q, ~ search_timer w' id due q).
Proof.
  apply (short_query_hides_results_without_request fresh " a ").
  vm_compute. lia.
Defined.

(** C9 as stated fails: after "Ce" is typed the results of "Central" are
    still stored and rendered, only hidden, and entering the box shows them
    again. *)
Lemma short_query_keeps_results :
  option_map
    (fun w => (search_queries (Browser.network (browser w)),
               results w,
               Page.search_results_hidden (page w)))
    (run short_then_focus fresh)
  = Some (["Central"],
          (central_results, Some central_results),
          false)
  /\ central_results <> [].
Proof. split; [vm_compute; reflexivity | discriminate]. Qed.

End debounce_examples.

(* ------------------------------------------------------------------ *)
(** ** Reading the recent searches                                     *)
(* ------------------------------------------------------------------ *)

Section recent_read_facts.
Import Storage.

(** C10.  [getRecentSearches(n)] returns the first [n] entries of the list
    stored under the key of the recent searches (none when nothing is
    stored there), so at most [n] of them and a prefix of the stored list;
    without an argument it returns the first 10, which is all that
    [Search.updateRecentList] puts on the page, however many are stored. *)
Theorem getRecentSearches_is_prefix (ls : Storage.t) (n : nat) :
  getRecentSearches (Some (Z.of_nat n)) ls = take n (stored_recent ls)
  /\ (length (getRecentSearches (Some (Z.of_nat n)) ls) <= n)%nat
  /\ getRecentSearches (Some (Z.of_nat n)) ls `prefix_of` stored_recent ls
  /\ getRecentSearches None ls = take 10 (stored_recent ls)
  /\ (forall w,
        Page.recent_list (page (snd (Search_updateRecentList w)))
        = take 10 (stored_recent (storage w)))
  /\ (forall l,
        mapverse_recent_searches ls = Some l ->
        stored_recent ls = l
        /\ getRecentSearches (Some (Z.of_nat n)) ls = take n l
        /\ getRecentSearches None ls = take 10 l)
  /\ (mapverse_recent_searches ls = None ->
      stored_recent ls = []
      /\ getRecentSearches (Some (Z.of_nat n)) ls = []
      /\ getRecentSearches None ls = []).
Proof.
  assert (Hn : getRecentSearches (Some (Z.of_nat n)) ls = take n (stored_recent ls)).
  { unfold getRecentSearches, stored_recent. apply slice0_of_nat. }
  assert (H10 : forall ls', getRecentSearches None ls' = take 10 (stored_recent ls')).
  { intros ls'. unfold getRecentSearches, stored_recent.
    change 10 with (Z.of_nat 10). apply slice0_of_nat. }
  split; [exact Hn|]. rewrite Hn.
  split; [rewrite length_take; lia|].
  split; [apply prefix_take|].
  split; [apply H10|].
  split; [intros w; unfold Search_updateRecentList, modify; simpl; apply H10|].
  rewrite H10. unfold stored_recent, get.
  split.
  - intros l ->. auto.
  - intros ->. rewrite !take_nil. auto.
Qed.

End recent_read_facts.

Section recent_read_examples.
Import Storage Examples.

Lemma getRecentSearches_witness :
  getRecentSearches (Some (Z.of_nat 2))
    (Storage.mk None
       (Some [recentItem e2 work; recentItem e1 home; recentItem e1 nyc])
       (Some "walking"))
  = [recentItem e2 work; recentItem e1 home]
  /\ length (getRecentSearches None (addRecentSearches fifty_one Storage.empty))
     = 10%nat.
Proof.
  split.
  - destruct (getRecentSearches_is_prefix
                (Storage.mk None
                   (Some [recentItem e2 work; recentItem e1 home; recentItem e1 nyc])
                   (Some "walking")) 2) as (_ & _ & _ & _ & _ & Hstored & _).
    destruct (Hstored _ eq_refl) as (_ & Htwo & _). exact Htwo.
  - destruct (getRecentSearches_is_prefix
                (addRecentSearches fifty_one Storage.empty) 0)
      as (_ & _ & _ & Hten & _).
    rewrite Hten. vm_compute. reflexivity.
Defined.

End recent_read_examples.

(* ------------------------------------------------------------------ *)
(** ** Distances                                                        *)
(* ------------------------------------------------------------------ *)

Section distance_facts.
Variables (Math_sin Math_cos Math_sqrt : JS.number -> JS.number)
          (Math_atan2 : JS.number -> JS.number -> JS.number).

Lemma is_nan_Prim2SF (x : JS.number) :
  PrimFloat.is_nan x = true -> Prim2SF x = S754_nan.
Proof.
  unfold PrimFloat.is_nan. rewrite FloatAxioms.eqb_spec.
  destruct (Prim2SF x) as [s| s| |s m e]; try reflexivity; intros Hnan; exfalso.
  - destruct s; discriminate Hnan.
  - destruct s; discriminate Hnan.
  - unfold SFeqb, SFcompare in Hnan.
    rewrite Z.compare_refl, Pos.compare_refl in Hnan.
    destruct s; discriminate Hnan.
Qed.

(** What [toFixed] rounds to: the integer closest to the exact value of
    [m * 2^e * 10^f], the larger one of two that are equally close. *)
Lemma scaled_nearest_rounds (m : positive) (e : Z) (f : nat) :
  let n := JS.scaled_nearest m e f in
  (0 <= e -> n = Zpos m * 10 ^ Z.of_nat f * 2 ^ e)
  /\ (e < 0 ->
      2 * 2 ^ (- e) * n <= 2 * (Zpos m * 10 ^ Z.of_nat f) + 2 ^ (- e)
      /\ 2 * (Zpos m * 10 ^ Z.of_nat f) + 2 ^ (- e) < 2 * 2 ^ (- e) * (n + 1)).
Proof.
  intros n. subst n. unfold JS.scaled_nearest. split.
  - intros He. destruct (Z.leb_spec 0 e) as [_|Hlt]; [reflexivity | lia].
  - intros He. destruct (Z.leb_spec 0 e) as [Hle|_]; [lia|].
    assert (Hpow : 0 < 2 ^ (- e)) by (apply Z.pow_pos_nonneg; lia).
    replace (2 ^ (- e + 1)) with (2 * 2 ^ (- e))
      by (rewrite Z.pow_add_r by lia; lia).
    split.
    + apply Z.mul_div_le. lia.
    + apply Z.mul_succ_div_gt. lia.
Qed.

Lemma toFixed_finite (x : JS.number) (f : nat) (m : positive) (e : Z) :
  Prim2SF x = S754_finite false m e ->
  (1e21 <=? PrimFloat.abs x)%float = false ->
  JS.toFixed x f
  = Some (JS.with_fraction (JS.digits (JS.scaled_nearest m e f)) f).
Proof.
  intros Hx Hsmall. unfold JS.toFixed. now rewrite Hx, Hsmall.
Qed.

(** C3.  [calculateDistance] displays the haversine distance of the
    specification, computed in doubles with the [Math] functions of the
    implementation: in meters, to the integer, when the distance is below
    1 km, and in kilometers, to one decimal, when it is not.  To the
    integer and to one decimal are [toFixed(0)] and [toFixed(1)]: for a
    positive value the closest integer number of meters, or of tenths of a
    kilometer, the larger of two that are equally close.  A distance that
    is NaN is not below 1 and is displayed as "NaN km away".  The
    displayed text is a function of the four coordinates. *)
Theorem calculateDistance_displays_haversine (lat1 lng1 lat2 lng2 : JS.number) :
  let d := haversine Math_sin Math_cos Math_sqrt Math_atan2 lat1 lng1 lat2 lng2 in
  let displayed :=
    MapModule_calculateDistance Math_sin Math_cos Math_sqrt Math_atan2
      lat1 lng1 lat2 lng2 in
  ((d <? 1)%float = true ->
   displayed = JS.text_app (JS.toFixed (d * 1000)%float 0) (Some " m away")
   /\ forall m e,
        Prim2SF (d * 1000)%float = S754_finite false m e ->
        (1e21 <=? PrimFloat.abs (d * 1000))%float = false ->
        displayed
        = Some (JS.digits (JS.scaled_nearest m e 0) ++ " m away")%string)
  /\ ((d <? 1)%float = false ->
      displayed = JS.text_app (JS.toFixed d 1) (Some " km away")
      /\ forall m e,
           Prim2SF d = S754_finite false m e ->
           (1e21 <=? PrimFloat.abs d)%float = false ->
           displayed
           = Some (JS.with_fraction (JS.digits (JS.scaled_nearest m e 1)) 1
                   ++ " km away")%string)
  /\ (PrimFloat.is_nan d = true -> displayed = Some "NaN km away").
Proof.
  intros d displayed.
  assert (Hcode :
    displayed
    = if (d <? 1)%float
      then JS.text_app (JS.toFixed (d * 1000)%float 0) (Some " m away")
      else JS.text_app (JS.toFixed d 1) (Some " km away")) by reflexivity.
  split; [|split].
  - intros Hbelow. rewrite Hcode, Hbelow. split; [reflexivity|].
    intros m e Hx Hsmall. now rewrite (toFixed_finite _ 0 m e Hx Hsmall).
  - intros Hnot. rewrite Hcode, Hnot. split; [reflexivity|].
    intros m e Hx Hsmall. now rewrite (toFixed_finite _ 1 m e Hx Hsmall).
  - intros Hnan. apply is_nan_Prim2SF in Hnan. rewrite Hcode.
    rewrite FloatAxioms.ltb_spec, Hnan. cbn [SFltb SFcompare].
    unfold JS.toFixed. rewrite Hnan. reflexivity.
Qed.

End distance_facts.

Section distance_examples.

(** The two forms of the display, evaluated for the coordinates of the
    specification with stand-ins for the [Math] functions that make the
    angle [c] 0.0001 and 0.001 radians: 0.6371 km and 6.371 km. *)
Lemma calculateDistance_witness :
  MapModule_calculateDistance (fun _ => 0%float) (fun _ => 1%float)
    PrimFloat.sqrt (fun _ _ => 0.00005%float)
    40.730610%float (-73.935242)%float 40.758896%float (-73.985130)%float
  = Some "637 m away"
  /\ MapModule_calculateDistance (fun _ => 0%float) (fun _ => 1%float)
       PrimFloat.sqrt (fun _ _ => 0.0005%float)
       40.730610%float (-73.935242)%float 40.758896%float (-73.985130)%float
     = Some "6.4 km away".
Proof.
  split.
  - destruct (calculateDistance_displays_haversine
                (fun _ => 0%float) (fun _ => 1%float)
                PrimFloat.sqrt (fun _ _ => 0.00005%float)
                40.730610%float (-73.935242)%float
                40.758896%float (-73.985130)%float) as (Hmeters & _).
    destruct Hmeters as [Hdisplayed _]; [vm_compute; reflexivity|].
    rewrite Hdisplayed. vm_compute. reflexivity.
  - destruct (calculateDistance_displays_haversine
                (fun _ => 0%float) (fun _ => 1%float)
                PrimFloat.sqrt (fun _ _ => 0.0005%float)
                40.730610%float (-73.935242)%float
                40.758896%float (-73.985130)%float) as (_ & Hkm & _).
    destruct Hkm as [Hdisplayed _]; [vm_compute; reflexivity|].
    rewrite Hdisplayed. vm_compute. reflexivity.
Defined.

End distance_examples.

(* ================================================================== *)
(** * More about Storage                                               *)
(* ================================================================== *)

Section storage_more.
Import Storage.
Implicit Types (ls : Storage.t) (e : env).

Lemma filter_filter_same {A} (p : A -> bool) (l : list A) :
  List.filter p (List.filter p l) = List.filter p l.
Proof.
  apply filter_keeps_all, List.Forall_forall.
  intros x Hx. now apply filter_In in Hx.
Qed.

(** X1.  [removeFavorite] on an id that no favorite has changes nothing in the
    list, and removing an id twice is removing it once; a refused write
    changes nothing at all. *)
Theorem removeFavorite_absent_or_twice :
  (forall e id ls,
      setItem_ok e = true ->
      (forall fav, In fav (stored_favorites ls) -> Favorite.id fav <> id) ->
      stored_favorites (snd (removeFavorite e id ls)) = stored_favorites ls)
  /\ (forall e e' id ls,
      setItem_ok e = true -> setItem_ok e' = true ->
      stored_favorites (snd (removeFavorite e' id (snd (removeFavorite e id ls))))
      = stored_favorites (snd (removeFavorite e id ls)))
  /\ (forall e id ls,
      setItem_ok e = false -> removeFavorite e id ls = (false, ls)).
Proof.
  split; [|split].
  - intros e id ls Hok Habsent.
    rewrite removeFavorite_stored by assumption.
    apply filter_keeps_all, List.Forall_forall.
    intros fav Hin. apply negb_true_iff, Z.eqb_neq. now apply Habsent.
  - intros e e' id ls Hok Hok'.
    rewrite (removeFavorite_stored e') by assumption.
    rewrite removeFavorite_stored by assumption.
    apply filter_filter_same.
  - intros e id ls Hno. unfold removeFavorite, set. now rewrite Hno.
Qed.

(** X2.  Adding a favorite whose id no stored favorite has, then removing that
    id, gives the stored list back. *)
Theorem addFavorite_then_removeFavorite e e' (location : location) ls :
  setItem_ok e = true -> setItem_ok e' = true ->
  ~ In (Date_now e) (map Favorite.id (stored_favorites ls)) ->
  stored_favorites
    (snd (removeFavorite e' (Date_now e) (snd (addFavorite e location ls))))
  = stored_favorites ls.
Proof.
  intros Hok Hok' Hfresh.
  rewrite removeFavorite_stored by assumption.
  rewrite addFavorite_stored by assumption.
  simpl. rewrite Z.eqb_refl. simpl.
  apply filter_keeps_all, List.Forall_forall.
  intros fav Hin. apply negb_true_iff, Z.eqb_neq.
  intros Heq. apply Hfresh. rewrite <- Heq. now apply in_map.
Qed.

(** X3.  Over any run of [addFavorite] calls, each accepted call puts one entry
    in front and each refused call none: nothing is ever evicted from the
    favorites. *)
Theorem addFavorites_grow_without_bound (calls : list (env * location)) :
  forall ls,
    stored_favorites (addFavorites calls ls)
    = rev (map (fun c => favorite (fst c) (snd c)) (accepted_calls calls))
      ++ stored_favorites ls.
Proof.
  induction calls as [|[e location] cs IH]; intros ls; [reflexivity|].
  unfold addFavorites in *. simpl. rewrite IH.
  unfold accepted_calls. simpl.
  destruct (setItem_ok e) eqn:Hok.
  - rewrite addFavorite_stored by assumption.
    simpl. now rewrite <- app_assoc.
  - unfold addFavorite, set. rewrite Hok. reflexivity.
Qed.

End storage_more.

Section storage_more_examples.
Import Storage Examples.

Lemma removeFavorite_absent_witness :
  stored_favorites
    (snd (removeFavorite e2 42 (snd (addFavorite e1 home Storage.empty))))
  = stored_favorites (snd (addFavorite e1 home Storage.empty)).
Proof.
  apply (proj1 removeFavorite_absent_or_twice); [reflexivity|].
  intros fav [<-|[]]. discriminate.
Defined.

Lemma addFavorite_then_removeFavorite_witness :
  stored_favorites
    (snd (removeFavorite e2 (Date_now e2)
            (snd (addFavorite e2 work (snd (addFavorite e1 home Storage.empty))))))
  = stored_favorites (snd (addFavorite e1 home Storage.empty)).
Proof.
  apply addFavorite_then_removeFavorite; [reflexivity|reflexivity|].
  intros [Heq|[]]. discriminate Heq.
Defined.

End storage_more_examples.

Section storage_invariants.
Import Storage.
Implicit Types (ls : Storage.t) (e : env) (l : list Recent.t).

Lemma Forall_of_sublist {A} (P : A -> Prop) (l' l : list A) :
  sublist l' l -> Forall P l -> Forall P l'.
Proof.
  induction 1 as [|x l1 l2 _ IH|x l1 l2 _ IH]; intros Hall.
  - constructor.
  - apply Forall_cons in Hall as [Hx Hall]. constructor; auto.
  - apply Forall_cons in Hall as [_ Hall]. auto.
Qed.

Lemma places_distinct_sublist l' l :
  sublist l' l -> places_distinct l -> places_distinct l'.
Proof.
  unfold places_distinct.
  induction 1 as [|x l1 l2 Hsub IH|x l1 l2 Hsub IH]; intros Hl.
  - constructor.
  - inversion Hl as [|a l0 Hx Hrest]; subst. constructor; [|auto].
    eapply Forall_of_sublist; eassumption.
  - inversion Hl as [|a l0 Hx Hrest]; subst. auto.
Qed.

Lemma addRecentSearch_places_distinct e (search : location) ls :
  places_distinct (stored_recent ls) ->
  places_distinct (stored_recent (snd (addRecentSearch e search ls))).
Proof.
  intros Hold. destruct (setItem_ok e) eqn:Hok.
  - rewrite addRecentSearch_stored by assumption.
    constructor.
    + eapply Forall_impl;
        [apply Forall_take, (elsewhere_Forall search)|].
      intros older Holder. unfold newer_elsewhere, recentItem, JS.JSON_number.
      simpl. destruct (PrimFloat.is_finite (lat search)); [|exact I].
      destruct (PrimFloat.is_finite (lng search)); [|exact I].
      unfold same_place in Holder |- *.
      now rewrite !json_strict_eq_stored.
    + eapply places_distinct_sublist; [|exact Hold].
      etransitivity; [apply sublist_take|].
      etransitivity; [apply filter_sublist|]. apply sublist_take.
  - now rewrite addRecentSearch_refused.
Qed.

(** X4.  Once no two stored recent searches are at the same place, no run of
    [addRecentSearch] calls, accepted or refused, brings two to the same
    place; so from an empty list there never are two. *)
Theorem recent_places_stay_distinct (calls : list (env * location)) :
  (forall ls,
      places_distinct (stored_recent ls) ->
      places_distinct (stored_recent (addRecentSearches calls ls)))
  /\ places_distinct (stored_recent (addRecentSearches calls Storage.empty)).
Proof.
  assert (Hrun : forall ls,
            places_distinct (stored_recent ls) ->
            places_distinct (stored_recent (addRecentSearches calls ls))).
  { induction calls as [|[e search] cs IH]; intros ls Hls; [exact Hls|].
    unfold addRecentSearches in *. simpl.
    apply IH. now apply addRecentSearch_places_distinct. }
  split; [exact Hrun|]. apply Hrun. constructor.
Qed.

(** X5.  A negative limit does not mean "none": [getRecentSearches(-k)] returns
    the stored list without its last [k] entries; the limit 0 returns
    nothing. *)
Theorem getRecentSearches_negative_limit ls (k : nat) :
  (0 < k)%nat ->
  getRecentSearches (Some (- Z.of_nat k)) ls
  = take (length (stored_recent ls) - k) (stored_recent ls)
  /\ getRecentSearches (Some 0) ls = [].
Proof.
  intros Hk. unfold getRecentSearches, stored_recent, JS.slice0. split.
  - destruct (Z.ltb_spec (- Z.of_nat k) 0) as [_|Hge]; [|lia].
    f_equal. lia.
  - simpl. rewrite Z.min_l by lia. reflexivity.
Qed.

(** X6.  The travel mode that is written is the one read back; without a
    stored mode the mode is "driving"; a refused write keeps the mode that
    was stored; and the mode stored by a click on a travel-mode button is
    the one in force when the page starts again. *)
Theorem travel_mode_round_trip :
  (forall e (mode : string) ls,
      setItem_ok e = true ->
      getTravelMode (snd (setTravelMode e mode ls)) = mode)
  /\ (forall e (mode : string) ls,
      setItem_ok e = false ->
      getTravelMode (snd (setTravelMode e mode ls)) = getTravelMode ls)
  /\ (forall ls, mapverse_travel_mode ls = None -> getTravelMode ls = "driving")
  /\ (forall w e (mode : string) m p,
      setItem_ok e = true ->
      Routing.travelMode
        (routing (init (storage (snd (Routing_changeTravelMode e mode w))) m p))
      = mode).
Proof.
  split; [|split; [|split]].
  - intros e mode ls Hok. unfold setTravelMode, set. now rewrite Hok.
  - intros e mode ls Hno. unfold setTravelMode, set. now rewrite Hno.
  - intros ls Hnone. unfold getTravelMode. now rewrite Hnone.
  - intros w e mode m p Hok.
    assert (Hstored : Storage.getTravelMode
                        (storage (snd (Routing_changeTravelMode e mode w))) = mode).
    { destruct (Routing.currentRoute (routing w)) as [r|] eqn:Hroute.
      - rewrite (changeTravelMode_with_route w e mode r) by exact Hroute.
        simpl. unfold setTravelMode, set. now rewrite Hok.
      - rewrite changeTravelMode_without_route by exact Hroute.
        simpl. unfold setTravelMode, set. now rewrite Hok. }
    exact Hstored.
Qed.

(** X7.  Each operation writes its own key only: the favorites operations
    leave the recent searches and the travel mode as stored, the
    recent-search operations leave the favorites and the travel mode, and
    setting the travel mode leaves both lists. *)
Theorem storage_keys_independent e ls :
  (forall location,
      mapverse_recent_searches (snd (addFavorite e location ls))
      = mapverse_recent_searches ls
      /\ mapverse_travel_mode (snd (addFavorite e location ls))
         = mapverse_travel_mode ls)
  /\ (forall id,
      mapverse_recent_searches (snd (removeFavorite e id ls))
      = mapverse_recent_searches ls
      /\ mapverse_travel_mode (snd (removeFavorite e id ls))
         = mapverse_travel_mode ls)
  /\ (forall search,
      mapverse_favorites (snd (addRecentSearch e search ls))
      = mapverse_favorites ls
      /\ mapverse_travel_mode (snd (addRecentSearch e search ls))
         = mapverse_travel_mode ls)
  /\ (mapverse_favorites (snd (clearRecentSearches e ls)) = mapverse_favorites ls
      /\ mapverse_travel_mode (snd (clearRecentSearches e ls))
         = mapverse_travel_mode ls)
  /\ (forall mode,
      mapverse_favorites (snd (setTravelMode e mode ls)) = mapverse_favorites ls
      /\ mapverse_recent_searches (snd (setTravelMode e mode ls))
         = mapverse_recent_searches ls).
Proof.
  unfold addFavorite, removeFavorite, addRecentSearch, clearRecentSearches,
    setTravelMode, set.
  destruct (setItem_ok e); repeat split; reflexivity.
Qed.

End storage_invariants.

Section storage_invariants_examples.
Import Storage Examples.

Lemma getRecentSearches_negative_witness :
  getRecentSearches (Some (- Z.of_nat 1))
    (snd (addRecentSearch e2 work (snd (addRecentSearch e1 nyc Storage.empty))))
  = [recentItem e2 work]
  /\ getRecentSearches (Some 0)
       (snd (addRecentSearch e2 work (snd (addRecentSearch e1 nyc Storage.empty))))
     = [].
Proof.
  destruct (getRecentSearches_negative_limit
              (snd (addRecentSearch e2 work (snd (addRecentSearch e1 nyc Storage.empty))))
              1) as [Hminus Hzero]; [lia|].
  split; [|exact Hzero].
  rewrite Hminus. reflexivity.
Defined.

End storage_invariants_examples.

(* ================================================================== *)
(** * More about routing                                               *)
(* ================================================================== *)

Section display_facts.
Implicit Types (w : world) (a b : action).

Lemma display_only_refl w : display_only w w.
Proof. constructor; reflexivity. Qed.

Lemma display_only_trans w1 w2 w3 :
  display_only w1 w2 -> display_only w2 w3 -> display_only w1 w3.
Proof. intros [] []. constructor; congruence. Qed.

Lemma displays_skip : displays skip.
Proof. intros w. apply display_only_refl. Qed.

Lemma displays_throw : displays throw.
Proof. intros w. apply display_only_refl. Qed.

Lemma displays_seq a b : displays a -> displays b -> displays (a ;; b).
Proof.
  intros Ha Hb w. unfold seq.
  specialize (Ha w). destruct (a w) as [[|] w']; simpl in *; [|exact Ha].
  eapply display_only_trans; [exact Ha | apply Hb].
Qed.

Lemma displays_try_catch a b : displays a -> displays b -> displays (try_catch a b).
Proof.
  intros Ha Hb w. unfold try_catch.
  specialize (Ha w). destruct (a w) as [[|] w']; simpl in *; [exact Ha|].
  eapply display_only_trans; [exact Ha | apply Hb].
Qed.

Lemma displays_on_map a : displays a -> displays (on_map a).
Proof.
  intros Ha w. unfold on_map.
  destruct (MapModule.map (map_module w)); [apply Ha | apply display_only_refl].
Qed.

Lemma displays_showToast message type : displays (UI_showToast message type).
Proof. intros w. constructor; reflexivity. Qed.

Lemma displays_set_page f : displays (modify (set_page f)).
Proof. intros w. constructor; reflexivity. Qed.

Lemma displays_with_routeLayer r :
  displays (modify (set_map_module (MapModule.with_routeLayer r))).
Proof. intros w. constructor; reflexivity. Qed.

Lemma displays_with_map v :
  displays (modify (set_map_module (MapModule.with_map v))).
Proof. intros w. constructor; reflexivity. Qed.

Lemma displays_drawRoute coordinates : displays (MapModule_drawRoute coordinates).
Proof.
  unfold MapModule_drawRoute.
  apply displays_seq.
  { intros w. destruct (MapModule.routeLayer (map_module w));
      [apply displays_on_map, displays_skip | apply displays_skip]. }
  apply displays_seq; [apply displays_on_map, displays_with_routeLayer|].
  apply displays_on_map.
  destruct (fits coordinates); [apply displays_with_map | apply displays_throw].
Qed.

Lemma displays_displayRoute route : displays (Routing_displayRoute route).
Proof.
  unfold Routing_displayRoute.
  destruct (Route.coordinates route); [|apply displays_throw].
  apply displays_seq; [apply displays_drawRoute|].
  apply displays_seq.
  { intros w. unfold Routing_displayRouteSummary. apply displays_set_page. }
  apply displays_seq.
  { destruct (first_leg_steps route) as [steps|]; [|apply displays_throw].
    unfold Routing_displayTurnByTurn.
    destruct steps as [steps|]; [|apply displays_throw].
    destruct (turn_instructions steps);
      [apply displays_set_page | apply displays_throw]. }
  apply displays_seq; [apply displays_set_page | apply displays_showToast].
Qed.

Lemma displays_getRoute_settled reply : displays (Routing_getRoute_settled reply).
Proof.
  unfold Routing_getRoute_settled.
  apply displays_try_catch; [|apply displays_showToast].
  destruct reply as [|data]; [apply displays_throw|].
  destruct (no_route_found data); [apply displays_throw|].
  destruct (Reply.routes data) as [[|route rest]|]; try apply displays_throw.
  apply displays_displayRoute.
Qed.

(** X8.  Whatever the routing service answers, handling the answer sends no
    request (no retry) and sets or clears no timer of the search box; it
    leaves the stored endpoints, the travel mode, the storage, the search
    state, the user's location and marker and the destination marker as
    they were.  Only the request stops being awaited.  (The timer by which
    a toast is taken off the page again is no part of the timer table
    here.) *)
Theorem route_reply_only_displays w (id : nat) (reply : fetched Reply.t) w' :
  step (RouteSettled id reply) w = Some w' ->
  Browser.network (browser w') = Browser.network (browser w)
  /\ Browser.timers (browser w') = Browser.timers (browser w)
  /\ Browser.pending (browser w') = Browser.pending (browser w) ∖ {[ id ]}
  /\ routing w' = routing w
  /\ storage w' = storage w
  /\ search w' = search w
  /\ MapModule.userLocation (map_module w') = MapModule.userLocation (map_module w)
  /\ MapModule.userMarker (map_module w') = MapModule.userMarker (map_module w)
  /\ MapModule.destinationMarker (map_module w')
     = MapModule.destinationMarker (map_module w).
Proof.
  intros Hstep. simpl in Hstep.
  destruct (awaited id w) as [[profile a b c d|]|]; try discriminate.
  injection Hstep as <-.
  destruct (displays_getRoute_settled reply (settle id w))
    as [Hst Hrt Hsr Hbr Hul Hum Hdm].
  rewrite Hst, Hrt, Hsr, Hbr, Hul, Hum, Hdm.
  repeat split; reflexivity.
Qed.

End display_facts.

Section route_reply_facts.
Implicit Types (w : world).

Lemma seq_normal (a b : action) w w1 :
  a w = (Normal, w1) -> (a ;; b)%action w = b w1.
Proof. intros H. unfold seq. now rewrite H. Qed.

Lemma seq_thrown (a b : action) w w1 :
  a w = (Thrown, w1) -> (a ;; b)%action w = (Thrown, w1).
Proof. intros H. unfold seq. now rewrite H. Qed.

Lemma route_found (data : Reply.t) (route : Route.t) (rest : list Route.t) :
  Reply.code data = Some "Ok" ->
  Reply.routes data = Some (route :: rest) ->
  no_route_found data = false.
Proof.
  intros Hcode Hroutes. unfold no_route_found. now rewrite Hcode, Hroutes.
Qed.

(** X9.  A route that cannot be drawn changes nothing: when the first route of
    the answer has no geometry, or when no map is loaded, the answer is
    reported as a failure and everything else stays as it was. *)
Theorem route_reply_not_drawn w (data : Reply.t) (route : Route.t)
  (rest : list Route.t) :
  Reply.code data = Some "Ok" ->
  Reply.routes data = Some (route :: rest) ->
  Route.coordinates route = None \/ MapModule.map (map_module w) = None ->
  Routing_getRoute_settled (Body data) w
  = (Normal, set_toasts (fun l => l ++ [("Failed to calculate route", error)]) w).
Proof.
  intros Hcode Hroutes Hundrawn.
  unfold Routing_getRoute_settled, try_catch.
  rewrite (route_found data route rest Hcode Hroutes), Hroutes.
  unfold Routing_displayRoute.
  destruct (Route.coordinates route) as [coords|]; [|reflexivity].
  destruct Hundrawn as [Hnone|Hmap]; [discriminate Hnone|].
  unfold MapModule_drawRoute, seq, on_map, skip, UI_showToast, set_toasts.
  destruct w as [ls [mp um dm rl ul] rt sr pg ts br]; simpl in Hmap |- *.
  subst mp. destruct rl; reflexivity.
Qed.

(** X10.  [displayRoute] is not atomic.  With a map and a path that can be
    fitted (it has a point and its coordinates are finite), when the steps
    of the first leg cannot be read (no leg, no steps, or a step without
    maneuver) the new path is drawn, the view fitted and the summary
    replaced, while the turn list and the directions panel stay as they
    were and the failure is reported.  With a path that cannot be fitted
    (it is empty, or one of its coordinates is not finite) the drawn route
    is replaced by that path, and nothing else changes but the report of
    the failure: the view, the summary, the turn list and the panels are
    as before. *)
Theorem route_reply_partly_displayed w (v : MapModule.view) (data : Reply.t)
  (route : Route.t) (rest : list Route.t)
  (coordinates : list (JS.number * JS.number)) :
  MapModule.map (map_module w) = Some v ->
  Reply.code data = Some "Ok" ->
  Reply.routes data = Some (route :: rest) ->
  Route.coordinates route = Some coordinates ->
  let w' := snd (Routing_getRoute_settled (Body data) w) in
  (fits coordinates = true ->
   usable_steps route = None ->
   MapModule.routeLayer (map_module w') = Some (drawn_path coordinates)
   /\ MapModule.map (map_module w')
      = Some (MapModule.FitBounds (drawn_path coordinates))
   /\ (exists s, Page.route_summary (page w') = Some s)
   /\ Page.turn_by_turn (page w') = Page.turn_by_turn (page w)
   /\ Page.directions_panel_hidden (page w')
      = Page.directions_panel_hidden (page w)
   /\ toasts w' = toasts w ++ [("Failed to calculate route", error)])
  /\ (fits coordinates = false ->
      MapModule.routeLayer (map_module w') = Some (drawn_path coordinates)
      /\ MapModule.map (map_module w') = Some v
      /\ page w' = page w
      /\ toasts w' = toasts w ++ [("Failed to calculate route", error)]).
Proof.
  intros Hmap Hcode Hroutes Hcoords w'. subst w'.
  unfold Routing_getRoute_settled, try_catch.
  rewrite (route_found data route rest Hcode Hroutes), Hroutes.
  unfold Routing_displayRoute. rewrite Hcoords.
  fold (drawn_path coordinates).
  split.
  - intros Hfits Hsteps.
    erewrite seq_normal;
      [|apply (drawRoute_fits w v); [exact Hmap|];
        unfold drawn_path; rewrite fits_swapped; exact Hfits].
    erewrite seq_normal; [|reflexivity].
    erewrite seq_thrown.
    2:{ unfold usable_steps in Hsteps.
        destruct (first_leg_steps route) as [[steps|]|]; [|reflexivity..].
        unfold Routing_displayTurnByTurn. rewrite Hsteps. reflexivity. }
    cbn. repeat split; try reflexivity. eexists; reflexivity.
  - intros Hfits.
    erewrite seq_thrown;
      [|apply (drawRoute_unfit w v); [exact Hmap|];
        unfold drawn_path; rewrite fits_swapped; exact Hfits].
    cbn. rewrite Hmap. repeat split; reflexivity.
Qed.

(** X11.  A route with a path that can be fitted and readable steps
    replaces the displayed route wholesale: the path of the first route of
    the answer is drawn (each [[lng, lat]] pair as [[lat, lng]]) and fitted
    to the view, the summary and the turn list are those of that route,
    the icon of the summary being [modeIcons[travelMode] || car], the
    directions panel is shown and the success reported; further routes in
    the answer are not used. *)
Theorem route_reply_displayed w (v : MapModule.view) (data : Reply.t)
  (route : Route.t) (rest : list Route.t)
  (coordinates : list (JS.number * JS.number))
  (instructions : list Page.instruction) :
  MapModule.map (map_module w) = Some v ->
  Reply.code data = Some "Ok" ->
  Reply.routes data = Some (route :: rest) ->
  Route.coordinates route = Some coordinates ->
  fits coordinates = true ->
  usable_steps route = Some instructions ->
  exists w',
    Routing_getRoute_settled (Body data) w = (Normal, w')
    /\ MapModule.routeLayer (map_module w') = Some (drawn_path coordinates)
    /\ MapModule.map (map_module w')
       = Some (MapModule.FitBounds (drawn_path coordinates))
    /\ (exists s,
          Page.route_summary (page w') = Some s
          /\ Page.icon s
             = default Page.car_icon (modeIcons (Routing.travelMode (routing w))))
    /\ Page.turn_by_turn (page w') = instructions
    /\ Page.directions_panel_hidden (page w') = false
    /\ toasts w' = toasts w ++ [("Route calculated", success)].
Proof.
  intros Hmap Hcode Hroutes Hcoords Hfits Hsteps.
  unfold Routing_getRoute_settled, try_catch.
  rewrite (route_found data route rest Hcode Hroutes), Hroutes.
  unfold Routing_displayRoute. rewrite Hcoords.
  fold (drawn_path coordinates).
  erewrite seq_normal;
    [|apply (drawRoute_fits w v); [exact Hmap|];
      unfold drawn_path; rewrite fits_swapped; exact Hfits].
  erewrite seq_normal; [|reflexivity].
  unfold usable_steps in Hsteps.
  destruct (first_leg_steps route) as [[steps|]|]; try discriminate Hsteps.
  erewrite seq_normal.
  2:{ unfold Routing_displayTurnByTurn. rewrite Hsteps. reflexivity. }
  eexists. split; [reflexivity|]. cbn.
  repeat split; try reflexivity.
  eexists. split; [reflexivity|]. cbn.
  destruct (modeIcons (Routing.travelMode (routing w))); reflexivity.
Qed.

End route_reply_facts.

Section route_reply_examples.

Lemma route_reply_only_displays_witness :
  exists w w',
    step (SetDestination 51.5074 (-0.1278) (Some "London"))%float Scenario.located
    = Some w
    /\ step (RouteSettled 0 (Body (Scenario.osrm_reply Scenario.a_path [Scenario.a_step]))) w
       = Some w'
    /\ Browser.network (browser w') = Browser.network (browser w)
    /\ routing w' = routing w.
Proof.
  eexists. 
  destruct (step (RouteSettled 0
                    (Body (Scenario.osrm_reply Scenario.a_path [Scenario.a_step])))
              (snd (MapModule_setDestination 51.5074%float (-0.1278)%float
                      (Some "London") Scenario.located))) as [w'|] eqn:Hstep;
    [|vm_compute in Hstep; discriminate Hstep].
  exists w'. split; [reflexivity|]. split; [exact Hstep|].
  destruct (route_reply_only_displays _ _ _ _ Hstep) as (Hnet & _ & _ & Hrt & _).
  split; [exact Hnet | exact Hrt].
Defined.

Lemma route_reply_not_drawn_witness :
  Routing_getRoute_settled
    (Body (Reply.mk (Some "Ok") None
             (Some [Route.mk None (Some 1000%float) (Some 120%float)
                      (Some [Leg.mk (Some [Scenario.a_step])])])))
    Scenario.located
  = (Normal,
     set_toasts (fun l => l ++ [("Failed to calculate route", error)])
       Scenario.located).
Proof.
  apply (route_reply_not_drawn Scenario.located _
           (Route.mk None (Some 1000%float) (Some 120%float)
              (Some [Leg.mk (Some [Scenario.a_step])])) []).
  - reflexivity.
  - reflexivity.
  - left. reflexivity.
Defined.

Lemma route_reply_partly_displayed_witness :
  let w' :=
    snd (Routing_getRoute_settled
           (Body (Scenario.osrm_reply Scenario.a_path [Step.mk (Some 1000%float) None]))
           Scenario.located) in
  let w'' :=
    snd (Routing_getRoute_settled
           (Body (Scenario.osrm_reply [(infinity, 51.5007)%float] [Scenario.a_step]))
           Scenario.located) in
  (MapModule.routeLayer (map_module w') = Some (drawn_path Scenario.a_path)
   /\ Page.turn_by_turn (page w') = []
   /\ Page.directions_panel_hidden (page w') = true
   /\ toasts w' = [("Failed to calculate route", error)])
  /\ (MapModule.routeLayer (map_module w'') = Some [(51.5007, infinity)%float]
      /\ Page.route_summary (page w'') = None
      /\ toasts w'' = [("Failed to calculate route", error)]).
Proof.
  intros w' w''. split.
  - destruct (route_reply_partly_displayed Scenario.located
                (MapModule.SetView (51.5007, -0.1246)%float 15)
                (Scenario.osrm_reply Scenario.a_path [Step.mk (Some 1000%float) None])
                _ [] Scenario.a_path eq_refl eq_refl eq_refl eq_refl)
      as (Hfitted & _).
    destruct (Hfitted eq_refl eq_refl) as (H1 & _ & _ & H3 & H4 & H5).
    split; [exact H1|]. split; [exact H3|]. split; [exact H4 | exact H5].
  - destruct (route_reply_partly_displayed Scenario.located
                (MapModule.SetView (51.5007, -0.1246)%float 15)
                (Scenario.osrm_reply [(infinity, 51.5007)%float] [Scenario.a_step])
                _ [] [(infinity, 51.5007)%float] eq_refl eq_refl eq_refl eq_refl)
      as (_ & Hunfit).
    destruct (Hunfit eq_refl) as (H1 & _ & H3 & H4).
    split; [exact H1|]. split; [|exact H4].
    fold w'' in H3. rewrite H3. reflexivity.
Defined.

Lemma route_reply_displayed_witness :
  exists w',
    Routing_getRoute_settled
      (Body (Scenario.osrm_reply Scenario.a_path [Scenario.a_step])) Scenario.located
    = (Normal, w')
    /\ MapModule.routeLayer (map_module w') = Some (drawn_path Scenario.a_path)
    /\ Page.directions_panel_hidden (page w') = false
    /\ toasts w' = [("Route calculated", success)].
Proof.
  destruct (route_reply_displayed Scenario.located
              (MapModule.SetView (51.5007, -0.1246)%float 15)
              (Scenario.osrm_reply Scenario.a_path [Scenario.a_step])
              _ [] Scenario.a_path
              [Page.mk_instruction Page.rocket "Head north" (Some "1.0 km")]
              eq_refl eq_refl eq_refl eq_refl eq_refl)
    as (w' & Hrun & Hlayer & _ & _ & _ & Hpanel & Htoasts).
  { vm_compute. reflexivity. }
  exists w'. split; [exact Hrun|]. split; [exact Hlayer|].
  split; [exact Hpanel | exact Htoasts].
Defined.

End route_reply_examples.

Section destination_more.
Implicit Types (w : world).


Lemma default_profile_known (mode : string) (a b c d : JS.number) :
  plain_mode mode = true ->
  known_profile (RouteRequest (default "car" (profiles mode)) a b c d) = true.
Proof.
  unfold plain_mode, profiles. intros Hplain.
  destruct (String.eqb mode "driving"); [reflexivity|].
  destruct (String.eqb mode "walking"); [reflexivity|].
  destruct (String.eqb mode "cycling"); [reflexivity|].
  destruct (JS.Object_prototype mode); [discriminate Hplain | reflexivity].
Qed.

Lemma inherited_profile_unknown (mode text : string) (a b c d : JS.number) :
  JS.Object_prototype mode = Some text ->
  default "car" (profiles mode) = text
  /\ known_profile (RouteRequest (default "car" (profiles mode)) a b c d) = false.
Proof.
  intros Hinherited.
  assert (Hown : profiles mode = Some text).
  { unfold profiles.
    destruct (String.eqb_spec mode "driving") as [->|_]; [discriminate Hinherited|].
    destruct (String.eqb_spec mode "walking") as [->|_]; [discriminate Hinherited|].
    destruct (String.eqb_spec mode "cycling") as [->|_]; [discriminate Hinherited|].
    exact Hinherited. }
  rewrite Hown. split; [reflexivity|].
  unfold JS.Object_prototype in Hinherited.
  destruct (String.eqb mode "constructor"); [injection Hinherited as <-; reflexivity|].
  destruct (String.eqb mode "__proto__"); [injection Hinherited as <-; reflexivity|].
  destruct (existsb _ _); [|discriminate Hinherited].
  injection Hinherited as <-. reflexivity.
Qed.

Lemma onInput_network (value : string) w :
  Browser.network (browser (snd (Search_onInput value w)))
  = Browser.network (browser w).
Proof.
  unfold Search_onInput, seq, clearTimeout, skip, modify, Search_hideSearchResults,
    setTimeout.
  destruct (Search.searchTimeout (search w));
    destruct (String.length (JS.trim value) <? 3)%nat; reflexivity.
Qed.

Lemma onInput_routing (value : string) w :
  routing (snd (Search_onInput value w)) = routing w.
Proof.
  unfold Search_onInput, seq, clearTimeout, skip, modify, Search_hideSearchResults,
    setTimeout.
  destruct (Search.searchTimeout (search w));
    destruct (String.length (JS.trim value) <? 3)%nat; reflexivity.
Qed.

Lemma Routing_clearRoute_browser w :
  browser (snd (Routing_clearRoute w)) = browser w.
Proof.
  unfold Routing_clearRoute, MapModule_clearRoute, seq, on_map, modify, skip.
  destruct w as [ls [mp um dm rl ul] rt sr pg ts br]; simpl.
  destruct rl, mp, dm; reflexivity.
Qed.

Lemma Routing_clearRoute_travelMode w :
  Routing.travelMode (routing (snd (Routing_clearRoute w)))
  = Routing.travelMode (routing w).
Proof.
  unfold Routing_clearRoute, MapModule_clearRoute, seq, on_map, modify, skip.
  destruct w as [ls [mp um dm rl ul] rt sr pg ts br]; simpl.
  destruct rl, mp, dm; reflexivity.
Qed.

(** What [setDestination] sends and what it does to the travel mode. *)
Lemma setDestination_sends w (lat lng : JS.number) (name : option string) :
  let w' := snd (MapModule_setDestination lat lng name w) in
  Routing.travelMode (routing w') = Routing.travelMode (routing w)
  /\ (Browser.network (browser w') = Browser.network (browser w)
      \/ exists a b c d,
           Browser.network (browser w')
           = Browser.network (browser w)
             ++ [RouteRequest
                   (default "car" (profiles (Routing.travelMode (routing w))))
                   a b c d]).
Proof.
  intros w'. subst w'.
  destruct (MapModule.map (map_module w)) as [v|] eqn:Hmap.
  - destruct (PrimFloat.is_nan lat) eqn:Hlat;
      [|destruct (PrimFloat.is_nan lng) eqn:Hlng].
    + unfold MapModule_setDestination, seq, on_map. rewrite Hmap, Hlat.
      split; [reflexivity | left; reflexivity].
    + unfold MapModule_setDestination, seq, on_map. rewrite Hmap, Hlat, Hlng.
      split; [reflexivity | left; reflexivity].
    + destruct (MapModule.userLocation (map_module w)) as [u|] eqn:Hu.
      * rewrite (setDestination_located w lat lng name v u Hmap Hu Hlat Hlng).
        split; [reflexivity|]. right. eexists _, _, _, _. reflexivity.
      * unfold MapModule_setDestination, seq, on_map, modify, skip, UI_showToast.
        rewrite Hmap, Hlat, Hlng. cbn. rewrite Hu.
        split; [reflexivity | left; reflexivity].
  - unfold MapModule_setDestination, seq, on_map. rewrite Hmap.
    split; [reflexivity | left; reflexivity].
Qed.

Lemma step_known_profiles ev w w' :
  step ev w = Some w' ->
  plain_modes [ev] = true ->
  plain_mode (Routing.travelMode (routing w)) = true ->
  forallb known_profile (Browser.network (browser w)) = true ->
  plain_mode (Routing.travelMode (routing w')) = true
  /\ forallb known_profile (Browser.network (browser w')) = true.
Proof.
  intros Hstep Hclick Hmode Hknown.
  destruct ev as [ms|value| | |id|id reply|id reply|e mode|lat lng name| ];
    simpl in Hstep.
  - injection Hstep as <-. split; [exact Hmode | exact Hknown].
  - injection Hstep as <-. now rewrite onInput_routing, onInput_network.
  - injection Hstep as <-. split; [exact Hmode | exact Hknown].
  - injection Hstep as <-. unfold Search_onFocus.
    destruct (Search.currentResults (search w)); split; assumption.
  - destruct (Browser.timers (browser w) !! id) as [[due t]|]; [|discriminate].
    destruct (due <=? Browser.now (browser w))%nat; [|discriminate].
    injection Hstep as <-.
    destruct t as [query|]; [|split; assumption].
    unfold seq, clearTimeout, run_task, Search_performSearch, fetch, modify. simpl.
    split; [exact Hmode|]. rewrite forallb_app, Hknown. reflexivity.
  - destruct (awaited id w) as [[|q vb]|]; try discriminate.
    injection Hstep as <-.
    unfold Search_performSearch_settled, try_catch.
    destruct reply as [|data]; split; assumption.
  - destruct (awaited id w) as [[profile a b c d|]|]; try discriminate.
    injection Hstep as <-.
    rewrite (shown_browser _ _ (displays_getRoute_settled reply (settle id w))).
    rewrite (shown_routing _ _ (displays_getRoute_settled reply (settle id w))).
    split; assumption.
  - injection Hstep as <-.
    cbn in Hclick. rewrite andb_true_r in Hclick.
    destruct (Routing.currentRoute (routing w)) as [r|] eqn:Hroute.
    + rewrite (changeTravelMode_with_route w e mode r Hroute). simpl.
      split; [exact Hclick|].
      rewrite forallb_app, Hknown. cbn [forallb].
      rewrite default_profile_known by exact Hclick. reflexivity.
    + rewrite (changeTravelMode_without_route w e mode Hroute).
      split; [exact Hclick | exact Hknown].
  - injection Hstep as <-.
    destruct (setDestination_sends w lat lng name) as [Hsame Hsent].
    cbv zeta in Hsame, Hsent. rewrite Hsame. split; [exact Hmode|].
    destruct Hsent as [->|(a & b & c & d & ->)]; [exact Hknown|].
    rewrite forallb_app, Hknown. cbn [forallb].
    rewrite default_profile_known by exact Hmode. reflexivity.
  - injection Hstep as <-.
    rewrite Routing_clearRoute_browser, Routing_clearRoute_travelMode.
    split; assumption.
Qed.

(** X13.  Route requests name the profiles car, foot and bike, as long as
    no travel mode is a name inherited from [Object.prototype]: over every
    run of events from the start of the page in which the stored mode and
    every clicked mode are plain, every route request sent names one of
    the three, a mode that is not in the table falling back to car.  For a
    mode such as "constructor" the request carries the text of the
    inherited member instead, which is none of them. *)
Theorem route_requests_name_known_profiles (es : list event) :
  (forall (ls : Storage.t) (m : MapModule.t) (p : Page.t) w,
      plain_mode (Storage.getTravelMode ls) = true ->
      plain_modes es = true ->
      run es (init ls m p) = Some w ->
      forallb known_profile (Browser.network (browser w)) = true)
  /\ (forall (mode text : string) (a b c d : JS.number),
        JS.Object_prototype mode = Some text ->
        default "car" (profiles mode) = text
        /\ known_profile (RouteRequest (default "car" (profiles mode)) a b c d)
           = false).
Proof.
  split; [|exact inherited_profile_unknown].
  intros ls m p.
  assert (Hgen : forall w0 w,
             plain_modes es = true ->
             plain_mode (Routing.travelMode (routing w0)) = true ->
             forallb known_profile (Browser.network (browser w0)) = true ->
             run es w0 = Some w ->
             forallb known_profile (Browser.network (browser w)) = true).
  { induction es as [|ev es IH]; intros w0 w Hclicks Hmode Hknown Hrun.
    - injection Hrun as <-. exact Hknown.
    - rewrite run_cons in Hrun.
      destruct (step ev w0) as [w1|] eqn:Hstep; [|discriminate].
      unfold plain_modes in Hclicks. cbn [forallb] in Hclicks.
      apply andb_true_iff in Hclicks as [Hclick Hclicks].
      destruct (step_known_profiles ev w0 w1 Hstep) as [Hmode1 Hknown1];
        [unfold plain_modes; cbn [forallb]; now rewrite Hclick
        | exact Hmode | exact Hknown |].
      exact (IH w1 w Hclicks Hmode1 Hknown1 Hrun). }
  intros w Hstored Hclicks Hrun.
  exact (Hgen (init ls m p) w Hclicks Hstored eq_refl Hrun).
Qed.

End destination_more.

Section destination_more_examples.

Lemma route_requests_name_known_profiles_witness :
  (exists w,
     run [TravelModeClick Examples.e1 "flying";
          SetDestination 51.5074%float (-0.1278)%float (Some "London")]
         (init Storage.empty (map_module Scenario.located) (page Scenario.located))
     = Some w
     /\ forallb known_profile (Browser.network (browser w)) = true)
  /\ default "car" (profiles "constructor") = "function Object() { [native code] }".
Proof.
  destruct (route_requests_name_known_profiles
              [TravelModeClick Examples.e1 "flying";
               SetDestination 51.5074%float (-0.1278)%float (Some "London")])
    as [Hknown _].
  destruct (route_requests_name_known_profiles []) as [_ Hinherited].
  split.
  - destruct (run [TravelModeClick Examples.e1 "flying";
                   SetDestination 51.5074%float (-0.1278)%float (Some "London")]
                (init Storage.empty (map_module Scenario.located)
                   (page Scenario.located))) as [w|] eqn:Hrun;
      [|vm_compute in Hrun; discriminate Hrun].
    exists w. split; [reflexivity|].
    exact (Hknown Storage.empty (map_module Scenario.located)
             (page Scenario.located) w eq_refl eq_refl Hrun).
  - exact (proj1 (Hinherited "constructor" _ 0%float 0%float 0%float 0%float
                    eq_refl)).
Defined.

End destination_more_examples.

Section clear_and_retry.
Implicit Types (w : world).

Lemma getRoute_settled_layer w (v : MapModule.view) (data : Reply.t)
  (route : Route.t) (rest : list Route.t)
  (c : JS.number * JS.number) (cs : list (JS.number * JS.number)) :
  MapModule.map (map_module w) = Some v ->
  Reply.code data = Some "Ok" ->
  Reply.routes data = Some (route :: rest) ->
  Route.coordinates route = Some (c :: cs) ->
  MapModule.routeLayer (map_module (snd (Routing_getRoute_settled (Body data) w)))
  = Some (drawn_path (c :: cs)).
Proof.
  intros Hmap Hcode Hroutes Hcoords.
  unfold Routing_getRoute_settled, try_catch.
  rewrite (route_found data route rest Hcode Hroutes), Hroutes.
  unfold Routing_displayRoute. rewrite Hcoords.
  fold (drawn_path (c :: cs)).
  destruct (fits (drawn_path (c :: cs))) eqn:Hfits.
  - erewrite seq_normal; [|apply (drawRoute_fits w v); assumption].
    erewrite seq_normal; [|reflexivity].
    destruct (first_leg_steps route) as [[steps|]|]; [|reflexivity..].
    unfold Routing_displayTurnByTurn.
    destruct (turn_instructions steps); reflexivity.
  - erewrite seq_thrown; [|apply (drawRoute_unfit w v); assumption].
    reflexivity.
Qed.

(** X14.  Clearing the route does not withdraw a route request that is still on
    its way: when its answer arrives after the route was cleared, the route
    of the answer is drawn all the same, with no destination marker and no
    stored endpoints, so a later travel-mode change does not recompute
    it. *)
Theorem clearRoute_keeps_request_in_flight w (v : MapModule.view) (id : nat)
  (profile : string) (a b c d : JS.number) (data : Reply.t)
  (route : Route.t) (rest : list Route.t)
  (co : JS.number * JS.number) (cs : list (JS.number * JS.number)) :
  MapModule.map (map_module w) = Some v ->
  awaited id w = Some (RouteRequest profile a b c d) ->
  Reply.code data = Some "Ok" ->
  Reply.routes data = Some (route :: rest) ->
  Route.coordinates route = Some (co :: cs) ->
  exists w',
    run [ClearRoute; RouteSettled id (Body data)] w = Some w'
    /\ MapModule.routeLayer (map_module w') = Some (drawn_path (co :: cs))
    /\ MapModule.destinationMarker (map_module w') = None
    /\ Routing.currentRoute (routing w') = None
    /\ forall e mode,
         Browser.network (browser (snd (Routing_changeTravelMode e mode w')))
         = Browser.network (browser w).
Proof.
  intros Hmap Hawaited Hcode Hroutes Hcoords.
  assert (Hlayers : layers_on_map w).
  { intros Hnone. rewrite Hmap in Hnone. discriminate Hnone. }
  rewrite run_cons. cbn [step].
  rewrite (Routing_clearRoute_on_map w Hlayers). cbn [snd].
  set (w1 := mk_world _ _ _ _ _ _ _).
  assert (Hawaited1 : awaited id w1 = Some (RouteRequest profile a b c d))
    by exact Hawaited.
  rewrite run_cons. cbn [step]. rewrite Hawaited1. cbn [run].
  eexists. split; [reflexivity|].
  destruct (displays_getRoute_settled (Body data) (settle id w1))
    as [_ Hrt _ Hbr _ _ Hdm].
  split.
  { apply (getRoute_settled_layer (settle id w1) v data route rest co cs);
      [exact Hmap | exact Hcode | exact Hroutes | exact Hcoords]. }
  split; [rewrite Hdm; reflexivity|].
  split; [rewrite Hrt; reflexivity|].
  intros e mode.
  rewrite changeTravelMode_without_route by (rewrite Hrt; reflexivity).
  cbn [snd browser]. rewrite Hbr. reflexivity.
Qed.

(** X15.  A route that failed is asked for again when the travel mode is
    changed: after [getRoute] and a failing answer, a click on a
    travel-mode button sends one more request, between the endpoints of
    the failed request, with the profile of the new mode. *)
Theorem failed_route_is_retried_on_mode_change w (a b c d : JS.number)
  (reply : fetched Reply.t) (e : Storage.env) (mode : string) :
  upstream_failure reply ->
  exists w1 w2,
    step (RouteSettled (length (Browser.network (browser w))) reply)
         (snd (Routing_getRoute a b c d w)) = Some w1
    /\ step (TravelModeClick e mode) w1 = Some w2
    /\ Browser.network (browser w2)
       = Browser.network (browser w)
         ++ [RouteRequest (default "car" (profiles (Routing.travelMode (routing w))))
               b a d c;
             RouteRequest (default "car" (profiles mode)) b a d c].
Proof.
  intros Hfail.
  rewrite getRoute_request. cbn [snd step].
  erewrite awaited_intro;
    [| apply elem_of_union_l, elem_of_singleton; reflexivity
     | cbn [browser Browser.network]; apply list_lookup_middle; reflexivity].
  rewrite (getRoute_settled_failure _ reply Hfail). cbn [snd].
  eexists _, _. split; [reflexivity|].
  erewrite changeTravelMode_with_route by reflexivity.
  split; [reflexivity|].
  cbn. rewrite <- app_assoc. reflexivity.
Qed.

End clear_and_retry.

Section clear_and_retry_examples.

Lemma clearRoute_keeps_request_in_flight_witness :
  exists w',
    run [ClearRoute;
         RouteSettled 0 (Body (Scenario.osrm_reply Scenario.a_path [Scenario.a_step]))]
        (snd (MapModule_setDestination 51.5074%float (-0.1278)%float (Some "London")
                Scenario.located))
    = Some w'
    /\ MapModule.routeLayer (map_module w') = Some (drawn_path Scenario.a_path)
    /\ MapModule.destinationMarker (map_module w') = None
    /\ Routing.currentRoute (routing w') = None.
Proof.
  destruct (clearRoute_keeps_request_in_flight
              (snd (MapModule_setDestination 51.5074%float (-0.1278)%float
                      (Some "London") Scenario.located))
              (MapModule.SetView (51.5007, -0.1246)%float 15) 0
              "car" (-0.1246)%float 51.5007%float (-0.1278)%float 51.5074%float
              (Scenario.osrm_reply Scenario.a_path [Scenario.a_step])
              (Route.mk (Some Scenario.a_path) (Some 1000%float) (Some 120%float)
                 (Some [Leg.mk (Some [Scenario.a_step])]))
              [] (-0.1246, 51.5007)%float
              [(-0.1260, 51.5040); (-0.1278, 51.5074)]%float eq_refl)
    as (w' & Hrun & Hlayer & Hmarker & Hroute & _).
  - vm_compute. reflexivity.
  - reflexivity.
  - reflexivity.
  - reflexivity.
  - exists w'. split; [exact Hrun|]. split; [exact Hlayer|].
    split; [exact Hmarker | exact Hroute].
Defined.

Lemma failed_route_is_retried_witness :
  exists w1 w2,
    step (RouteSettled (length (Browser.network (browser Scenario.located))) Rejected)
         (snd (Routing_getRoute 51.5007%float (-0.1246)%float
                 51.5074%float (-0.1278)%float Scenario.located)) = Some w1
    /\ step (TravelModeClick Examples.e1 "cycling") w1 = Some w2
    /\ Browser.network (browser w2)
       = Browser.network (browser Scenario.located)
         ++ [RouteRequest
               (default "car"
                  (profiles (Routing.travelMode (routing Scenario.located))))
               (-0.1246)%float 51.5007%float (-0.1278)%float 51.5074%float;
             RouteRequest (default "car" (profiles "cycling"))
               (-0.1246)%float 51.5007%float (-0.1278)%float 51.5074%float].
Proof.
  apply (failed_route_is_retried_on_mode_change Scenario.located
           51.5007%float (-0.1246)%float 51.5074%float (-0.1278)%float
           Rejected Examples.e1 "cycling").
  exact I.
Defined.

End clear_and_retry_examples.

(* ================================================================== *)
(** * More about the search box                                        *)
(* ================================================================== *)

Section search_more.
Implicit Types (w : world) (ev : event) (es : list event).

Lemma onInput_long (value : string) w :
  (3 <= String.length (JS.trim value))%nat ->
  Search_onInput value w
  = (Normal,
     mk_world (storage w) (map_module w) (routing w)
       (Search.mk (Some (Browser.next_timer (browser w)))
          (Search.currentResults (search w)))
       (page w) (toasts w)
       (Browser.mk (Browser.now (browser w))
          (Pos.succ (Browser.next_timer (browser w)))
          (<[ Browser.next_timer (browser w) :=
                ((Browser.now (browser w) + 300)%nat, PerformSearch (JS.trim value)) ]>
             match Search.searchTimeout (search w) with
             | Some old => delete old (Browser.timers (browser w))
             | None => Browser.timers (browser w)
             end)
          (Browser.network (browser w)) (Browser.pending (browser w)))).
Proof.
  intros Hlong.
  unfold Search_onInput, seq.
  destruct (Nat.ltb_spec (String.length (JS.trim value)) 3) as [Hshort|_]; [lia|].
  destruct w as [ls mm rt [st cr] pg ts [now next tm nw pd]].
  destruct st; reflexivity.
Qed.

(** X16.  The debounce, in time.  A query of three characters or more leaves as
    one search request, with the text trimmed and a viewbox around the
    user's location when it is known, once 300 ms have passed since it was
    typed, and cannot leave before; sending it changes no result. *)
Theorem search_leaves_after_300ms w (value : string) (ms : nat) :
  (3 <= String.length (JS.trim value))%nat ->
  let id := Browser.next_timer (browser w) in
  ((ms < 300)%nat -> run [Input value; Elapse ms; Timeout id] w = None)
  /\ ((300 <= ms)%nat ->
      exists w',
        run [Input value; Elapse ms; Timeout id] w = Some w'
        /\ Browser.network (browser w')
           = Browser.network (browser w)
             ++ [SearchRequest (JS.trim value)
                   (viewbox_around (MapModule.userLocation (map_module w)))]
        /\ results w' = results w
        /\ Browser.timers (browser w') !! id = None).
Proof.
  intros Hlong id. subst id.
  rewrite run_cons. cbn [step].
  rewrite (onInput_long value w Hlong). cbn [snd].
  rewrite run_cons. cbn [step]. rewrite run_cons. cbn [step].
  cbn [browser set_browser Browser.timers Browser.now Browser.next_timer
       Browser.network Browser.pending].
  rewrite lookup_insert_eq.
  split.
  - intros Hms.
    destruct (Nat.leb_spec (Browser.now (browser w) + 300)
                           (Browser.now (browser w) + ms)) as [Hle|_]; [lia|].
    reflexivity.
  - intros Hms.
    destruct (Nat.leb_spec (Browser.now (browser w) + 300)
                           (Browser.now (browser w) + ms)) as [_|Hlt]; [|lia].
    eexists. split; [reflexivity|].
    unfold seq, clearTimeout, run_task, Search_performSearch, fetch, modify, results,
      viewbox_around.
    cbn. rewrite lookup_delete_eq.
    destruct (MapModule.userLocation (map_module w)); auto.
Qed.

(** X17.  A search that fails is not reported and keeps the old results: the
    list is hidden, the stored and rendered results stay those of the
    search before, no message is shown, and when the box regains focus
    these older results are shown again. *)
Theorem failed_search_keeps_stale_results w (id : nat) (q : string) vb :
  awaited id w = Some (SearchRequest q vb) ->
  exists w',
    step (SearchSettled id Rejected) w = Some w'
    /\ results w' = results w
    /\ Page.search_results_hidden (page w') = true
    /\ toasts w' = toasts w
    /\ (Search.currentResults (search w) <> [] ->
        exists w'',
          step Focus w' = Some w''
          /\ Page.search_results_hidden (page w'') = false
          /\ results w'' = results w).
Proof.
  intros Hawaited. cbn [step]. rewrite Hawaited.
  eexists. split; [reflexivity|].
  unfold Search_performSearch_settled, try_catch, throw, Search_hideSearchResults,
    modify, settle, results.
  cbn. split; [reflexivity|]. split; [reflexivity|]. split; [reflexivity|].
  intros Hsome. eexists. split; [reflexivity|].
  unfold Search_onFocus, Search_showSearchResults, modify. cbn.
  destruct (Search.currentResults (search w)) eqn:Hresults; [contradiction|].
  cbn. rewrite Hresults. split; reflexivity.
Qed.

(** X18.  In every state the page reaches, at most one debounced search is
    pending. *)
Theorem at_most_one_search_pending w (id1 id2 : positive) (due1 due2 : nat)
  (q1 q2 : string) :
  reachable w ->
  search_timer w id1 due1 q1 ->
  search_timer w id2 due2 q2 ->
  id1 = id2 /\ due1 = due2 /\ q1 = q2.
Proof.
  intros Hreach H1 H2.
  destruct (reachable_invariants w Hreach) as [_ Htracked].
  pose proof (Htracked _ _ _ H1) as Hto1.
  pose proof (Htracked _ _ _ H2) as Hto2.
  rewrite Hto1 in Hto2. injection Hto2 as <-.
  unfold search_timer in H1, H2. rewrite H1 in H2.
  injection H2 as <- <-. auto.
Qed.

Lemma typed_later seen es (q : string) : typed seen q -> typed (seen ++ es) q.
Proof.
  intros (value & Hin & Hq & Hlen). exists value.
  split; [apply in_or_app; left; exact Hin | auto].
Qed.

Lemma step_typed seen ev w w' :
  search_timer_tracked w ->
  (forall q, In q (search_queries (Browser.network (browser w))) -> typed seen q) ->
  (forall id due q, search_timer w id due q -> typed seen q) ->
  step ev w = Some w' ->
  (forall q, In q (search_queries (Browser.network (browser w'))) ->
             typed (seen ++ [ev]) q)
  /\ (forall id due q, search_timer w' id due q -> typed (seen ++ [ev]) q).
Proof.
  intros Htracked Hsent Htimers Hstep.
  destruct (is_input ev) eqn:Hev.
  - destruct ev as [|value| | | | | | | |]; try discriminate Hev.
    destruct (step_input value w Htracked)
      as (w1 & Hstep1 & _ & Hnet & _ & _ & _ & Hnew & _).
    rewrite Hstep in Hstep1. injection Hstep1 as <-.
    split.
    + intros q Hq. rewrite Hnet in Hq. apply typed_later, Hsent, Hq.
    + intros id due q Hid. apply Hnew in Hid as (_ & Hq & Hlen).
      exists value. split; [apply in_or_app; right; left; reflexivity | auto].
  - destruct (step_not_input ev w w' Hev Hstep Htracked)
      as (_ & _ & Hsame & _ & _ & Heffect).
    split.
    + intros q Hq.
      destruct Heffect as [Hqueries _ | id due q' vb Htimer _ Hnetwork _ _].
      * rewrite Hqueries in Hq. apply typed_later, Hsent, Hq.
      * rewrite Hnetwork, search_queries_app in Hq.
        apply in_app_or in Hq as [Hq|Hq].
        -- apply typed_later, Hsent, Hq.
        -- cbn in Hq. destruct Hq as [<-|[]].
           apply typed_later. eapply Htimers, Htimer.
    + intros id due q Hid. apply typed_later. eapply Htimers, Hsame, Hid.
Qed.

(** X19.  The search box sends no search that was not typed: over every
    run of events from the start of the page, each request of
    [Search.performSearch] carries the trimmed text of some input event of
    that run, of three characters or more.  (The requests of the
    nearby-places search, which carry a category, are not requests of
    [performSearch] and not meant here.) *)
Theorem every_search_was_typed es :
  forall (ls : Storage.t) (m : MapModule.t) (p : Page.t) w (q : string),
    run es (init ls m p) = Some w ->
    In q (search_queries (Browser.network (browser w))) ->
    typed es q.
Proof.
  assert (Hgen : forall es seen w0 w,
             search_timer_tracked w0 ->
             (forall q, In q (search_queries (Browser.network (browser w0))) ->
                        typed seen q) ->
             (forall id due q, search_timer w0 id due q -> typed seen q) ->
             run es w0 = Some w ->
             forall q, In q (search_queries (Browser.network (browser w))) ->
                       typed (seen ++ es) q).
  { clear es. induction es as [|ev es IH]; intros seen w0 w Htracked Hsent Htimers Hrun.
    - injection Hrun as <-. rewrite app_nil_r. exact Hsent.
    - rewrite run_cons in Hrun.
      destruct (step ev w0) as [w1|] eqn:Hstep; [|discriminate].
      destruct (step_typed seen ev w0 w1 Htracked Hsent Htimers Hstep)
        as [Hsent1 Htimers1].
      intros q Hq.
      replace (seen ++ ev :: es) with ((seen ++ [ev]) ++ es)
        by (rewrite <- app_assoc; reflexivity).
      exact (IH (seen ++ [ev]) w1 w (step_tracked ev w0 w1 Hstep Htracked)
               Hsent1 Htimers1 Hrun q Hq). }
  intros ls m p w q Hrun Hq.
  refine (Hgen es [] (init ls m p) w (init_tracked ls m p) _ _ Hrun q Hq).
  - intros q' [].
  - intros id due q' Hid. unfold search_timer in Hid. cbn in Hid. discriminate Hid.
Qed.

End search_more.

Section search_more_examples.

Lemma search_leaves_after_300ms_witness :
  exists w',
    run [Input " Central "; Elapse 300;
         Timeout (Browser.next_timer (browser Scenario.located))] Scenario.located
    = Some w'
    /\ Browser.network (browser w')
       = [SearchRequest "Central"
            (Some (-0.6246, 51.0007, 0.3754, 52.0007)%float)].
Proof.
  destruct (search_leaves_after_300ms Scenario.located " Central " 300)
    as [_ Hlate].
  { vm_compute. lia. }
  destruct (Hlate (Nat.le_refl 300)) as (w' & Hrun & Hnet & _).
  exists w'. split; [exact Hrun|].
  rewrite Hnet. vm_compute. reflexivity.
Defined.

Lemma failed_search_keeps_stale_results_witness :
  exists w w',
    run [Input "Central"; Elapse 300; Timeout 1%positive;
         SearchSettled 0 (Body Scenario.central_results);
         Input "Central Park"; Elapse 300; Timeout 2%positive] Scenario.fresh
    = Some w
    /\ step (SearchSettled 1 Rejected) w = Some w'
    /\ results w' = (Scenario.central_results, Some Scenario.central_results)
    /\ Page.search_results_hidden (page w') = true.
Proof.
  destruct (run [Input "Central"; Elapse 300; Timeout 1%positive;
                 SearchSettled 0 (Body Scenario.central_results);
                 Input "Central Park"; Elapse 300; Timeout 2%positive]
              Scenario.fresh) as [w|] eqn:Hrun;
    [|vm_compute in Hrun; discriminate Hrun].
  assert (Hw : option_map (fun w => (awaited 1 w, results w))
                 (run [Input "Central"; Elapse 300; Timeout 1%positive;
                       SearchSettled 0 (Body Scenario.central_results);
                       Input "Central Park"; Elapse 300; Timeout 2%positive]
                    Scenario.fresh)
               = Some (Some (SearchRequest "Central Park" None),
                       (Scenario.central_results, Some Scenario.central_results)))
    by (vm_compute; reflexivity).
  rewrite Hrun in Hw. cbn [option_map] in Hw. injection Hw as Hawaited Hcur Hren.
  destruct (failed_search_keeps_stale_results w 1 "Central Park" None Hawaited)
    as (w' & Hstep & Hkept & Hhidden & _).
  exists w, w'. split; [reflexivity|]. split; [exact Hstep|].
  split; [rewrite Hkept; unfold results; now rewrite Hcur, Hren | exact Hhidden].
Defined.

Lemma at_most_one_search_pending_witness :
  exists w,
    run [Input "Central"] Scenario.fresh = Some w
    /\ search_timer w 1 300 "Central"
    /\ forall id due q, search_timer w id due q -> id = 1%positive.
Proof.
  eexists. split; [reflexivity|].
  assert (Htimer : search_timer (snd (Search_onInput "Central" Scenario.fresh))
                     1 300 "Central") by (vm_compute; reflexivity).
  split; [exact Htimer|].
  intros id due q Hid.
  refine (proj1 (at_most_one_search_pending _ id 1 due 300 q "Central" _ Hid Htimer)).
  exists Storage.empty, (map_module Scenario.fresh), (page Scenario.fresh),
    [Input "Central"].
  split; [intros Hnone; discriminate Hnone | reflexivity].
Defined.

Lemma every_search_was_typed_witness :
  typed Scenario.short_then_focus "Central".
Proof.
  destruct (run Scenario.short_then_focus Scenario.fresh) as [w|] eqn:Hrun;
    [|vm_compute in Hrun; discriminate Hrun].
  assert (Hq : option_map (fun w => search_queries (Browser.network (browser w)))
                 (run Scenario.short_then_focus Scenario.fresh)
               = Some ["Central"]) by (vm_compute; reflexivity).
  rewrite Hrun in Hq. cbn [option_map] in Hq. injection Hq as Hq.
  apply (every_search_was_typed Scenario.short_then_focus
           Storage.empty (map_module Scenario.fresh) (page Scenario.fresh) w).
  - exact Hrun.
  - rewrite Hq. left. reflexivity.
Defined.

End search_more_examples.

Section blur_facts.
Implicit Types (w : world) (ev : event) (es : list event).

Lemma search_side_kept_fresh w0 w' :
  search_side_kept w0 w' -> timers_fresh w0 -> timers_fresh w'.
Proof.
  intros [_ _ Hnext Htimers _ _ _ _ _] Hfresh id entry.
  rewrite Htimers, Hnext. apply Hfresh.
Qed.

Lemma step_fresh ev w w' :
  step ev w = Some w' -> timers_fresh w -> timers_fresh w'.
Proof.
  intros Hstep Hfresh.
  destruct ev as [ms|value| | |id|id reply|id reply|e mode|lat lng name|];
    simpl in Hstep.
  - injection Hstep as <-. exact Hfresh.
  - injection Hstep as <-.
    assert (Hcleared : forall id entry,
              match Search.searchTimeout (search w) with
              | Some old => delete old (Browser.timers (browser w))
              | None => Browser.timers (browser w)
              end !! id = Some entry ->
              (id < Browser.next_timer (browser w))%positive).
    { intros id entry. destruct (Search.searchTimeout (search w)) as [old|].
      - rewrite lookup_delete. destruct (decide (old = id)); [discriminate|].
        apply Hfresh.
      - apply Hfresh. }
    destruct (Nat.ltb_spec (String.length (JS.trim value)) 3) as [Hshort|Hlong].
    + unfold Search_onInput, seq.
      destruct (Nat.ltb_spec (String.length (JS.trim value)) 3) as [_|Hge]; [|lia].
      intros id entry.
      destruct (Search.searchTimeout (search w)) as [old|]; apply Hcleared.
    + rewrite (onInput_long value w Hlong). intros id entry. cbn.
      rewrite lookup_insert.
      destruct (decide (Browser.next_timer (browser w) = id)) as [<-|Hne].
      * intros _. lia.
      * intros Hid. apply Hcleared in Hid. lia.
  - injection Hstep as <-. intros id entry.
    unfold Search_onBlur, setTimeout. cbn.
    rewrite lookup_insert.
    destruct (decide (Browser.next_timer (browser w) = id)) as [<-|Hne].
    + intros _. lia.
    + intros Hid. apply Hfresh in Hid. lia.
  - injection Hstep as <-. unfold Search_onFocus.
    destruct (Search.currentResults (search w)); exact Hfresh.
  - destruct (Browser.timers (browser w) !! id) as [[due t]|]; [|discriminate].
    destruct (due <=? Browser.now (browser w))%nat; [|discriminate].
    injection Hstep as <-. intros id' entry.
    destruct t as [query|];
      unfold seq, clearTimeout, run_task, Search_performSearch, fetch,
        Search_hideSearchResults, modify; cbn;
      rewrite lookup_delete; (destruct (decide (id = id')); [discriminate|]);
      apply Hfresh.
  - destruct (awaited id w) as [[|q vb]|]; try discriminate.
    injection Hstep as <-.
    unfold Search_performSearch_settled, try_catch.
    destruct reply as [|data]; exact Hfresh.
  - destruct (awaited id w) as [[profile a b c d|]|]; try discriminate.
    injection Hstep as <-.
    apply (search_side_kept_fresh (settle id w));
      [apply route_side_getRoute_settled | exact Hfresh].
  - injection Hstep as <-.
    apply (search_side_kept_fresh w);
      [apply route_side_changeTravelMode | exact Hfresh].
  - injection Hstep as <-.
    apply (search_side_kept_fresh w);
      [apply route_side_setDestination | exact Hfresh].
  - injection Hstep as <-.
    apply (search_side_kept_fresh w);
      [apply route_side_Routing_clearRoute | exact Hfresh].
Qed.

Lemma reachable_fresh w : reachable w -> timers_fresh w.
Proof.
  intros (ls & m & p & es & _ & Hrun).
  assert (Hinit : timers_fresh (init ls m p)).
  { intros id entry Hid. cbn in Hid. discriminate Hid. }
  revert Hinit Hrun. generalize (init ls m p).
  induction es as [|ev es IH]; intros w0 Hfresh Hrun.
  - injection Hrun as <-. exact Hfresh.
  - rewrite run_cons in Hrun.
    destruct (step ev w0) as [w1|] eqn:Hstep; [|discriminate].
    exact (IH w1 (step_fresh ev w0 w1 Hstep Hfresh) Hrun).
Qed.

(** X20.  Leaving the search box hides the results 200 ms later and not before;
    it cancels no pending search and sends nothing, and the results stay
    stored.  Nothing cancels the hiding: results shown again because the
    box regained focus in between are hidden when the 200 ms are over. *)
Theorem blur_hides_after_200ms w (ms : nat) :
  reachable w ->
  let id := Browser.next_timer (browser w) in
  ((ms < 200)%nat -> run [Blur; Elapse ms; Timeout id] w = None)
  /\ ((200 <= ms)%nat ->
      exists w',
        run [Blur; Elapse ms; Timeout id] w = Some w'
        /\ Page.search_results_hidden (page w') = true
        /\ results w' = results w
        /\ Browser.network (browser w') = Browser.network (browser w)
        /\ Search.searchTimeout (search w') = Search.searchTimeout (search w)
        /\ forall id' due q, search_timer w id' due q -> search_timer w' id' due q)
  /\ ((200 <= ms)%nat ->
      exists w',
        run [Blur; Focus; Elapse ms; Timeout id] w = Some w'
        /\ Page.search_results_hidden (page w') = true).
Proof.
  intros Hreach id. subst id.
  pose proof (reachable_fresh w Hreach) as Hfresh.
  split; [|split].
  - intros Hms.
    rewrite run_cons. cbn [step]. unfold Search_onBlur, setTimeout. cbn [snd].
    rewrite run_cons. cbn [step]. rewrite run_cons. cbn [step].
    cbn [browser set_browser Browser.timers Browser.now Browser.next_timer
         Browser.network Browser.pending].
    rewrite lookup_insert_eq.
    destruct (Nat.leb_spec (Browser.now (browser w) + 200)
                           (Browser.now (browser w) + ms)) as [Hle|_]; [lia|].
    reflexivity.
  - intros Hms.
    rewrite run_cons. cbn [step]. unfold Search_onBlur, setTimeout. cbn [snd].
    rewrite run_cons. cbn [step]. rewrite run_cons. cbn [step].
    cbn [browser set_browser Browser.timers Browser.now Browser.next_timer
         Browser.network Browser.pending].
    rewrite lookup_insert_eq.
    destruct (Nat.leb_spec (Browser.now (browser w) + 200)
                           (Browser.now (browser w) + ms)) as [_|Hlt]; [|lia].
    eexists. split; [reflexivity|].
    unfold seq, clearTimeout, run_task, Search_hideSearchResults, modify, results,
      search_timer.
    cbn. repeat (split; [reflexivity|]).
    intros id' due q Hid.
    pose proof (Hfresh _ _ Hid) as Hlt.
    rewrite lookup_delete_ne by lia. rewrite lookup_insert_ne by lia. exact Hid.
  - intros Hms.
    rewrite run_cons. cbn [step]. unfold Search_onBlur, setTimeout. cbn [snd].
    rewrite run_cons. cbn [step].
    assert (Hfocus : forall w0,
              browser (snd (Search_onFocus w0)) = browser w0).
    { intros w0. unfold Search_onFocus.
      destruct (Search.currentResults (search w0)); reflexivity. }
    rewrite run_cons. cbn [step]. rewrite run_cons. cbn [step].
    cbn [browser set_browser Browser.timers Browser.now Browser.next_timer
         Browser.network Browser.pending].
    rewrite Hfocus.
    cbn [browser set_browser Browser.timers Browser.now Browser.next_timer
         Browser.network Browser.pending].
    rewrite lookup_insert_eq.
    destruct (Nat.leb_spec (Browser.now (browser w) + 200)
                           (Browser.now (browser w) + ms)) as [_|Hlt]; [|lia].
    eexists. split; [reflexivity|]. reflexivity.
Qed.

End blur_facts.

Section blur_examples.

Lemma blur_hides_after_200ms_witness :
  exists w w',
    run [Input "Central"] Scenario.fresh = Some w
    /\ run [Blur; Elapse 250; Timeout (Browser.next_timer (browser w))] w = Some w'
    /\ Page.search_results_hidden (page w') = true
    /\ search_timer w' 1 300 "Central".
Proof.
  eexists.
  destruct (blur_hides_after_200ms (snd (Search_onInput "Central" Scenario.fresh)) 250)
    as (_ & Hlate & _).
  { exists Storage.empty, (map_module Scenario.fresh), (page Scenario.fresh),
      [Input "Central"].
    split; [intros Hnone; discriminate Hnone | reflexivity]. }
  destruct Hlate as (w' & Hrun & Hhidden & _ & _ & _ & Hkept); [lia|].
  exists w'. split; [reflexivity|]. split; [exact Hrun|].
  split; [exact Hhidden|].
  apply Hkept. vm_compute. reflexivity.
Defined.

End blur_examples.

Section lists_and_favorites.
Implicit Types (w : world).

(** X21.  Clearing the recent searches reports success whatever the storage
    answers.  The list on the page is rendered from what is stored after
    the call: it is empty when the write is accepted; when the write is
    refused the storage is as before and the page lists its first ten
    entries again. *)
Theorem clearRecentSearches_reports_success w (e : Storage.env) :
  let w' := snd (Search_clearRecentSearches e w) in
  toasts w' = toasts w ++ [("Recent searches cleared", success)]
  /\ Page.recent_list (page w') = Storage.getRecentSearches None (storage w')
  /\ (Storage.setItem_ok e = true ->
      Storage.stored_recent (storage w') = []
      /\ Page.recent_list (page w') = [])
  /\ (Storage.setItem_ok e = false ->
      storage w' = storage w
      /\ Page.recent_list (page w')
         = take 10 (Storage.stored_recent (storage w))).
Proof.
  unfold Search_clearRecentSearches, seq, Search_updateRecentList, UI_showToast,
    modify, Storage.clearRecentSearches, Storage.set.
  cbn. split; [reflexivity|]. split; [reflexivity|].
  split; intros Hok; rewrite Hok; cbn.
  - split; reflexivity.
  - split; [reflexivity|].
    unfold Storage.getRecentSearches, Storage.stored_recent.
    apply (slice0_of_nat _ 10).
Qed.

Lemma split_comma_first_no_comma (s : string) :
  has_comma (split_comma_first s) = false.
Proof.
  induction s as [|c rest IH]; [reflexivity|].
  cbn. destruct (Ascii.eqb c ",") eqn:Hc; [reflexivity|].
  cbn. now rewrite Hc, IH.
Qed.

Lemma split_comma_first_prefix (s : string) :
  String.prefix (split_comma_first s) s = true.
Proof.
  induction s as [|c rest IH]; [reflexivity|].
  cbn. destruct (Ascii.eqb c ","); [reflexivity|].
  cbn. destruct (ascii_dec c c) as [_|Hne]; [exact IH | contradiction].
Qed.

Lemma or_default_filled (s : option string) (d : string) :
  d <> EmptyString -> JS.or_default s d <> EmptyString.
Proof. intros Hd. destruct s as [[|c s]|]; cbn; [exact Hd | discriminate | exact Hd]. Qed.

(** X22.  How the current location is saved as a favorite.  The address is the
    answer of the geocoder, or "Unknown location" when the lookup fails or
    names nothing; the name is the address up to its first comma, or
    "Saved Location" when nothing stands before it.  So the stored name is
    never empty and holds no comma, and the stored address is never empty.
    Success is reported whether or not the write is accepted. *)
Theorem current_location_favorite_is_named w (e : Storage.env)
  (lat lng : JS.number) (reply : fetched (option string)) :
  let address := Search_reverseGeocode_settled reply in
  let w' := snd (Search_addCurrentLocationAsFavorite_settled e lat lng address w) in
  toasts w' = toasts w ++ [("Added to favorites", success)]
  /\ (Storage.setItem_ok e = false -> storage w' = storage w)
  /\ (Storage.setItem_ok e = true ->
      exists fav,
        Storage.stored_favorites (storage w')
        = fav :: Storage.stored_favorites (storage w)
        /\ Favorite.address fav = address
        /\ address <> EmptyString
        /\ Favorite.name fav <> EmptyString
        /\ has_comma (Favorite.name fav) = false
        /\ (Favorite.name fav = "Saved Location"
            \/ String.prefix (Favorite.name fav) address = true)
        /\ (reply = Rejected \/ reply = Body None \/ reply = Body (Some EmptyString) ->
            Favorite.name fav = "Unknown location")).
Proof.
  intros address w'. subst w'.
  assert (Haddress : address <> EmptyString).
  { subst address. destruct reply as [|display_name]; [discriminate|].
    apply or_default_filled. discriminate. }
  unfold Search_addCurrentLocationAsFavorite_settled, seq, UI_showToast, modify,
    Storage.addFavorite, Storage.set.
  cbn. split; [reflexivity|].
  split; intros Hok; rewrite Hok; cbn; [reflexivity|].
  eexists. split; [reflexivity|]. cbn.
  split; [destruct address; [contradiction | reflexivity]|].
  split; [exact Haddress|].
  split; [destruct (split_comma_first address); discriminate|].
  split.
  { pose proof (split_comma_first_no_comma address) as Hnone.
    destruct (split_comma_first address); [reflexivity | exact Hnone]. }
  split.
  { pose proof (split_comma_first_prefix address) as Hprefix.
    destruct (split_comma_first address); [left; reflexivity | right; exact Hprefix]. }
  intros Hfailed. subst address.
  destruct Hfailed as [->|[->| ->]]; reflexivity.
Qed.

(** X23.  The turn list is all or nothing: it is rendered exactly when every
    step carries a maneuver, and then holds one entry per step, in the
    order of the steps, each with the text of its step, or "Continue"
    where the step has none. *)
Theorem turn_list_all_or_nothing (steps : list Step.t) :
  (turn_instructions steps = None
   <-> Exists (fun step => Step.maneuver step = None) steps)
  /\ forall l,
       turn_instructions steps = Some l ->
       length l = length steps
       /\ Forall2 (fun step i =>
                     exists m,
                       Step.maneuver step = Some m
                       /\ Page.turn_text i
                          = JS.or_default (Maneuver.instruction m) "Continue"
                       /\ Page.turn_icon i
                          = Routing_getInstructionIcon (Maneuver.type m))
            steps l.
Proof.
  induction steps as [|step rest [IHnone IHsome]].
  - split.
    + split; [discriminate | intros H; inversion H].
    + intros l [= <-]. split; [reflexivity | constructor].
  - cbn [turn_instructions]. unfold turn_instruction.
    destruct (Step.maneuver step) as [m|] eqn:Hm.
    + destruct (turn_instructions rest) as [l'|].
      * split.
        -- split; [discriminate|].
           intros H. apply List.Exists_cons in H as [H|H]; [congruence|].
           apply IHnone in H. discriminate H.
        -- intros l [= <-]. destruct (IHsome l' eq_refl) as [Hlen Hall].
           split; [cbn; now rewrite Hlen|].
           constructor; [|exact Hall].
           exists m. auto.
      * split; [|discriminate].
        split; [|reflexivity].
        intros _. apply List.Exists_cons_tl. now apply IHnone.
    + split; [|discriminate].
      split; [|reflexivity].
      intros _. apply List.Exists_cons_hd. exact Hm.
Qed.

End lists_and_favorites.

Section arrival_order.
Implicit Types (w : world).

Lemma awaited_after_other (id id' : nat) w w1 :
  id <> id' ->
  browser w1 = browser (settle id' w) ->
  awaited id w1 = awaited id w.
Proof.
  intros Hne Hbr. unfold awaited. rewrite Hbr. cbn.
  destruct (decide (id ∈ Browser.pending (browser w) ∖ {[id']})) as [Hin|Hout];
    destruct (decide (id ∈ Browser.pending (browser w))) as [Hin'|Hout'];
    try reflexivity; exfalso.
  - apply Hout'. apply elem_of_difference in Hin as [Hin _]. exact Hin.
  - apply Hout. apply elem_of_difference. split; [exact Hin'|].
    intros Heq. apply elem_of_singleton in Heq. contradiction.
Qed.

(** X24.  Route answers are applied in the order they arrive, whatever request
    they answer: of two awaited route requests, the route drawn after both
    answers is the one of the answer that came last, also when it answers
    the older request; the stored endpoints stay those of the latest
    request. *)
Theorem route_answers_apply_in_arrival_order w (v : MapModule.view)
  (older newer : nat) (r_older r_newer : request) (data_older data_newer : Reply.t)
  (c c' : JS.number * JS.number) (cs cs' : list (JS.number * JS.number)) :
  MapModule.map (map_module w) = Some v ->
  older <> newer ->
  awaited older w = Some r_older -> is_route_request r_older = true ->
  awaited newer w = Some r_newer -> is_route_request r_newer = true ->
  route_to_draw data_older c cs ->
  route_to_draw data_newer c' cs' ->
  exists w',
    run [RouteSettled newer (Body data_newer); RouteSettled older (Body data_older)] w
    = Some w'
    /\ MapModule.routeLayer (map_module w') = Some (drawn_path (c :: cs))
    /\ routing w' = routing w.
Proof.
  intros Hmap Hne Holder Hr_older Hnewer Hr_newer
    (route & rest & Hcode & Hroutes & Hcoords)
    (route' & rest' & Hcode' & Hroutes' & Hcoords').
  destruct r_older as [po a b c0 d|]; [|discriminate Hr_older].
  destruct r_newer as [pn a' b' c0' d'|]; [|discriminate Hr_newer].
  rewrite run_cons. cbn [step]. rewrite Hnewer.
  set (w1 := snd (Routing_getRoute_settled (Body data_newer) (settle newer w))).
  pose proof (displays_getRoute_settled (Body data_newer) (settle newer w)) as Hshown.
  fold w1 in Hshown.
  assert (Hmap1 : exists v1, MapModule.map (map_module w1) = Some v1).
  { destruct (MapModule.map (map_module w1)) as [v1|] eqn:Hmap1; [eauto|].
    pose proof (kept_map _ _ (route_side_getRoute_settled (Body data_newer)
                                (settle newer w)) Hmap1) as Hnone.
    cbn in Hnone. rewrite Hmap in Hnone. discriminate Hnone. }
  destruct Hmap1 as [v1 Hmap1].
  rewrite run_cons. cbn [step].
  rewrite (awaited_after_other older newer w w1 Hne (shown_browser _ _ Hshown)), Holder.
  cbn [run]. eexists. split; [reflexivity|].
  split.
  - apply (getRoute_settled_layer (settle older w1) v1 data_older route rest c cs);
      [exact Hmap1 | exact Hcode | exact Hroutes | exact Hcoords].
  - rewrite (shown_routing _ _ (displays_getRoute_settled (Body data_older)
                                  (settle older w1))).
    cbn. exact (shown_routing _ _ Hshown).
Qed.

Lemma trimEnd_cons (c : ascii) (s : string) :
  JS.trimEnd (String c s)
  = match JS.trimEnd s with
    | EmptyString => if JS.is_space c then EmptyString else String c EmptyString
    | rest => String c rest
    end.
Proof. reflexivity. Qed.

Lemma trimEnd_idempotent (s : string) : JS.trimEnd (JS.trimEnd s) = JS.trimEnd s.
Proof.
  induction s as [|c s IH]; [reflexivity|].
  rewrite (trimEnd_cons c s). destruct (JS.trimEnd s) as [|d r] eqn:Hr.
  - destruct (JS.is_space c) eqn:Hc; [reflexivity|].
    rewrite trimEnd_cons. cbn [JS.trimEnd]. now rewrite Hc.
  - rewrite trimEnd_cons, IH. reflexivity.
Qed.

Lemma trimStart_of_trimEnd (c : ascii) (s : string) :
  JS.is_space c = false ->
  JS.trimStart (JS.trimEnd (String c s)) = JS.trimEnd (String c s).
Proof.
  intros Hc. rewrite trimEnd_cons.
  destruct (JS.trimEnd s); [rewrite Hc|]; cbn [JS.trimStart]; now rewrite Hc.
Qed.

Lemma trimStart_starts (s : string) :
  JS.trimStart s = EmptyString
  \/ exists c s', JS.trimStart s = String c s' /\ JS.is_space c = false.
Proof.
  induction s as [|c s IH]; [left; reflexivity|].
  cbn [JS.trimStart]. destruct (JS.is_space c) eqn:Hc; [exact IH|].
  right. eauto.
Qed.

Lemma trim_idempotent (s : string) : JS.trim (JS.trim s) = JS.trim s.
Proof.
  unfold JS.trim.
  destruct (trimStart_starts s) as [->|(c & s' & -> & Hc)]; [reflexivity|].
  rewrite trimStart_of_trimEnd by exact Hc.
  apply trimEnd_idempotent.
Qed.

(** X25.  White space around what is typed does not count: typing a text does
    what typing the trimmed text does, and trimming twice is trimming
    once. *)
Theorem input_padding_is_ignored w (value : string) :
  step (Input value) w = step (Input (JS.trim value)) w
  /\ JS.trim (JS.trim value) = JS.trim value.
Proof.
  split; [|apply trim_idempotent].
  cbn [step]. unfold Search_onInput. now rewrite trim_idempotent.
Qed.

End arrival_order.

Section arrival_order_examples.

Lemma route_answers_apply_in_arrival_order_witness :
  exists w w',
    run [SetDestination 51.5074%float (-0.1278)%float (Some "London");
         SetDestination 51.5040%float (-0.1260)%float None] Scenario.located
    = Some w
    /\ run [RouteSettled 1 (Body (Scenario.osrm_reply
                                    [(-0.1246, 51.5007); (-0.1260, 51.5040)]%float
                                    [Scenario.a_step]));
            RouteSettled 0 (Body (Scenario.osrm_reply Scenario.a_path
                                    [Scenario.a_step]))] w
       = Some w'
    /\ MapModule.routeLayer (map_module w') = Some (drawn_path Scenario.a_path)
    /\ Routing.currentRoute (routing w')
       = Some (Routing.mk_endpoints (LatLng.mk 51.5007 (-0.1246))
                                    (LatLng.mk 51.5040 (-0.1260)))%float.
Proof.
  eexists.
  destruct (route_answers_apply_in_arrival_order
              (snd (MapModule_setDestination 51.5040%float (-0.1260)%float None
                      (snd (MapModule_setDestination 51.5074%float (-0.1278)%float
                              (Some "London") Scenario.located))))
              (MapModule.SetView (51.5007, -0.1246)%float 15) 0 1
              (RouteRequest "car" (-0.1246) 51.5007 (-0.1278) 51.5074)%float
              (RouteRequest "car" (-0.1246) 51.5007 (-0.1260) 51.5040)%float
              (Scenario.osrm_reply Scenario.a_path [Scenario.a_step])
              (Scenario.osrm_reply [(-0.1246, 51.5007); (-0.1260, 51.5040)]%float
                 [Scenario.a_step])
              (-0.1246, 51.5007)%float (-0.1246, 51.5007)%float
              [(-0.1260, 51.5040); (-0.1278, 51.5074)]%float
              [(-0.1260, 51.5040)]%float)
    as (w' & Hrun & Hlayer & Hrouting).
  - reflexivity.
  - discriminate.
  - vm_compute. reflexivity.
  - reflexivity.
  - vm_compute. reflexivity.
  - reflexivity.
  - eexists _, _. split; [reflexivity|]. split; reflexivity.
  - eexists _, _. split; [reflexivity|]. split; reflexivity.
  - exists w'. split; [reflexivity|]. split; [exact Hrun|].
    split; [exact Hlayer|]. rewrite Hrouting. reflexivity.
Defined.

End arrival_order_examples.

Section more_examples.

Lemma travel_mode_round_trip_witness :
  Storage.getTravelMode
    (snd (Storage.setTravelMode Examples.e1 "cycling" Storage.empty)) = "cycling"
  /\ Storage.getTravelMode Storage.empty = "driving".
Proof.
  destruct travel_mode_round_trip as (Hwritten & _ & Hdefault & _).
  split; [apply Hwritten | apply Hdefault]; reflexivity.
Defined.


Lemma clearRecentSearches_refused_witness :
  let w := set_storage (fun ls =>
             snd (Storage.addRecentSearch Examples.e1 Examples.nyc ls)) Scenario.fresh in
  let w' := snd (Search_clearRecentSearches (Storage.mk_env 0 0 false) w) in
  storage w' = storage w
  /\ Page.recent_list (page w') = [Storage.recentItem Examples.e1 Examples.nyc]
  /\ toasts w' = [("Recent searches cleared", success)].
Proof.
  intros w w'.
  destruct (clearRecentSearches_reports_success w (Storage.mk_env 0 0 false))
    as (Htoasts & _ & _ & Hrefused).
  destruct (Hrefused eq_refl) as [Hstorage Hlist].
  split; [exact Hstorage|]. split; [|exact Htoasts].
  fold w' in Hlist. rewrite Hlist. reflexivity.
Defined.

Lemma current_location_favorite_witness :
  exists fav,
    Storage.stored_favorites
      (storage (snd (Search_addCurrentLocationAsFavorite_settled Examples.e1
                       51.5007%float (-0.1246)%float
                       (Search_reverseGeocode_settled
                          (Body (Some "Big Ben, Westminster, London")))
                       Scenario.fresh)))
    = [fav]
    /\ Favorite.name fav <> EmptyString
    /\ has_comma (Favorite.name fav) = false.
Proof.
  destruct (current_location_favorite_is_named Scenario.fresh Examples.e1
              51.5007%float (-0.1246)%float
              (Body (Some "Big Ben, Westminster, London")))
    as (_ & _ & Hstored).
  destruct (Hstored eq_refl) as (fav & Hfav & _ & _ & Hname & Hcomma & _).
  exists fav. split; [exact Hfav|]. split; [exact Hname | exact Hcomma].
Defined.

Lemma turn_list_witness :
  turn_instructions [Scenario.a_step; Step.mk (Some 250%float) None] = None
  /\ exists l,
       turn_instructions [Scenario.a_step] = Some l /\ length l = 1%nat.
Proof.
  split.
  - apply (proj1 (turn_list_all_or_nothing _)).
    apply List.Exists_cons_tl, List.Exists_cons_hd. reflexivity.
  - destruct (turn_instructions [Scenario.a_step]) as [l|] eqn:Hl;
      [|vm_compute in Hl; discriminate Hl].
    exists l. split; [reflexivity|].
    exact (proj1 (proj2 (turn_list_all_or_nothing [Scenario.a_step]) l Hl)).
Defined.

End more_examples.
